(** * Gesture engine and landmark smoother of the 3D viewer

    A shallow embedding of [GestureEngine] (interaction/gestureEngine) and of
    the smoothing part of [HandTracker] (perception/handTracker), followed
    by the code around them: the handlers of the application, the model
    manager and its surface sampler, the model controller, and the pipeline
    of gesture detector, gesture state machine and interaction controller.

    Modelling conventions.
    - JavaScript numbers holding coordinates, distances and zoom factors are
      real numbers ([R]); rounding and NaN are outside the model.
      [Math.hypot], [Math.abs], [Math.max] and [Math.min] are [hypot] below,
      [Rabs], [Rmax] and [Rmin].
    - [Date.now()] is an integer number of milliseconds ([Z]).  One frame is
      processed at one reading [now] of the clock: the handlers take it as
      an argument.
    - A field that is [null] or [undefined] is [None]; JavaScript truthiness
      of a timestamp is [truthy] (the number [0] is falsy as well).
    - [emit] is modelled by the list of emitted events, in emission order,
      returned next to the new engine state.
    - Reading [.x] or [.y] of an absent landmark throws a [TypeError]; the
      handlers return [None] there. *)

From Stdlib Require Import Reals Lra ZArith Lia List Bool String.
Import ListNotations.

Open Scope R_scope.

(** ** Numbers, comparisons, option plumbing *)

Definition Rltb (a b : R) : bool := if Rlt_dec a b then true else false.
Definition Rgtb (a b : R) : bool := if Rgt_dec a b then true else false.

(** [Math.hypot(a, b)]. *)
Definition hypot (a b : R) : R := sqrt (a * a + b * b).

Definition bind {A B : Type} (o : option A) (k : A -> option B) : option B :=
  match o with
  | Some a => k a
  | None => None
  end.

Notation "x <- o ;; k" := (bind o (fun x => k))
  (at level 61, o at next level, right associativity).
Notation "' p <- o ;; k" := (bind o (fun p => k))
  (at level 61, p pattern, o at next level, right associativity).

(** [xs.map((x, i) => f(x, i))] where [f] may throw. *)
Fixpoint imapM_from {A B : Type} (f : A -> nat -> option B) (i : nat)
  (xs : list A) : option (list B) :=
  match xs with
  | [] => Some []
  | x :: rest =>
      y <- f x i ;;
      ys <- imapM_from f (S i) rest ;;
      Some (y :: ys)
  end.

Definition imapM {A B : Type} (f : A -> nat -> option B) (xs : list A)
  : option (list B) :=
  imapM_from f 0 xs.

(** Truthiness of a field holding a timestamp, [null] or [undefined]. *)
Definition truthy (t : option Z) : bool :=
  match t with
  | Some v => negb (v =? 0)%Z
  | None => false
  end.

(** Numeric value of such a field inside a subtraction ([null] is [0]). *)
Definition toNumber (t : option Z) : Z :=
  match t with
  | Some v => v
  | None => 0%Z
  end.

(** ** Data model *)

Record Point : Type := mkPoint { lm_x : R; lm_y : R; lm_z : R }.

Definition Landmarks : Type := list Point.

Record Handedness : Type := mkHandedness { label : string }.

(** The [results] object of one frame.  An absent [multiHandLandmarks] or
    [multiHandedness] is the empty list. *)
Record Results : Type := mkResults {
  multiHandLandmarks : list Landmarks;
  multiHandedness : list Handedness
}.

Inductive Gesture : Type := palm | victory | fist | point | unknown.

(** Values of [this.state]. *)
Inductive State : Type :=
  idle | tracking | switching | pinching | rotating | locked.

Inductive Direction : Type := RIGHT | LEFT.

(** The calls [emit(name, data)]. *)
Inductive Event : Type :=
| Zoom (scaleFactor : R)
| Rotate (deltaX deltaY : R)
| Swipe (direction : Direction)
| Reset
| Lock
| Unlock.

Record HandPosition : Type := mkHandPosition {
  pos_x : R;
  pos_y : R;
  startX : R;
  startY : R
}.

(** The mutable fields of a [GestureEngine].  The constants of the
    constructor ([swipeTimeWindow], [swipeThreshold], [rotationDamping],
    [zoomDamping]) are read nowhere and are left out. *)
Record GestureEngine : Type := mkEngine {
  state : State;
  gestureStartTime : option Z;
  lastHandPosition : option HandPosition;
  pinchStartDistance : option R;
  palmStartTime : option Z;
  switchCooldown : option Z;
  lastMoveTime : option Z;
  swipeCooldownTimestamp : option Z
}.

(** [new GestureEngine()]: the four fields the constructor does not mention
    start [undefined]. *)
Definition constructor : GestureEngine :=
  mkEngine idle None None None None None None None.

Definition set_state (s : State) (e : GestureEngine) : GestureEngine :=
  mkEngine s (gestureStartTime e) (lastHandPosition e) (pinchStartDistance e)
    (palmStartTime e) (switchCooldown e) (lastMoveTime e)
    (swipeCooldownTimestamp e).

Definition set_gestureStartTime (t : option Z) (e : GestureEngine)
  : GestureEngine :=
  mkEngine (state e) t (lastHandPosition e) (pinchStartDistance e)
    (palmStartTime e) (switchCooldown e) (lastMoveTime e)
    (swipeCooldownTimestamp e).

Definition set_lastHandPosition (p : option HandPosition) (e : GestureEngine)
  : GestureEngine :=
  mkEngine (state e) (gestureStartTime e) p (pinchStartDistance e)
    (palmStartTime e) (switchCooldown e) (lastMoveTime e)
    (swipeCooldownTimestamp e).

Definition set_pinchStartDistance (d : option R) (e : GestureEngine)
  : GestureEngine :=
  mkEngine (state e) (gestureStartTime e) (lastHandPosition e) d
    (palmStartTime e) (switchCooldown e) (lastMoveTime e)
    (swipeCooldownTimestamp e).

Definition set_palmStartTime (t : option Z) (e : GestureEngine)
  : GestureEngine :=
  mkEngine (state e) (gestureStartTime e) (lastHandPosition e)
    (pinchStartDistance e) t (switchCooldown e) (lastMoveTime e)
    (swipeCooldownTimestamp e).

Definition set_switchCooldown (t : option Z) (e : GestureEngine)
  : GestureEngine :=
  mkEngine (state e) (gestureStartTime e) (lastHandPosition e)
    (pinchStartDistance e) (palmStartTime e) t (lastMoveTime e)
    (swipeCooldownTimestamp e).

Definition set_lastMoveTime (t : option Z) (e : GestureEngine)
  : GestureEngine :=
  mkEngine (state e) (gestureStartTime e) (lastHandPosition e)
    (pinchStartDistance e) (palmStartTime e) (switchCooldown e) t
    (swipeCooldownTimestamp e).

Definition State_eqb (a b : State) : bool :=
  match a, b with
  | idle, idle | tracking, tracking | switching, switching
  | pinching, pinching | rotating, rotating | locked, locked => true
  | _, _ => false
  end.

(** ** GestureEngine: pose classification *)

Definition fingerTips : list nat := [4; 8; 12; 16; 20]%nat.
Definition fingerPips : list nat := [3; 6; 10; 14; 18]%nat.
Definition tolerance : R := 0.02.

(** [getFingerStates(landmarks)]: thumb, index, middle, ring, pinky. *)
Definition getFingerStates (landmarks : Landmarks) : option (list bool) :=
  imapM (fun tipIdx i =>
           tip <- nth_error landmarks tipIdx ;;
           pip <- nth_error landmarks (nth i fingerPips 0%nat) ;;
           Some (Rltb (lm_y tip) (lm_y pip + tolerance)))
        fingerTips.

(** The body of [detectGesture] after [fingerStates] is computed.  An index
    past the end of the array reads [undefined], which is falsy. *)
Definition classify (fingerStates : list bool) : Gesture :=
  let extendedCount := List.length (filter (fun s => s) fingerStates) in
  let fs := fun i => nth i fingerStates false in
  if (4 <=? extendedCount)%nat then palm
  else if fs 1%nat && fs 2%nat && negb (fs 3%nat) && negb (fs 4%nat)
  then victory
  else if (extendedCount =? 0)%nat || ((extendedCount =? 1)%nat && fs 0%nat)
  then fist
  else if fs 1%nat then point
  else if (extendedCount =? 1)%nat then point
  else unknown.

(** [detectGesture(landmarks)]. *)
Definition detectGesture (landmarks : Landmarks) : option Gesture :=
  fingerStates <- getFingerStates landmarks ;;
  Some (classify fingerStates).

(** ** GestureEngine: geometry *)

(** [getHandCenter(landmarks)].  On an empty array JavaScript yields NaN;
    the statements below that use a centre ask for landmarks to be there. *)
Definition getHandCenter (landmarks : Landmarks) : R * R :=
  let sumX := fold_left (fun acc lm => acc + lm_x lm) landmarks 0 in
  let sumY := fold_left (fun acc lm => acc + lm_y lm) landmarks 0 in
  (sumX / INR (List.length landmarks), sumY / INR (List.length landmarks)).

(** The distance both [processFrame] and [handleTwoHandGestures] compute. *)
Definition centerDistance (hand1 hand2 : Landmarks) : R :=
  let hand1Center := getHandCenter hand1 in
  let hand2Center := getHandCenter hand2 in
  hypot (fst hand1Center - fst hand2Center)
        (snd hand1Center - snd hand2Center).

(** ** GestureEngine: the state machine *)

(** [resetState()]. *)
Definition resetState (e : GestureEngine) : GestureEngine * list Event :=
  let evs := if State_eqb (state e) locked then [Unlock] else [] in
  (set_gestureStartTime None
     (set_pinchStartDistance None
        (set_lastHandPosition None (set_state idle e))),
   evs).

(** [handleTwoHandGestures(hands)]: the pinch zoom.  With fewer than two
    hands, [getHandCenter(undefined)] throws. *)
Definition handleTwoHandGestures (e : GestureEngine) (hands : list Landmarks)
  : option (GestureEngine * list Event) :=
  match hands with
  | hand1 :: hand2 :: _ =>
      let distance := centerDistance hand1 hand2 in
      match pinchStartDistance e with
      | None =>
          Some (set_state pinching (set_pinchStartDistance (Some distance) e),
                [])
      | Some prevDistance =>
          let evs :=
            if Rgtb prevDistance 0 then
              let rawFactor := distance / prevDistance in
              let rawFactor := Rmax 0.85 (Rmin 1.15 rawFactor) in
              let scaleFactor := 1 + (rawFactor - 1) * 1.5 in
              if Rgtb (Rabs (scaleFactor - 1.0)) 0.0005
              then [Zoom scaleFactor]
              else []
            else [] in
          Some (set_pinchStartDistance (Some distance) e, evs)
      end
  | _ => None
  end.

Definition isFistOrPoint (g : Gesture) : bool :=
  match g with
  | fist | point => true
  | _ => false
  end.

(** Step 1 of [handleSingleHandGestures]: the palm hold. *)
Definition palmStep (e : GestureEngine) (now : Z)
  : GestureEngine * list Event :=
  let e1 :=
    if negb (truthy (palmStartTime e))
    then set_palmStartTime (Some now) e
    else e in
  if (now - toNumber (palmStartTime e1) >? 1200)%Z then
    if negb (State_eqb (state e1) idle) then
      let '(e2, evs2) := resetState e1 in
      (set_palmStartTime None e2, Reset :: evs2)
    else (e1, [])
  else (e1, []).

(** Step 2 of [handleSingleHandGestures]: a horizontal point switches the
    model.  [Some None] means that the step fell through to step 3. *)
Definition switchStep (e : GestureEngine) (now : Z) (gesture : Gesture)
  (landmarks : Landmarks) : option (option (GestureEngine * list Event)) :=
  match gesture with
  | point =>
      mcp <- nth_error landmarks 5 ;;
      tip <- nth_error landmarks 8 ;;
      let dx := lm_x tip - lm_x mcp in
      let dy := lm_y tip - lm_y mcp in
      if Rgtb (Rabs dx) (Rabs dy * 0.8) && Rgtb (Rabs dx) 0.04 then
        if negb (truthy (switchCooldown e))
           || (now - toNumber (switchCooldown e) >? 1200)%Z
        then
          let direction := if Rgtb dx 0 then RIGHT else LEFT in
          Some (Some (set_state switching (set_switchCooldown (Some now) e),
                      [Swipe direction]))
        else Some (Some (e, []))
      else Some None
  | _ => Some None
  end.

(** Step 3 of [handleSingleHandGestures]: fist or point drives rotation. *)
Definition rotateStep (e : GestureEngine) (now : Z) (indexTip : Point)
  : GestureEngine * list Event :=
  match lastHandPosition e with
  | None =>
      (set_state tracking
         (set_gestureStartTime (Some now)
            (set_lastHandPosition
               (Some (mkHandPosition (lm_x indexTip) (lm_y indexTip)
                        (lm_x indexTip) (lm_y indexTip))) e)),
       [])
  | Some last =>
      let currentX := lm_x indexTip in
      let currentY := lm_y indexTip in
      let elapsed := (now - toNumber (gestureStartTime e))%Z in
      let '(e1, evs) :=
        if (elapsed >? 50)%Z then
          let deltaX := currentX - pos_x last in
          let deltaY := currentY - pos_y last in
          (set_state rotating e, [Rotate (deltaX * 2.5) (deltaY * 2.5)])
        else (e, []) in
      let instantDist := hypot (currentX - pos_x last) (currentY - pos_y last) in
      let update := fun e' =>
        set_lastHandPosition
          (Some (mkHandPosition currentX currentY (startX last) (startY last)))
          e' in
      if Rgtb instantDist 0.002 then
        (update (set_lastMoveTime (Some now) e1), evs)
      else if truthy (lastMoveTime e1)
                && (now - toNumber (lastMoveTime e1) >? 300)%Z then
        let '(e2, evs2) := resetState e1 in
        (set_lastMoveTime None e2, evs ++ evs2)
      else (update e1, evs)
  end.

(** [handleSingleHandGestures(landmarks, handedness)]; the second argument
    is not read.  [detectGesture] reads landmarks up to index 20 before any
    field is written, so that the later reads of landmarks 5 and 8 succeed
    whenever it did. *)
Definition handleSingleHandGestures (e : GestureEngine) (now : Z)
  (landmarks : Landmarks) : option (GestureEngine * list Event) :=
  if truthy (swipeCooldownTimestamp e)
     && (now <? toNumber (swipeCooldownTimestamp e))%Z
  then Some (e, [])
  else
    gesture <- detectGesture landmarks ;;
    match gesture with
    | palm => Some (palmStep e now)
    | _ =>
        let e1 := set_palmStartTime None e in
        switched <- switchStep e1 now gesture landmarks ;;
        match switched with
        | Some result => Some result
        | None =>
            if isFistOrPoint gesture then
              indexTip <- nth_error landmarks 8 ;;
              Some (rotateStep e1 now indexTip)
            else Some (resetState e1)
        end
    end.

(** [l.includes(s)]. *)
Definition includes (s : string) (l : list string) : bool :=
  existsb (String.eqb s) l.

(** [processFrame(results)], at clock reading [now]. *)
Definition processFrame (e : GestureEngine) (now : Z) (results : Results)
  : option (GestureEngine * list Event) :=
  let hands := multiHandLandmarks results in
  let handedness := multiHandedness results in
  match hands with
  | [] => Some (resetState e)
  | [hand1] => handleSingleHandGestures e now hand1
  | hand1 :: hand2 :: _ =>
      let dist := centerDistance hand1 hand2 in
      if Rltb dist 0.12 then handleSingleHandGestures e now hand1
      else
        let labels := map label handedness in
        let hasLeft := includes "Left" labels || includes "left" labels in
        let hasRight := includes "Right" labels || includes "right" labels in
        if hasLeft && hasRight then handleTwoHandGestures e hands
        else handleSingleHandGestures e now hand1
  end.

(** A session: the frames delivered to [processFrame], each with the clock
    reading at which it is processed.  A frame that throws ends the run. *)
Fixpoint run (e : GestureEngine) (frames : list (Z * Results))
  : option (GestureEngine * list Event) :=
  match frames with
  | [] => Some (e, [])
  | (now, results) :: rest =>
      '(e1, evs1) <- processFrame e now results ;;
      '(e2, evs2) <- run e1 rest ;;
      Some (e2, evs1 ++ evs2)
  end.

(** ** HandTracker: temporal smoothing *)

(** The fields of a [HandTracker] that smoothing reads and writes.
    [hasCallback] says whether [onResultsCallback] is set;
    [landmarkHistory] holds one buffer per hand index, and a missing entry
    reads as the empty buffer that [smoothLandmarks] would create. *)
Record HandTracker : Type := mkTracker {
  hasCallback : bool;
  smoothingWindow : nat;
  landmarkHistory : list (list Landmarks)
}.

(** The tracker after [init]: window of 3, no history. *)
Definition newHandTracker : HandTracker := mkTracker true 3 [].

(** [h[handIndex]], the empty buffer when there is none yet. *)
Definition getHistory (h : list (list Landmarks)) (handIndex : nat)
  : list Landmarks :=
  nth handIndex h [].

(** [h[handIndex] = buf]; the array grows when [handIndex] is past its end. *)
Fixpoint setHistory (h : list (list Landmarks)) (handIndex : nat)
  (buf : list Landmarks) : list (list Landmarks) :=
  match handIndex, h with
  | O, [] => [buf]
  | O, _ :: rest => buf :: rest
  | S k, [] => [] :: setHistory [] k buf
  | S k, b :: rest => b :: setHistory rest k buf
  end.

(** The sums of landmark [i] over the buffered frames. *)
Fixpoint sumAt (frames : list Landmarks) (i : nat) (acc : R * R * R)
  : option (R * R * R) :=
  match frames with
  | [] => Some acc
  | frame :: rest =>
      p <- nth_error frame i ;;
      let '(sumX, sumY, sumZ) := acc in
      sumAt rest i (sumX + lm_x p, sumY + lm_y p, sumZ + lm_z p)
  end.

(** The [landmarks.map] of [smoothLandmarks]: the mean over [frames]. *)
Definition average (frames : list Landmarks) (landmarks : Landmarks)
  : option Landmarks :=
  imapM (fun (_ : Point) i =>
           '(sumX, sumY, sumZ) <- sumAt frames i (0, 0, 0) ;;
           let count := INR (List.length frames) in
           Some (mkPoint (sumX / count) (sumY / count) (sumZ / count)))
        landmarks.

(** The buffer after the push and the shift of [smoothLandmarks]. *)
Definition pushFrame (window : nat) (buf : list Landmarks)
  (landmarks : Landmarks) : list Landmarks :=
  let pushed := buf ++ [landmarks] in
  if (window <? List.length pushed)%nat then tl pushed else pushed.

(** [smoothLandmarks(landmarks, handIndex)].  A buffered frame shorter
    than [landmarks] makes the averaging throw. *)
Definition smoothLandmarks (t : HandTracker) (landmarks : Landmarks)
  (handIndex : nat) : option (HandTracker * Landmarks) :=
  let buf :=
    pushFrame (smoothingWindow t) (getHistory (landmarkHistory t) handIndex)
      landmarks in
  let t1 :=
    mkTracker (hasCallback t) (smoothingWindow t)
      (setHistory (landmarkHistory t) handIndex buf) in
  smoothed <- average buf landmarks ;;
  Some (t1, smoothed).

(** The [forEach] of [handleResults], from hand index [handIndex] on. *)
Fixpoint smoothAll (t : HandTracker) (hands : list Landmarks) (handIndex : nat)
  : option (HandTracker * list Landmarks) :=
  match hands with
  | [] => Some (t, [])
  | landmarks :: rest =>
      '(t1, smoothed) <- smoothLandmarks t landmarks handIndex ;;
      '(t2, others) <- smoothAll t1 rest (S handIndex) ;;
      Some (t2, smoothed :: others)
  end.

(** [handleResults(results)]: the inner [None] is the early return without
    a callback, otherwise the results handed to the callback (their [image]
    field is left out). *)
Definition handleResults (t : HandTracker) (results : Results)
  : option (HandTracker * option Results) :=
  if negb (hasCallback t) then Some (t, None)
  else
    '(t1, smoothed) <- smoothAll t (multiHandLandmarks results) 0 ;;
    Some (t1, Some (mkResults smoothed (multiHandedness results))).

(** ** Sample input: a 21-landmark hand in a given pose *)

(** A hand whose landmarks all sit at [(x, y)], except the five fingertips:
    a tip is [0.1] above [y] when its finger is extended and [0.1] below
    otherwise (the image [y] axis points down), and the index tip is shifted
    by [dx] horizontally.  Landmark 5 is the index knuckle, 8 the index tip. *)
Definition poseHand (x y dx : R) (thumb index middle ring pinky : bool)
  : Landmarks :=
  let at_ := mkPoint x y 0 in
  let tipY := fun (extended : bool) => if extended then y - 0.1 else y + 0.1 in
  [ at_; at_; at_; at_; mkPoint x (tipY thumb) 0;
    at_; at_; at_; mkPoint (x + dx) (tipY index) 0;
    at_; at_; at_; mkPoint x (tipY middle) 0;
    at_; at_; at_; mkPoint x (tipY ring) 0;
    at_; at_; at_; mkPoint x (tipY pinky) 0 ].

Definition fistAt (x y : R) : Landmarks :=
  poseHand x y 0 false false false false false.

Definition palmAt (x y : R) : Landmarks :=
  poseHand x y 0 true true true true true.

(** The index finger alone, its tip [dx] to the side of its knuckle. *)
Definition pointAt (x y dx : R) : Landmarks :=
  poseHand x y dx false true false false false.

Definition oneHand (hand : Landmarks) : Results :=
  mkResults [hand] [mkHandedness "Right"].

Definition twoHands (hand1 hand2 : Landmarks) : Results :=
  mkResults [hand1; hand2] [mkHandedness "Left"; mkHandedness "Right"].

Definition noHands : Results := mkResults [] [].

(** ** Specification-side definitions *)

(** The number of extended digits. *)
Definition extendedDigits (thumb index middle ring pinky : bool) : nat :=
  (Nat.b2n thumb + Nat.b2n index + Nat.b2n middle + Nat.b2n ring
   + Nat.b2n pinky)%nat.

(** The extension test of [getFingerStates] on landmarks [tipIdx] and
    [pipIdx] of a hand that has them. *)
Definition extendedAt (landmarks : Landmarks) (tipIdx pipIdx : nat) : bool :=
  Rltb (lm_y (nth tipIdx landmarks (mkPoint 0 0 0)))
       (lm_y (nth pipIdx landmarks (mkPoint 0 0 0)) + tolerance).

(** The priority list of the specification, word for word. *)
Definition classify_spec (thumb index middle ring pinky : bool) : Gesture :=
  let E := extendedDigits thumb index middle ring pinky in
  if (4 <=? E)%nat then palm
  else if index && middle && negb ring && negb pinky then victory
  else if (E =? 0)%nat || ((E =? 1)%nat && thumb) then fist
  else if index then point
  else unknown.

(** The priority list the code implements: a lone extended middle, ring or
    little finger is a point as well. *)
Definition classify_code (thumb index middle ring pinky : bool) : Gesture :=
  let E := extendedDigits thumb index middle ring pinky in
  if (4 <=? E)%nat then palm
  else if index && middle && negb ring && negb pinky then victory
  else if (E =? 0)%nat || ((E =? 1)%nat && thumb) then fist
  else if index || (E =? 1)%nat then point
  else unknown.

(** [clamp(x, lo, hi)] as the specification uses it. *)
Definition clamp (x lo hi : R) : R :=
  if Rltb x lo then lo else if Rgtb x hi then hi else x.

(** The zoom factor of the specification for distances [d0] then [d1]. *)
Definition zoomFactor (d0 d1 : R) : R :=
  1 + (clamp (d1 / d0) 0.85 1.15 - 1) * 1.5.

(** The decision of [processFrame]: which handler a frame goes to. *)
Inductive Route : Type :=
| NoHands
| SingleHand (landmarks : Landmarks)
| TwoHands (hands : list Landmarks).

Definition route (results : Results) : Route :=
  match multiHandLandmarks results with
  | [] => NoHands
  | [hand1] => SingleHand hand1
  | hand1 :: hand2 :: _ =>
      if Rltb (centerDistance hand1 hand2) 0.12 then SingleHand hand1
      else
        let labels := map label (multiHandedness results) in
        if (includes "Left" labels || includes "left" labels)
           && (includes "Right" labels || includes "right" labels)
        then TwoHands (multiHandLandmarks results)
        else SingleHand hand1
  end.

(** The frame goes to the single-hand handler and its pose is [g]. *)
Definition poseFrame (g : Gesture) (results : Results) : Prop :=
  exists landmarks,
    route results = SingleHand landmarks
    /\ detectGesture landmarks = Some g.

Definition palmFrame (results : Results) : Prop := poseFrame palm results.

(** A single-hand frame classified as anything but Palm. *)
Definition nonPalmFrame (results : Results) : Prop :=
  exists g, poseFrame g results /\ g <> palm.

(** The index finger points sideways: the test of step 2. *)
Definition horizontal (landmarks : Landmarks) : Prop :=
  exists mcp tip,
    nth_error landmarks 5 = Some mcp
    /\ nth_error landmarks 8 = Some tip
    /\ Rabs (lm_x tip - lm_x mcp) > Rabs (lm_y tip - lm_y mcp) * 0.8
    /\ Rabs (lm_x tip - lm_x mcp) > 0.04.

(** A qualifying horizontal-point frame. *)
Definition swipeFrame (results : Results) : Prop :=
  exists landmarks,
    route results = SingleHand landmarks
    /\ detectGesture landmarks = Some point
    /\ horizontal landmarks.

(** Every detected hand carries the 21 landmarks of the hand topology. *)
Definition wellFormed (results : Results) : Prop :=
  Forall (fun hand : Landmarks => List.length hand = 21%nat)
         (multiHandLandmarks results).

Definition isReset (ev : Event) : bool :=
  match ev with Reset => true | _ => false end.

Definition isSwipe (ev : Event) : bool :=
  match ev with Swipe _ => true | _ => false end.

Definition isZoom (ev : Event) : bool :=
  match ev with Zoom _ => true | _ => false end.


Definition isLockOrUnlock (ev : Event) : bool :=
  match ev with Lock | Unlock => true | _ => false end.

Definition countEvents (p : Event -> bool) (evs : list Event) : nat :=
  List.length (filter p evs).

(** A Palm frame at time [t0] occurs in [frames], and every later frame is
    a single-hand Palm frame. *)
Definition palmOnlySince (t0 : Z) (frames : list (Z * Results)) : Prop :=
  exists pre r0 held,
    frames = pre ++ (t0, r0) :: held
    /\ palmFrame r0
    /\ Forall (fun f : Z * Results => palmFrame (snd f)) held.

(** A Palm frame at time [t0] occurs in [frames], and no later frame is a
    single-hand frame of another pose (frames without a hand, and two-hand
    frames, may follow it). *)
Definition noOtherPoseSince (t0 : Z) (frames : list (Z * Results)) : Prop :=
  exists pre r0 later,
    frames = pre ++ (t0, r0) :: later
    /\ palmFrame r0
    /\ Forall (fun f : Z * Results => ~ nonPalmFrame (snd f)) later.

(** The boolean test of step 2 on the two landmarks it reads. *)
Definition horizontalb (mcp tip : Point) : bool :=
  Rgtb (Rabs (lm_x tip - lm_x mcp)) (Rabs (lm_y tip - lm_y mcp) * 0.8)
  && Rgtb (Rabs (lm_x tip - lm_x mcp)) 0.04.

(** The cooldown test of step 2: no swipe yet, or the last one is more than
    1200 ms old. *)
Definition cooldownOver (e : GestureEngine) (now : Z) : bool :=
  negb (truthy (switchCooldown e))
  || (now - toNumber (switchCooldown e) >? 1200)%Z.

(** The engine holds the anchor of a sample fist at [(x, y)], latched at
    time [t] with session start [(sx, sy)], and has recorded no movement. *)
Definition unmoved (x y sx sy : R) (t : Z) (e : GestureEngine) : Prop :=
  swipeCooldownTimestamp e = None
  /\ lastMoveTime e = None
  /\ gestureStartTime e = Some t
  /\ lastHandPosition e = Some (mkHandPosition (x + 0) (y + 0.1) sx sy).

(** No lock or unlock event among [evs]. *)
Definition noLock (evs : list Event) : Prop :=
  Forall (fun ev => isLockOrUnlock ev = false) evs.

(** The rotation a list of events adds up to: the sums of the deltas of
    its Rotate events. *)
Definition totalRotation (evs : list Event) : R * R :=
  fold_right
    (fun ev acc =>
       match ev with
       | Rotate deltaX deltaY => (deltaX + fst acc, deltaY + snd acc)
       | _ => acc
       end)
    (0, 0) evs.

(** A single-hand frame in a rotating pose (a fist, or a point that is not
    horizontal) whose index tip is [tip]. *)
Definition dragFrame (tip : Point) (results : Results) : Prop :=
  exists landmarks g,
    route results = SingleHand landmarks
    /\ detectGesture landmarks = Some g
    /\ isFistOrPoint g = true
    /\ ~ (g = point /\ horizontal landmarks)
    /\ nth_error landmarks 8 = Some tip.

(** A drag latched at time [t]: frames in a rotating pose, each more than
    50 ms after the latch and with the index tip more than 0.002 away from
    where the previous frame left it; it leads the tip from [from] to the
    last position. *)
Inductive dragPath (t : Z) : R * R -> list (Z * Results) -> R * R -> Prop :=
| drag_done (from : R * R) : dragPath t from [] from
| drag_move (from to : R * R) (now : Z) (tip : Point) (results : Results)
    (rest : list (Z * Results)) :
    dragFrame tip results ->
    (now - t > 50)%Z ->
    hypot (lm_x tip - fst from) (lm_y tip - snd from) > 0.002 ->
    dragPath t (lm_x tip, lm_y tip) rest to ->
    dragPath t from ((now, results) :: rest) to.

(** ** GestureEngine: the event bus *)

(** The name under which [emit] delivers an event. *)
Definition eventName (ev : Event) : string :=
  match ev with
  | Zoom _ => "zoom"
  | Rotate _ _ => "rotate"
  | Swipe _ => "swipe"
  | Reset => "reset"
  | Lock => "lock"
  | Unlock => "unlock"
  end.

(** [this.eventCallbacks]: an object from event names to callbacks of some
    type [H], one entry per name. *)
Definition Callbacks (H : Type) : Type := list (string * H).

(** [on(event, callback)]: [this.eventCallbacks[event] = callback]. *)
Definition on {H : Type} (event : string) (callback : H)
  (eventCallbacks : Callbacks H) : Callbacks H :=
  (event, callback)
    :: filter (fun entry => negb (String.eqb (fst entry) event)) eventCallbacks.

(** [this.eventCallbacks[event]]. *)
Definition callbackFor {H : Type} (eventCallbacks : Callbacks H)
  (event : string) : option H :=
  match find (fun entry => String.eqb (fst entry) event) eventCallbacks with
  | Some entry => Some (snd entry)
  | None => None
  end.

(** [emit(event, data)]: the callback that is called with the payload, if
    one is registered under the name of the event. *)
Definition emit {H : Type} (eventCallbacks : Callbacks H) (ev : Event)
  : option H :=
  callbackFor eventCallbacks (eventName ev).

(** ** ModelManager: the model index *)

Module ModelManager.

(** The fields of a [ModelManager] that switching reads and writes. *)
Record t : Type := mk {
  models : list string;
  currentIndex : Z
}.

(** The paths [init] installs; the index starts at 0. *)
Definition init : t :=
  mk ["/mechanical.glb"; "/Satellite.glb"; "/car.glb"; "/dinosaur.glb"]%string
     0.

Definition getModelCount (m : t) : Z := Z.of_nat (List.length (models m)).

(** The index update of [nextModel()], which runs before the model data
    are awaited.  The JavaScript [%] truncates like [Z.rem]. *)
Definition nextModel (m : t) : t :=
  mk (models m) (Z.rem (currentIndex m + 1) (getModelCount m)).

(** The index update of [prevModel()]. *)
Definition prevModel (m : t) : t :=
  mk (models m)
     (Z.rem (currentIndex m - 1 + getModelCount m) (getModelCount m)).

End ModelManager.

(** ** The application: handlers of the gesture events *)

Module App.

Inductive AppMode : Type := showcase | user.

(** [transformRef.current]. *)
Record Transform : Type := mkTransform {
  rotation_x : R;
  rotation_y : R;
  scale : R;
  isLocked : bool
}.

Definition identity : Transform := mkTransform 0 0 1 false.

(** What the handlers read and write: the transform and the model
    manager. *)
Record State : Type := mkState {
  transform : Transform;
  manager : ModelManager.t
}.

Definition initial : State := mkState identity ModelManager.init.

(** The handler of [swipe], up to its first [await]: nothing in user mode;
    otherwise RIGHT goes to the previous model and LEFT to the next. *)
Definition onSwipe (appMode : AppMode) (ev : Event) (s : State) : State :=
  match appMode, ev with
  | user, _ => s
  | showcase, Swipe RIGHT =>
      mkState (transform s) (ModelManager.prevModel (manager s))
  | showcase, Swipe LEFT =>
      mkState (transform s) (ModelManager.nextModel (manager s))
  | showcase, _ => s
  end.

(** The rest of the [swipe] handler, which runs once the model data have
    arrived: the transform starts over. *)
Definition modelLoaded (s : State) : State :=
  mkState identity (manager s).

(** The handler of [zoom]. *)
Definition onZoom (ev : Event) (s : State) : State :=
  match ev with
  | Zoom scaleFactor =>
      if isLocked (transform s) then s
      else
        let newScale := scale (transform s) * scaleFactor in
        mkState
          (mkTransform (rotation_x (transform s)) (rotation_y (transform s))
             (Rmax 0.3 (Rmin 3 newScale)) (isLocked (transform s)))
          (manager s)
  | _ => s
  end.

(** The handler of [rotate]. *)
Definition onRotate (appMode : AppMode) (ev : Event) (s : State) : State :=
  match ev with
  | Rotate deltaX deltaY =>
      if isLocked (transform s) then s
      else
        let invert := match appMode with user => -1 | showcase => 1 end in
        mkState
          (mkTransform (rotation_x (transform s) - deltaY * invert)
             (rotation_y (transform s) + deltaX * invert)
             (scale (transform s)) (isLocked (transform s)))
          (manager s)
  | _ => s
  end.

(** The handler of [reset]. *)
Definition onReset (ev : Event) (s : State) : State :=
  mkState identity (manager s).

Definition Handler : Type := Event -> State -> State.

(** [setupGestureHandlers()], under the [appMode] its closures capture. *)
Definition setupGestureHandlers (appMode : AppMode)
  (eventCallbacks : Callbacks Handler) : Callbacks Handler :=
  on "reset" onReset
    (on "rotate" (onRotate appMode)
       (on "zoom" onZoom
          (on "swipe" (onSwipe appMode) eventCallbacks))).

(** What happens to the application: the engine emits an event, or the
    model data a swipe asked for arrive. *)
Inductive Action : Type :=
| Emitted (ev : Event)
| ModelLoaded.

Definition step (eventCallbacks : Callbacks Handler) (s : State) (a : Action)
  : State :=
  match a with
  | Emitted ev =>
      match emit eventCallbacks ev with
      | Some handler => handler ev s
      | None => s
      end
  | ModelLoaded => modelLoaded s
  end.

Definition steps (eventCallbacks : Callbacks Handler) (s : State)
  (actions : list Action) : State :=
  fold_left (step eventCallbacks) actions s.

End App.

(** ** HandTracker: sessions and invariants *)

(** Successive calls of [smoothLandmarks] for one hand index, one raw
    landmark set per camera frame. *)
Fixpoint smoothEach (t : HandTracker) (frames : list Landmarks)
  (handIndex : nat) : option (HandTracker * list Landmarks) :=
  match frames with
  | [] => Some (t, [])
  | landmarks :: rest =>
      '(t1, smoothed) <- smoothLandmarks t landmarks handIndex ;;
      '(t2, others) <- smoothEach t1 rest handIndex ;;
      Some (t2, smoothed :: others)
  end.

(** The last [n] elements of a list. *)
Definition lastn {A : Type} (n : nat) (l : list A) : list A :=
  skipn (List.length l - n) l.

(** No slot buffers more frames than the smoothing window. *)
Definition withinWindow (t : HandTracker) : Prop :=
  Forall (fun buf : list Landmarks =>
            (List.length buf <= smoothingWindow t)%nat)
         (landmarkHistory t).

(** The tracker has its callback and every buffered frame has the 21
    landmarks of the hand topology. *)
Definition trackerReady (t : HandTracker) : Prop :=
  hasCallback t = true
  /\ Forall (Forall (fun frame : Landmarks => List.length frame = 21%nat))
            (landmarkHistory t).

(** The landmark lies in the box spanned by [lo] and [hi]. *)
Definition inBox (lo hi p : Point) : Prop :=
  lm_x lo <= lm_x p <= lm_x hi
  /\ lm_y lo <= lm_y p <= lm_y hi
  /\ lm_z lo <= lm_z p <= lm_z hi.

(** ** ModelController: switching between loaded models *)

Module ModelController.

(** The fields that switching reads and writes.  [models] holds the names
    of the loaded models; a model object is identified by its position in
    [models].  [pending] is the index captured by the [then] callback of a
    crossfade that is still running. *)
Record t : Type := mk {
  models : list string;
  currentIndex : Z;
  currentModel : option Z;
  isTransitioning : bool;
  pending : option Z
}.

Definition count (c : t) : Z := Z.of_nat (List.length (models c)).

(** The controller once [loadAll] has loaded [names]: the first model is
    shown. *)
Definition loaded (names : list string) : t :=
  mk names 0 (match names with [] => None | _ :: _ => Some 0%Z end) false None.

(** How a call ended: it returned without doing anything, it started a
    crossfade, it threw, or its crossfade promise was rejected (so that the
    [then] callback never runs). *)
Inductive Outcome : Type := ignored | started | threw | rejected.

(** [switchTo(index)].  [this.models[index].model] throws for an index
    outside the list, after [isTransitioning] was set; [crossfade] rejects
    when there is no current model to fade out. *)
Definition switchTo (c : t) (index : Z) : t * Outcome :=
  if (index =? currentIndex c)%Z || isTransitioning c then (c, ignored)
  else
    let c1 :=
      mk (models c) (currentIndex c) (currentModel c) true (pending c) in
    if (0 <=? index)%Z && (index <? count c)%Z then
      match currentModel c with
      | Some _ =>
          (mk (models c) (currentIndex c) (currentModel c) true (Some index),
           started)
      | None => (c1, rejected)
      end
    else (c1, threw).

(** [next()]. *)
Definition next (c : t) : t * Outcome :=
  if isTransitioning c || (count c =? 0)%Z then (c, ignored)
  else switchTo c (Z.rem (currentIndex c + 1) (count c)).

(** [previous()]. *)
Definition previous (c : t) : t * Outcome :=
  if isTransitioning c || (count c =? 0)%Z then (c, ignored)
  else switchTo c (Z.rem (currentIndex c - 1 + count c) (count c)).

(** The [then] callback of [switchTo], run when the crossfade resolves. *)
Definition crossfadeDone (c : t) : t :=
  match pending c with
  | Some index => mk (models c) index (Some index) false None
  | None => c
  end.

(** What one run of [animate] in [crossfade] leaves behind: the opacity of
    the old model and that of the new one, whether the run hid the old
    model ([oldModel.visible = false]), and whether it resolved the
    promise. *)
Record Fade : Type := mkFade {
  oldOpacity : R;
  newOpacity : R;
  oldHidden : bool;
  over : bool
}.

(** The run of [animate] that happens [elapsed] ms after the start of
    [crossfade].  The last run sets the opacity of the old model to
    [1 - eased] and then, having hidden the model, back to 1. *)
Definition crossfadeFrame (elapsed duration : R) : Fade :=
  let progress := Rmin (elapsed / duration) 1 in
  let eased :=
    if Rltb progress 0.5
    then 2 * progress * progress
    else 1 - ((-2 * progress + 2) * (-2 * progress + 2)) / 2 in
  if Rltb progress 1
  then mkFade (1 - eased) eased false false
  else mkFade 1 eased true true.

(** The calls a user interface makes, and the end of a crossfade. *)
Inductive Call : Type := callNext | callPrevious | callCrossfadeDone.

Definition step (c : t) (call : Call) : t :=
  match call with
  | callNext => fst (next c)
  | callPrevious => fst (previous c)
  | callCrossfadeDone => crossfadeDone c
  end.

(** The index is inside the list and shown; a transition in progress has a
    target inside the list, and there is a target only during one. *)
Definition settled (c : t) : Prop :=
  (0 <= currentIndex c < count c)%Z
  /\ currentModel c = Some (currentIndex c)
  /\ match pending c with
     | Some index =>
         isTransitioning c = true /\ (0 <= index < count c)%Z
     | None => isTransitioning c = false
     end.

End ModelController.

(** ** The detected gesture of the state-machine pipeline *)

(** The object [GestureDetector.detect] returns: [type] and [confidence],
    and the fields the state machine and the interaction controller read,
    [deltaX], [deltaY] and [delta]; an absent field is [None]. *)
Record DetectedGesture : Type := mkGesture {
  gestureType : string;
  confidence : R;
  gestureDeltaX : option R;
  gestureDeltaY : option R;
  gestureDelta : option R
}.

(** ** GestureDetector: the poses of one hand *)

Module GestureDetector.

Definition fingerTips : list nat := [4; 8; 12; 16; 20]%nat.
Definition fingerBases : list nat := [2; 5; 9; 13; 17]%nat.

(** [{ type: "NONE", confidence: 0 }]. *)
Definition none : DetectedGesture := mkGesture "NONE" 0 None None None.

(** [isExtended] of [detectOpenPalm] for finger [i]. *)
Definition isExtended (i : nat) (tip base : Point) : bool :=
  if Nat.eqb i 0
  then Rgtb (Rabs (lm_x tip - lm_x base)) 0.05
  else Rltb (lm_y tip) (lm_y base - 0.05).

(** [isCurled] of [detectFist] for finger [i]. *)
Definition isCurled (i : nat) (tip base : Point) : bool :=
  if Nat.eqb i 0
  then Rltb (Rabs (lm_x tip - lm_x base)) 0.03
  else Rgtb (lm_y tip) (lm_y base - 0.02).

(** The counting loop of both detectors, from finger [i] on; a landmark
    missing from [hand] is a TypeError. *)
Fixpoint countFingers (test : nat -> Point -> Point -> bool)
  (hand : Landmarks) (i : nat) (tips bases : list nat) : option nat :=
  match tips, bases with
  | tipIndex :: tips', baseIndex :: bases' =>
      tip <- nth_error hand tipIndex ;;
      base <- nth_error hand baseIndex ;;
      count <- countFingers test hand (S i) tips' bases' ;;
      Some ((if test i tip base then 1 else 0) + count)%nat
  | _, _ => Some 0%nat
  end.

(** [detectOpenPalm(hand)]. *)
Definition detectOpenPalm (hand : Landmarks) : option DetectedGesture :=
  extendedCount <- countFingers isExtended hand 0 fingerTips fingerBases ;;
  if (5 <=? extendedCount)%nat
  then Some (mkGesture "OPEN_PALM" (INR extendedCount / 5) None None None)
  else Some none.

(** [detectFist(hand)]. *)
Definition detectFist (hand : Landmarks) : option DetectedGesture :=
  curledCount <- countFingers isCurled hand 0 fingerTips fingerBases ;;
  if (4 <=? curledCount)%nat
  then Some (mkGesture "FIST" (INR curledCount / 5) None None None)
  else Some none.

(** A hand with the thumb held out to the side and the four fingers
    up. *)
Definition spreadHand (x y : R) : Landmarks :=
  let at_ := mkPoint x y 0 in
  let up := mkPoint x (y - 0.1) 0 in
  [ at_; at_; at_; at_; mkPoint (x + 0.1) y 0;
    at_; at_; at_; up;
    at_; at_; at_; up;
    at_; at_; at_; up;
    at_; at_; at_; up ].

End GestureDetector.

(** ** GestureStateMachine *)

Module GestureStateMachine.

Record t : Type := mk {
  currentState : string;
  previousState : string;
  stateStartTime : Z;
  minStateDuration : Z
}.

(** [new GestureStateMachine()] at clock reading [now]. *)
Definition constructor (now : Z) : t := mk "IDLE" "IDLE" now 100.

(** [mapGestureToState(gesture)]. *)
Definition mapGestureToState (gesture : DetectedGesture) : string :=
  let type := gestureType gesture in
  if String.eqb type "NONE" || String.eqb type "IDLE" then "IDLE"
  else if String.eqb type "SWIPE_LEFT" || String.eqb type "SWIPE_RIGHT"
  then "SWITCHING"
  else if String.eqb type "ROTATE" then "ROTATING"
  else if String.eqb type "PINCH_IN" || String.eqb type "PINCH_OUT"
  then "ZOOMING"
  else if String.eqb type "OPEN_PALM" then "RESETTING"
  else if String.eqb type "FIST" then "LOCKED"
  else "IDLE".

(** [isTransitionAllowed(fromState, toState)]. *)
Definition isTransitionAllowed (fromState toState : string) : bool :=
  if String.eqb fromState "LOCKED" && negb (String.eqb toState "IDLE")
  then false
  else if String.eqb fromState "SWITCHING" then true
  else if String.eqb fromState "RESETTING" then true
  else if String.eqb fromState "ROTATING" && String.eqb toState "ZOOMING"
  then false
  else if String.eqb fromState "ZOOMING" && String.eqb toState "ROTATING"
  then false
  else true.

(** The object [update] returns ([previousState] and [timeInState], which
    only some of its branches set, are left out). *)
Record StateInfo : Type := mkInfo {
  state : string;
  changed : bool;
  blocked : bool;
  gesture : DetectedGesture
}.

(** [update(gesture)] at clock reading [now]. *)
Definition update (m : t) (now : Z) (g : DetectedGesture) : t * StateInfo :=
  let timeInState := (now - stateStartTime m)%Z in
  if (timeInState <? minStateDuration m)%Z then
    (m, mkInfo (currentState m) false false g)
  else
    let newState := mapGestureToState g in
    if isTransitionAllowed (currentState m) newState then
      let isChanged := negb (String.eqb newState (currentState m)) in
      let m1 :=
        if isChanged
        then mk newState (currentState m) now (minStateDuration m)
        else m in
      (m1, mkInfo (currentState m1) isChanged false g)
    else (m, mkInfo (currentState m) false true g).

(** [setState(newState)] at clock reading [now]. *)
Definition setState (m : t) (now : Z) (newState : string) : t :=
  mk newState (currentState m) now (minStateDuration m).

(** [isLocked()]. *)
Definition isLocked (m : t) : bool := String.eqb (currentState m) "LOCKED".

(** [reset()] at clock reading [now]. *)
Definition reset (m : t) (now : Z) : t :=
  mk "IDLE" "IDLE" now (minStateDuration m).

(** Successive calls of [update], each at its clock reading. *)
Fixpoint updates (m : t) (calls : list (Z * DetectedGesture))
  : t * list StateInfo :=
  match calls with
  | [] => (m, [])
  | (now, g) :: rest =>
      let '(m1, info) := update m now g in
      let '(m2, infos) := updates m1 rest in
      (m2, info :: infos)
  end.

End GestureStateMachine.

(** ** InteractionController *)

Module InteractionController.

(** [THREE.MathUtils.clamp(value, min, max)]. *)
Definition clamp (value min max : R) : R := Rmax min (Rmin max value).

(** [THREE.MathUtils.lerp(x, y, t)]. *)
Definition lerp (x y t : R) : R := (1 - t) * x + t * y.

Record t : Type := mk {
  modelController : ModelController.t;
  targetRotationY : R;
  currentRotationY : R;
  rotationSpeed : R;
  dampingFactor : R;
  targetZoom : R;
  currentZoom : R;
  minZoom : R;
  maxZoom : R;
  zoomSpeed : R;
  isLocked : bool
}.

(** [new InteractionController(modelController, camera)]. *)
Definition constructor (mc : ModelController.t) : t :=
  mk mc 0 0 3.0 0.1 1.0 1.0 0.5 2.5 0.5 false.

Definition set_modelController (mc : ModelController.t) (c : t) : t :=
  mk mc (targetRotationY c) (currentRotationY c) (rotationSpeed c)
    (dampingFactor c) (targetZoom c) (currentZoom c) (minZoom c) (maxZoom c)
    (zoomSpeed c) (isLocked c).

Definition set_targetRotationY (v : R) (c : t) : t :=
  mk (modelController c) v (currentRotationY c) (rotationSpeed c)
    (dampingFactor c) (targetZoom c) (currentZoom c) (minZoom c) (maxZoom c)
    (zoomSpeed c) (isLocked c).

Definition set_targetZoom (v : R) (c : t) : t :=
  mk (modelController c) (targetRotationY c) (currentRotationY c)
    (rotationSpeed c) (dampingFactor c) v (currentZoom c) (minZoom c)
    (maxZoom c) (zoomSpeed c) (isLocked c).

Definition set_current (rotationY zoom : R) (c : t) : t :=
  mk (modelController c) (targetRotationY c) rotationY (rotationSpeed c)
    (dampingFactor c) (targetZoom c) zoom (minZoom c) (maxZoom c)
    (zoomSpeed c) (isLocked c).

(** [setLocked(locked)]. *)
Definition setLocked (locked : bool) (c : t) : t :=
  mk (modelController c) (targetRotationY c) (currentRotationY c)
    (rotationSpeed c) (dampingFactor c) (targetZoom c) (currentZoom c)
    (minZoom c) (maxZoom c) (zoomSpeed c) locked.

(** [rotate(deltaX, deltaY)]. *)
Definition rotate (c : t) (deltaX deltaY : R) : t :=
  if isLocked c then c
  else set_targetRotationY (targetRotationY c + deltaX * rotationSpeed c) c.

(** [zoom(delta)]. *)
Definition zoom (c : t) (delta : R) : t :=
  if isLocked c then c
  else
    set_targetZoom
      (clamp (targetZoom c + delta * zoomSpeed c) (minZoom c) (maxZoom c)) c.

(** [handlePinch(gesture)].  A pinch without [delta] would compute with
    NaN, which is outside the model: [None]. *)
Definition handlePinch (c : t) (g : DetectedGesture) : option t :=
  if isLocked c then Some c
  else
    if String.eqb (gestureType g) "PINCH_IN"
       || String.eqb (gestureType g) "PINCH_OUT"
    then
      delta <- gestureDelta g ;;
      Some (zoom c (delta * 2.0))
    else Some c.

(** [reset()]; resetting the rotation of the model object is left to the
    renderer. *)
Definition reset (c : t) : t :=
  mk (modelController c) 0 0 (rotationSpeed c) (dampingFactor c) 1.0 1.0
    (minZoom c) (maxZoom c) (zoomSpeed c) (isLocked c).

(** [update()]: [sizeY] is the height of the bounding box of the current
    model, [None] when there is no current model.  The result carries the
    [z] coordinate given to the camera. *)
Definition update (c : t) (sizeY : option R) : t * option R :=
  match sizeY with
  | None => (c, None)
  | Some height =>
      let rotationY :=
        lerp (currentRotationY c) (targetRotationY c) (dampingFactor c) in
      let currentZoom' :=
        lerp (currentZoom c) (targetZoom c) (dampingFactor c) in
      (set_current rotationY currentZoom' c,
       Some (height * 1.8 / currentZoom'))
  end.

(** The controller after a call of [next] or [previous] of its model
    controller; an exception thrown there leaves [processGesture]. *)
Definition afterSwitch (c : t)
  (result : ModelController.t * ModelController.Outcome) : option t :=
  match snd result with
  | ModelController.threw => None
  | _ => Some (set_modelController (fst result) c)
  end.

(** [processGesture(stateInfo)]. *)
Definition processGesture (c : t) (info : GestureStateMachine.StateInfo)
  : option t :=
  let state := GestureStateMachine.state info in
  let g := GestureStateMachine.gesture info in
  if String.eqb state "ROTATING" then
    match gestureDeltaX g with
    | Some deltaX =>
        Some (rotate c deltaX
                (match gestureDeltaY g with Some dy => dy | None => 0 end))
    | None => Some c
    end
  else if String.eqb state "ZOOMING" then handlePinch c g
  else if String.eqb state "SWITCHING" then
    if String.eqb (gestureType g) "SWIPE_RIGHT"
    then afterSwitch c (ModelController.next (modelController c))
    else if String.eqb (gestureType g) "SWIPE_LEFT"
    then afterSwitch c (ModelController.previous (modelController c))
    else Some c
  else if String.eqb state "RESETTING" then Some (reset c)
  else if String.eqb state "LOCKED" then Some (setLocked true c)
  else if String.eqb state "IDLE" then Some (setLocked false c)
  else Some c.

(** Successive calls of [processGesture]. *)
Fixpoint processGestures (c : t) (infos : list GestureStateMachine.StateInfo)
  : option t :=
  match infos with
  | [] => Some c
  | info :: rest =>
      c1 <- processGesture c info ;;
      processGestures c1 rest
  end.

(** The state machine feeding the controller: each detected gesture is
    passed through [GestureStateMachine.update] and the answer through
    [processGesture]. *)
Fixpoint pipeline (m : GestureStateMachine.t) (c : t)
  (calls : list (Z * DetectedGesture)) : option (GestureStateMachine.t * t) :=
  match calls with
  | [] => Some (m, c)
  | (now, g) :: rest =>
      let '(m1, info) := GestureStateMachine.update m now g in
      c1 <- processGesture c info ;;
      pipeline m1 c1 rest
  end.

(** [n] animation frames: [update] called [n] times on a model of height
    [sizeY]. *)
Definition frames (n : nat) (sizeY : R) (c : t) : t :=
  Nat.iter n (fun c' => fst (update c' (Some sizeY))) c.

End InteractionController.

(** ** ModelManager.extractVertices: surface sampling *)

Module ExtractVertices.

(** The areas of the triangles kept for sampling: those with [area > 0],
    in traversal order. *)
Definition keptAreas (areas : list R) : list R :=
  filter (fun area => Rgtb area 0) areas.

(** [totalArea], accumulated while the triangles are collected. *)
Definition totalArea (areas : list R) : R :=
  fold_left Rplus (keptAreas areas) 0.

(** The loop that fills [cdf], entered with [cumulativeArea]. *)
Fixpoint cdfFrom (kept : list R) (cumulativeArea total : R) : list R :=
  match kept with
  | [] => []
  | area :: rest =>
      let cumulativeArea' := cumulativeArea + area in
      cumulativeArea' / total :: cdfFrom rest cumulativeArea' total
  end.

(** [cdf] for the triangles of the given areas. *)
Definition buildCdf (areas : list R) : list R :=
  cdfFrom (keptAreas areas) 0 (totalArea areas).

(** [n >>> 1] on a Number holding the integer [n]. *)
Definition ushr1 (n : Z) : Z := Z.shiftr (n mod 2 ^ 32) 1.

(** [cdf[mid] < r]; the comparison with [undefined] is false. *)
Definition cdfBelow (cdf : list R) (mid : Z) (r : R) : bool :=
  if (mid <? 0)%Z then false
  else
    match nth_error cdf (Z.to_nat mid) with
    | Some c => Rltb c r
    | None => false
    end.

(** The [while (low <= high)] loop of the binary search; [None] when
    [fuel] iterations do not finish it. *)
Fixpoint searchLoop (fuel : nat) (cdf : list R) (r : R)
  (low high meshIndex : Z) : option Z :=
  match fuel with
  | O => None
  | S fuel' =>
      if (low <=? high)%Z then
        let mid := ushr1 (low + high) in
        if cdfBelow cdf mid r
        then searchLoop fuel' cdf r (mid + 1) high meshIndex
        else searchLoop fuel' cdf r low (mid - 1) mid
      else Some meshIndex
  end.

(** The triangle selected for the random number [r]. *)
Definition selectTriangle (fuel : nat) (cdf : list R) (r : R) : option Z :=
  let high := (Z.of_nat (List.length cdf) - 1)%Z in
  searchLoop fuel cdf r 0 high high.

(** A bound of the bounding box; [None] is the infinity it starts at. *)
Definition lower (x : R) (min : option R) : option R :=
  match min with
  | None => Some x
  | Some m => if Rltb x m then Some x else Some m
  end.

Definition upper (x : R) (max : option R) : option R :=
  match max with
  | None => Some x
  | Some m => if Rgtb x m then Some x else Some m
  end.

Record Box : Type := mkBox {
  minX : option R; minY : option R; minZ : option R;
  maxX : option R; maxY : option R; maxZ : option R
}.

Definition emptyBox : Box := mkBox None None None None None None.

(** One iteration of the bounding-box loop. *)
Definition grow (b : Box) (p : Point) : Box :=
  mkBox (lower (lm_x p) (minX b)) (lower (lm_y p) (minY b))
    (lower (lm_z p) (minZ b)) (upper (lm_x p) (maxX b))
    (upper (lm_y p) (maxY b)) (upper (lm_z p) (maxZ b)).

Definition boundingBox (points : list Point) : Box :=
  fold_left grow points emptyBox.

(** [maxDim || 1]. *)
Definition orOne (maxDim : R) : R :=
  if Req_dec_T maxDim 0 then 1 else maxDim.

(** Step 4 of [extractVertices]: centre the sampled points and scale them.
    Without points the bounds stay infinite and the centre is NaN, which
    is outside the model: [None]. *)
Definition normalize (points : list Point) : option (list Point) :=
  let b := boundingBox points in
  minX <- minX b ;; minY <- minY b ;; minZ <- minZ b ;;
  maxX <- maxX b ;; maxY <- maxY b ;; maxZ <- maxZ b ;;
  let centerX := (minX + maxX) / 2 in
  let centerY := (minY + maxY) / 2 in
  let centerZ := (minZ + maxZ) / 2 in
  let maxDim := Rmax (Rmax (maxX - minX) (maxY - minY)) (maxZ - minZ) in
  let scale := 2.5 / orOne maxDim in
  Some (map (fun p => mkPoint ((lm_x p - centerX) * scale)
                        ((lm_y p - centerY) * scale)
                        ((lm_z p - centerZ) * scale)) points).

End ExtractVertices.

(** ** Properties of the state-machine pipeline and of the sampler *)

(** The zoom limits are never written, and the zoom target stays between
    them. *)
Definition zoomInv (c : InteractionController.t) : Prop :=
  InteractionController.minZoom c = 0.5
  /\ InteractionController.maxZoom c = 2.5
  /\ 0.5 <= InteractionController.targetZoom c <= 2.5.

(** The entry of [cdf] at a position inside it. *)
Definition cdfAt (cdf : list R) (i : Z) : option R :=
  nth_error cdf (Z.to_nat i).

Definition nondecreasing (cdf : list R) : Prop :=
  forall (i j : nat) (x y : R),
    (i <= j)%nat -> nth_error cdf i = Some x -> nth_error cdf j = Some y ->
    x <= y.

(** What the binary search answers: an index inside [cdf] with every entry
    before it below [r], whose own entry is not below [r] unless all
    entries are (and then it is the last index). *)
Definition selected (cdf : list R) (r : R) (i : Z) : Prop :=
  (0 <= i < Z.of_nat (List.length cdf))%Z
  /\ (forall j x, (0 <= j < i)%Z -> cdfAt cdf j = Some x -> x < r)
  /\ ((exists x, cdfAt cdf i = Some x /\ r <= x)
      \/ (i = (Z.of_nat (List.length cdf) - 1)%Z
          /\ forall j x, cdfAt cdf j = Some x -> (0 <= j)%Z -> x < r)).

(** The bounds of one coordinate over the points. *)
Definition lowerAll (f : Point -> R) (points : list Point) (min : option R)
  : option R :=
  fold_left (fun m p => ExtractVertices.lower (f p) m) points min.

Definition upperAll (f : Point -> R) (points : list Point) (max : option R)
  : option R :=
  fold_left (fun m p => ExtractVertices.upper (f p) m) points max.

(** ** Basic facts *)

Arguments Rltb : simpl never.
Arguments Rgtb : simpl never.
Arguments hypot : simpl never.


Lemma Rltb_true (a b : R) : a < b -> Rltb a b = true.
Proof. intros H. unfold Rltb. destruct (Rlt_dec a b); [reflexivity | tauto]. Qed.

Lemma Rltb_false (a b : R) : b <= a -> Rltb a b = false.
Proof. intros H. unfold Rltb. destruct (Rlt_dec a b); [lra | reflexivity]. Qed.

Lemma Rgtb_true (a b : R) : b < a -> Rgtb a b = true.
Proof. intros H. unfold Rgtb. destruct (Rgt_dec a b); [reflexivity | lra]. Qed.

Lemma Rgtb_false (a b : R) : a <= b -> Rgtb a b = false.
Proof. intros H. unfold Rgtb. destruct (Rgt_dec a b); [lra | reflexivity]. Qed.

Lemma Rgtb_spec (a b : R) : reflect (a > b) (Rgtb a b).
Proof. unfold Rgtb. destruct (Rgt_dec a b); constructor; assumption. Qed.

Lemma Rltb_spec (a b : R) : reflect (a < b) (Rltb a b).
Proof. unfold Rltb. destruct (Rlt_dec a b); constructor; assumption. Qed.

Lemma hypot_nonneg (a b : R) : 0 <= hypot a b.
Proof. apply sqrt_pos. Qed.

Lemma hypot_axis (a : R) : hypot a 0 = Rabs a.
Proof.
  unfold hypot. replace (a * a + 0 * 0) with (Rsqr a) by (unfold Rsqr; ring).
  apply sqrt_Rsqr_abs.
Qed.

Lemma hypot_same (x y : R) : hypot (x - x) (y - y) = 0.
Proof.
  unfold hypot. replace ((x - x) * (x - x) + (y - y) * (y - y)) with 0 by ring.
  apply sqrt_0.
Qed.

Lemma clamp_max_min (x lo hi : R) :
  lo <= hi -> Rmax lo (Rmin hi x) = clamp x lo hi.
Proof.
  intros H. unfold clamp.
  destruct (Rltb_spec x lo), (Rgtb_spec x hi);
    unfold Rmax, Rmin;
    repeat (destruct (Rle_dec _ _)); lra.
Qed.

(** ** Pose classifier *)

(** C3, as stated, fails: with the middle finger alone extended the
    classifier answers Point, where the priority list of the specification
    ends in Unknown. *)
Lemma C3_classify_counterexample :
  classify [false; false; true; false; false] = point
  /\ classify_spec false false true false false = unknown.
Proof. split; reflexivity. Qed.

(** C3, amended: for every assignment of the five finger-extension
    booleans, the classifier returns Palm iff E >= 4; else Victory iff index
    and middle are extended and ring and pinky are not; else Fist iff E = 0,
    or E = 1 with only the thumb; else Point iff the index is extended or
    E = 1; otherwise Unknown. *)
Theorem C3_classify_priority (thumb index middle ring pinky : bool) :
  classify [thumb; index; middle; ring; pinky]
  = classify_code thumb index middle ring pinky.
Proof. destruct thumb, index, middle, ring, pinky; reflexivity. Qed.

(** The classifier and the specification agree whenever it is not the case
    that exactly one of middle, ring and little finger is extended alone. *)
Lemma classify_spec_agrees (thumb index middle ring pinky : bool) :
  classify [thumb; index; middle; ring; pinky]
  <> classify_spec thumb index middle ring pinky ->
  thumb = false /\ index = false
  /\ extendedDigits thumb index middle ring pinky = 1%nat.
Proof.
  destruct thumb, index, middle, ring, pinky; cbn; intros H;
    try (exfalso; apply H; reflexivity); auto.
Qed.

(** ** Centres of the sample hands *)

Lemma getHandCenter_poseHand (x y dx : R) (thumb index middle ring pinky : bool) :
  let tipY := fun (extended : bool) => if extended then y - 0.1 else y + 0.1 in
  getHandCenter (poseHand x y dx thumb index middle ring pinky)
  = ((21 * x + dx) / 21,
     (16 * y + tipY thumb + tipY index + tipY middle + tipY ring + tipY pinky)
     / 21).
Proof.
  unfold getHandCenter, poseHand.
  replace (INR (List.length _)) with 21 by (cbn [List.length]; rewrite INR_IZR_INZ; reflexivity).
  cbn [fold_left lm_x lm_y]. f_equal; lra.
Qed.

(** Two sample hands at the same height and in the same pose are as far
    apart as their [x] coordinates. *)
Lemma centerDistance_poseHand (x1 x2 y : R) (thumb index middle ring pinky : bool) :
  centerDistance (poseHand x1 y 0 thumb index middle ring pinky)
                 (poseHand x2 y 0 thumb index middle ring pinky)
  = Rabs (x1 - x2).
Proof.
  unfold centerDistance. rewrite !getHandCenter_poseHand. cbn [fst snd].
  rewrite <- hypot_axis. f_equal; lra.
Qed.

(** ** Two-hand branch *)

Lemma handleTwoHandGestures_baseline (e : GestureEngine)
  (hand1 hand2 : Landmarks) (rest : list Landmarks) :
  exists e1 evs,
    handleTwoHandGestures e (hand1 :: hand2 :: rest) = Some (e1, evs)
    /\ pinchStartDistance e1 = Some (centerDistance hand1 hand2).
Proof.
  unfold handleTwoHandGestures.
  destruct (pinchStartDistance e); eexists; eexists; split; reflexivity.
Qed.

(** C1: for two consecutive frames of the two-hand pinch branch with
    inter-hand centroid distances d0 > 0 then d1, the second frame emits
    Zoom with scaleFactor 1 + (clamp(d1/d0, 0.85, 1.15) - 1) * 1.5 when that
    value is more than 0.0005 away from 1, emits nothing otherwise, and the
    baseline becomes d1 in either case. *)
Theorem C1_zoom_ratio (e : GestureEngine) (a1 a2 b1 b2 : Landmarks)
  (ra rb : list Landmarks) :
  let d0 := centerDistance a1 a2 in
  let d1 := centerDistance b1 b2 in
  d0 > 0 ->
  exists e1 evs1 e2 evs2,
    handleTwoHandGestures e (a1 :: a2 :: ra) = Some (e1, evs1)
    /\ handleTwoHandGestures e1 (b1 :: b2 :: rb) = Some (e2, evs2)
    /\ (Rabs (zoomFactor d0 d1 - 1) > 0.0005 ->
        evs2 = [Zoom (zoomFactor d0 d1)])
    /\ (Rabs (zoomFactor d0 d1 - 1) <= 0.0005 -> evs2 = [])
    /\ pinchStartDistance e2 = Some d1.
Proof.
  intros d0 d1 Hd0.
  destruct (handleTwoHandGestures_baseline e a1 a2 ra) as (e1 & evs1 & H1 & Hb).
  exists e1, evs1. rewrite H1.
  unfold handleTwoHandGestures at 1. rewrite Hb. fold d0 d1.
  do 2 eexists. split; [reflexivity|]. split; [reflexivity|].
  rewrite (Rgtb_true d0 0) by lra.
  rewrite clamp_max_min by lra. fold (zoomFactor d0 d1).
  replace (zoomFactor d0 d1 - 1.0) with (zoomFactor d0 d1 - 1) by lra.
  destruct (Rgtb_spec (Rabs (zoomFactor d0 d1 - 1)) 0.0005) as [Hgt | Hle].
  - split; [reflexivity | split; [intros; lra | reflexivity]].
  - split; [intros; lra | split; reflexivity].
Qed.

(** Two hands 0.4 apart, then 0.44 apart: a zoom by 1.15. *)
Lemma C1_zoom_ratio_witness :
  exists e1 evs1 e2 evs2,
    handleTwoHandGestures constructor
      [poseHand 0.3 0.5 0 false false false false false;
       poseHand 0.7 0.5 0 false false false false false] = Some (e1, evs1)
    /\ handleTwoHandGestures e1
      [poseHand 0.3 0.5 0 false false false false false;
       poseHand 0.74 0.5 0 false false false false false] = Some (e2, evs2)
    /\ evs2 = [Zoom (zoomFactor 0.4 0.44)].
Proof.
  destruct (C1_zoom_ratio constructor
              (poseHand 0.3 0.5 0 false false false false false)
              (poseHand 0.7 0.5 0 false false false false false)
              (poseHand 0.3 0.5 0 false false false false false)
              (poseHand 0.74 0.5 0 false false false false false) [] [])
    as (e1 & evs1 & e2 & evs2 & H1 & H2 & Hz & _ & _).
  - rewrite centerDistance_poseHand. rewrite Rabs_left by lra. lra.
  - exists e1, evs1, e2, evs2. split; [exact H1|]. split; [exact H2|].
    rewrite !centerDistance_poseHand in Hz.
    replace (Rabs (0.3 - 0.7)) with 0.4 in Hz by (rewrite Rabs_left by lra; lra).
    replace (Rabs (0.3 - 0.74)) with 0.44 in Hz by (rewrite Rabs_left by lra; lra).
    apply Hz. unfold zoomFactor, clamp.
    rewrite Rltb_false by lra. rewrite Rgtb_false by lra.
    rewrite Rabs_pos_eq by lra. lra.
Defined.

(** ** Landmark access and classification are defined on 21 landmarks *)

Lemma nth_error_defined (landmarks : Landmarks) (i : nat) :
  (i < List.length landmarks)%nat -> exists p, nth_error landmarks i = Some p.
Proof.
  intros H. destruct (nth_error landmarks i) eqn:E; [eauto|].
  apply nth_error_None in E. lia.
Qed.

Lemma getFingerStates_defined (landmarks : Landmarks) :
  (21 <= List.length landmarks)%nat ->
  exists thumb index middle ring pinky,
    getFingerStates landmarks = Some [thumb; index; middle; ring; pinky].
Proof.
  intros H. unfold getFingerStates, imapM, fingerTips, fingerPips.
  cbn [imapM_from nth].
  repeat match goal with
         | |- context [nth_error landmarks ?i] =>
             let p := fresh "p" in
             let E := fresh "E" in
             destruct (nth_error_defined landmarks i) as [p E]; [lia|];
             rewrite E; clear E
         end.
  cbn [bind]. do 5 eexists. reflexivity.
Qed.

Lemma detectGesture_defined (landmarks : Landmarks) :
  (21 <= List.length landmarks)%nat ->
  exists g, detectGesture landmarks = Some g.
Proof.
  intros H. unfold detectGesture.
  destruct (getFingerStates_defined landmarks H) as (t & i & m & r & p & E).
  rewrite E. cbn [bind]. eauto.
Qed.

Lemma detectGesture_length (landmarks : Landmarks) (g : Gesture) :
  detectGesture landmarks = Some g -> (21 <= List.length landmarks)%nat.
Proof.
  unfold detectGesture, getFingerStates, imapM, fingerTips, fingerPips.
  cbn [imapM_from nth]. intros H.
  destruct (nth_error landmarks 20) eqn:E20.
  - assert (nth_error landmarks 20 <> None) as Hn by congruence.
    apply nth_error_Some in Hn. lia.
  - exfalso.
    repeat match type of H with
           | context [bind (nth_error landmarks ?i)] =>
               destruct (nth_error landmarks i); cbn [bind] in H;
               [|discriminate H]
           end.
    discriminate H.
Qed.

Lemma detectGesture_poseHand (x y dx : R) (thumb index middle ring pinky : bool) :
  detectGesture (poseHand x y dx thumb index middle ring pinky)
  = Some (classify [thumb; index; middle; ring; pinky]).
Proof.
  unfold detectGesture, getFingerStates, imapM, fingerTips, fingerPips, poseHand,
    tolerance.
  cbn [imapM_from nth nth_error bind lm_y].
  replace (Rltb (if thumb then y - 0.1 else y + 0.1) (y + 0.02)) with thumb
    by (destruct thumb; [rewrite Rltb_true | rewrite Rltb_false]; lra).
  replace (Rltb (if index then y - 0.1 else y + 0.1) (y + 0.02)) with index
    by (destruct index; [rewrite Rltb_true | rewrite Rltb_false]; lra).
  replace (Rltb (if middle then y - 0.1 else y + 0.1) (y + 0.02)) with middle
    by (destruct middle; [rewrite Rltb_true | rewrite Rltb_false]; lra).
  replace (Rltb (if ring then y - 0.1 else y + 0.1) (y + 0.02)) with ring
    by (destruct ring; [rewrite Rltb_true | rewrite Rltb_false]; lra).
  replace (Rltb (if pinky then y - 0.1 else y + 0.1) (y + 0.02)) with pinky
    by (destruct pinky; [rewrite Rltb_true | rewrite Rltb_false]; lra).
  reflexivity.
Qed.

(** On a hand of 21 landmarks the classifier is applied to the five
    extension tests: thumb 4/3, index 8/6, middle 12/10, ring 16/14, little
    finger 20/18. *)
Lemma detectGesture_extendedAt (landmarks : Landmarks) :
  (21 <= List.length landmarks)%nat ->
  detectGesture landmarks
  = Some (classify [ extendedAt landmarks 4 3; extendedAt landmarks 8 6;
                     extendedAt landmarks 12 10; extendedAt landmarks 16 14;
                     extendedAt landmarks 20 18 ]).
Proof.
  intros H. unfold detectGesture, getFingerStates, imapM, fingerTips, fingerPips.
  cbn [imapM_from nth].
  repeat match goal with
         | |- context [nth_error landmarks ?i] =>
             rewrite (nth_error_nth' landmarks (mkPoint 0 0 0) (n := i)) by lia
         end.
  reflexivity.
Qed.

Lemma poseHand_length (x y dx : R) (thumb index middle ring pinky : bool) :
  List.length (poseHand x y dx thumb index middle ring pinky) = 21%nat.
Proof. reflexivity. Qed.

(** ** The dispatch of [processFrame] *)

Lemma processFrame_route (e : GestureEngine) (now : Z) (results : Results) :
  processFrame e now results
  = match route results with
    | NoHands => Some (resetState e)
    | SingleHand landmarks => handleSingleHandGestures e now landmarks
    | TwoHands hands => handleTwoHandGestures e hands
    end.
Proof.
  unfold processFrame, route.
  destruct (multiHandLandmarks results) as [|hand1 [|hand2 rest]];
    try reflexivity.
  destruct (Rltb (centerDistance hand1 hand2) 0.12); [reflexivity|].
  destruct (_ && _); reflexivity.
Qed.

Lemma route_TwoHands (results : Results) (hands : list Landmarks) :
  route results = TwoHands hands ->
  exists hand1 hand2 rest, hands = hand1 :: hand2 :: rest.
Proof.
  unfold route.
  destruct (multiHandLandmarks results) as [|hand1 [|hand2 rest]];
    try discriminate.
  destruct (Rltb _ _); [discriminate|].
  destruct (_ && _); [|discriminate].
  intros H. injection H as <-. eauto.
Qed.

Lemma route_SingleHand_wellFormed (results : Results) (landmarks : Landmarks) :
  wellFormed results -> route results = SingleHand landmarks ->
  List.length landmarks = 21%nat.
Proof.
  unfold wellFormed, route. intros Hwf.
  destruct (multiHandLandmarks results) as [|hand1 [|hand2 rest]];
    try discriminate.
  - intros H. injection H as <-. inversion Hwf; assumption.
  - destruct (Rltb _ _).
    + intros H. injection H as <-. inversion Hwf; assumption.
    + destruct (_ && _); [discriminate|].
      intros H. injection H as <-. inversion Hwf; assumption.
Qed.

(** ** Case analysis on the handlers *)

Ltac break_if :=
  match goal with
  | |- context [if ?b then _ else _] => destruct b eqn:?
  | |- context [match ?x with _ => _ end] => destruct x eqn:?
  | H : context [if ?b then _ else _] |- _ => destruct b eqn:?
  | H : context [match ?x with _ => _ end] |- _ => destruct x eqn:?
  end.

Ltac some_inv :=
  repeat match goal with
         | H : Some _ = Some _ |- _ => injection H as ?; subst
         | H : (_, _) = (_, _) |- _ => injection H as ?; subst
         | H : None = Some _ |- _ => discriminate H
         | H : bind ?o _ = Some _ |- _ =>
             destruct o eqn:?; cbn [bind] in H
         end.

Ltac crush_cases := repeat first [progress some_inv | break_if].

Ltac locked_contra :=
  match goal with
  | H : State_eqb ?s locked = true |- _ =>
      exfalso; destruct s; cbn in *; (discriminate || congruence)
  end.

Lemma State_eqb_eq (a b : State) : State_eqb a b = true <-> a = b.
Proof. destruct a, b; cbn; split; congruence. Qed.

Lemma State_eqb_neq (a b : State) : State_eqb a b = false <-> a <> b.
Proof. destruct a, b; cbn; split; congruence. Qed.

Lemma resetState_unlocked (e : GestureEngine) :
  state e <> locked ->
  resetState e
  = (set_gestureStartTime None
       (set_pinchStartDistance None
          (set_lastHandPosition None (set_state idle e))), []).
Proof.
  intros H. unfold resetState. apply State_eqb_neq in H. rewrite H. reflexivity.
Qed.

Lemma palmStep_unlocked (e e' : GestureEngine) (now : Z) (evs : list Event) :
  palmStep e now = (e', evs) -> state e <> locked ->
  state e' <> locked /\ noLock evs.
Proof.
  unfold palmStep. intros H Hs.
  repeat break_if; some_inv; cbn; try (split; [assumption | constructor]).
  all: rewrite resetState_unlocked in * by (destruct (truthy _); assumption).
  all: some_inv; cbn; split; [discriminate | repeat constructor].
Qed.

Lemma rotateStep_unlocked (e e' : GestureEngine) (now : Z) (tip : Point)
  (evs : list Event) :
  rotateStep e now tip = (e', evs) -> state e <> locked ->
  state e' <> locked /\ noLock evs.
Proof.
  unfold rotateStep, resetState. intros H Hs.
  repeat break_if; some_inv; cbn in *; try locked_contra;
    split; try discriminate; try assumption; repeat constructor.
Qed.

Lemma switchStep_unlocked (e e' : GestureEngine) (now : Z) (g : Gesture)
  (landmarks : Landmarks) (evs : list Event) :
  switchStep e now g landmarks = Some (Some (e', evs)) -> state e <> locked ->
  state e' <> locked /\ noLock evs.
Proof.
  unfold switchStep. intros H Hs.
  crush_cases; try discriminate; cbn -[nth_error] in *;
    split; try discriminate; try assumption; repeat constructor.
Qed.

Lemma handleSingleHandGestures_unlocked (e e' : GestureEngine) (now : Z)
  (landmarks : Landmarks) (evs : list Event) :
  handleSingleHandGestures e now landmarks = Some (e', evs) ->
  state e <> locked ->
  state e' <> locked /\ noLock evs.
Proof.
  unfold handleSingleHandGestures. intros H Hs.
  destruct (_ && _).
  { some_inv. split; [assumption | constructor]. }
  destruct (detectGesture landmarks) as [g|]; cbn [bind] in H; [|discriminate].
  assert (state (set_palmStartTime None e) <> locked) as Hs1 by exact Hs.
  destruct g;
    try (injection H as H; eapply palmStep_unlocked; eassumption).
  all: destruct (switchStep _ _ _ _) as [[[e1 evs1]|]|] eqn:Esw;
    cbn [bind] in H; try discriminate.
  all: try (injection H as <- <-; eapply switchStep_unlocked; eassumption).
  all: cbn [isFistOrPoint] in H.
  all: try (destruct (nth_error landmarks 8); cbn [bind] in H;
            [injection H as H; eapply rotateStep_unlocked; eassumption
            | discriminate]).
  all: rewrite resetState_unlocked in H by assumption;
    injection H as <- <-; cbn; split; [discriminate | constructor].
Qed.

Lemma handleTwoHandGestures_unlocked (e e' : GestureEngine)
  (hands : list Landmarks) (evs : list Event) :
  handleTwoHandGestures e hands = Some (e', evs) ->
  state e <> locked ->
  state e' <> locked /\ noLock evs.
Proof.
  unfold handleTwoHandGestures. intros H Hs.
  repeat break_if; some_inv; try discriminate; cbn in *;
    split; try discriminate; try assumption; repeat constructor.
Qed.

Lemma processFrame_unlocked (e e' : GestureEngine) (now : Z)
  (results : Results) (evs : list Event) :
  processFrame e now results = Some (e', evs) ->
  state e <> locked ->
  state e' <> locked /\ noLock evs.
Proof.
  rewrite processFrame_route. intros H Hs.
  destruct (route results).
  - rewrite resetState_unlocked in H by assumption.
    injection H as <- <-. cbn. split; [discriminate | constructor].
  - eapply handleSingleHandGestures_unlocked; eassumption.
  - eapply handleTwoHandGestures_unlocked; eassumption.
Qed.

Lemma run_unlocked (frames : list (Z * Results)) :
  forall (e e' : GestureEngine) (evs : list Event),
    run e frames = Some (e', evs) ->
    state e <> locked ->
    state e' <> locked /\ noLock evs.
Proof.
  induction frames as [|[now results] rest IH]; intros e e' evs H Hs.
  - cbn in H. injection H as <- <-. split; [assumption | constructor].
  - cbn [run] in H.
    destruct (processFrame e now results) as [[e1 evs1]|] eqn:E1;
      cbn [bind] in H; [|discriminate].
    destruct (run e1 rest) as [[e2 evs2]|] eqn:E2;
      cbn [bind] in H; [|discriminate].
    injection H as <- <-.
    destruct (processFrame_unlocked _ _ _ _ _ E1 Hs) as [Hs1 Hq1].
    destruct (IH _ _ _ E2 Hs1) as [Hs2 Hq2].
    split; [assumption | apply Forall_app; split; assumption].
Qed.

(** C10: starting from the initial state, no input sequence brings the
    engine into the state locked, and no lock or unlock event is ever
    emitted (the unlock branch of resetState is never taken). *)
Theorem C10_never_locked (frames : list (Z * Results)) (e : GestureEngine)
  (evs : list Event) :
  run constructor frames = Some (e, evs) ->
  state e <> locked /\ ~ In Lock evs /\ ~ In Unlock evs.
Proof.
  intros H.
  destruct (run_unlocked frames constructor e evs H) as [Hs Hq];
    [discriminate|].
  split; [assumption|].
  unfold noLock in Hq. rewrite Forall_forall in Hq.
  split; intros Hin; apply Hq in Hin; discriminate Hin.
Qed.

(** ** Evaluating the handlers on sample frames *)

Lemma Rgtb_hypot_true (a b c : R) :
  0 <= c -> c * c < a * a + b * b -> Rgtb (hypot a b) c = true.
Proof.
  intros Hc H. apply Rgtb_true. unfold hypot.
  rewrite <- (sqrt_square c) by assumption.
  apply sqrt_lt_1_alt. split; [nra | assumption].
Qed.

Lemma Rgtb_hypot_false (a b c : R) :
  0 <= c -> a * a + b * b <= c * c -> Rgtb (hypot a b) c = false.
Proof.
  intros Hc H. apply Rgtb_false. unfold hypot.
  rewrite <- (sqrt_square c) by assumption.
  apply sqrt_le_1_alt. assumption.
Qed.

Lemma Rltb_hypot_true (a b c : R) :
  0 <= c -> a * a + b * b < c * c -> Rltb (hypot a b) c = true.
Proof.
  intros Hc H. apply Rltb_true. unfold hypot.
  rewrite <- (sqrt_square c) by assumption.
  apply sqrt_lt_1_alt. split; [nra | assumption].
Qed.

Lemma Rltb_hypot_false (a b c : R) :
  0 <= c -> c * c <= a * a + b * b -> Rltb (hypot a b) c = false.
Proof.
  intros Hc H. apply Rltb_false. unfold hypot.
  rewrite <- (sqrt_square c) by assumption.
  apply sqrt_le_1_alt. assumption.
Qed.

(** Decides the comparisons of real constants met while a handler runs on
    a sample frame. *)
Ltac rcompare :=
  repeat first
    [ rewrite Rgtb_hypot_true by lra
    | rewrite Rgtb_hypot_false by lra
    | rewrite Rltb_hypot_true by lra
    | rewrite Rltb_hypot_false by lra
    | rewrite Rabs_pos_eq by lra
    | rewrite Rabs_left by lra
    | rewrite Rltb_true by lra
    | rewrite Rltb_false by lra
    | rewrite Rgtb_true by lra
    | rewrite Rgtb_false by lra ].

Lemma handleSingleHandGestures_poseHand (e : GestureEngine) (now : Z)
  (x y dx : R) (thumb index middle ring pinky : bool) :
  swipeCooldownTimestamp e = None ->
  handleSingleHandGestures e now (poseHand x y dx thumb index middle ring pinky)
  = match classify [thumb; index; middle; ring; pinky] with
    | palm => Some (palmStep e now)
    | g =>
        let e1 := set_palmStartTime None e in
        switched <- switchStep e1 now g
                      (poseHand x y dx thumb index middle ring pinky) ;;
        match switched with
        | Some result => Some result
        | None =>
            if isFistOrPoint g then
              Some (rotateStep e1 now
                      (mkPoint (x + dx) (if index then y - 0.1 else y + 0.1) 0))
            else Some (resetState e1)
        end
    end.
Proof.
  intros H. unfold handleSingleHandGestures. rewrite H. cbn [truthy andb].
  rewrite detectGesture_poseHand. cbn [bind].
  destruct (classify _); reflexivity.
Qed.

Lemma run_cons (e e1 : GestureEngine) (now : Z) (results : Results)
  (evs1 : list Event) (rest : list (Z * Results)) :
  processFrame e now results = Some (e1, evs1) ->
  run e ((now, results) :: rest)
  = ('(e2, evs2) <- run e1 rest ;; Some (e2, evs1 ++ evs2)).
Proof. intros H. cbn [run]. rewrite H. reflexivity. Qed.

(** Runs [processFrame] on a sample frame, leaving the real numbers alone. *)
Ltac eval_handler :=
  repeat (cbv -[Rplus Rminus Rmult Rdiv Rinv Ropp IZR Rltb Rgtb Rabs Rmax Rmin
                hypot centerDistance sqrt];
          rcompare).

Ltac eval_includes :=
  repeat match goal with
         | |- context [includes ?s ?l] =>
             let v := eval vm_compute in (includes s l) in
             change (includes s l) with v
         end.

Ltac eval_frame :=
  rewrite processFrame_route;
  cbv [route oneHand twoHands noHands multiHandLandmarks multiHandedness map
       label];
  rewrite ?centerDistance_poseHand; rcompare;
  eval_includes; cbv [orb andb];
  cbv [handleTwoHandGestures];
  rewrite ?centerDistance_poseHand;
  eval_handler; reflexivity.

Ltac eval_run :=
  repeat (erewrite run_cons; [| eval_frame]);
  cbn [run bind app].

(** ** What one frame can change *)

Lemma horizontalb_spec (landmarks : Landmarks) (mcp tip : Point) :
  nth_error landmarks 5 = Some mcp ->
  nth_error landmarks 8 = Some tip ->
  horizontalb mcp tip = true <-> horizontal landmarks.
Proof.
  intros H5 H8. unfold horizontalb, horizontal. split.
  - intros H. apply andb_true_iff in H as [H1 H2].
    exists mcp, tip. repeat split; try assumption.
    + destruct (Rgtb_spec (Rabs (lm_x tip - lm_x mcp))
                  (Rabs (lm_y tip - lm_y mcp) * 0.8)); [assumption|discriminate].
    + destruct (Rgtb_spec (Rabs (lm_x tip - lm_x mcp)) 0.04);
        [assumption|discriminate].
  - intros (mcp' & tip' & E5 & E8 & H1 & H2).
    rewrite H5 in E5. rewrite H8 in E8.
    injection E5 as <-. injection E8 as <-.
    apply andb_true_iff. split; apply Rgtb_true; lra.
Qed.

Lemma switchStep_fold (e : GestureEngine) (now : Z) (landmarks : Landmarks) :
  switchStep e now point landmarks
  = (mcp <- nth_error landmarks 5 ;;
     tip <- nth_error landmarks 8 ;;
     if horizontalb mcp tip then
       if negb (truthy (switchCooldown e))
          || (now - toNumber (switchCooldown e) >? 1200)%Z
       then
         Some (Some (set_state switching (set_switchCooldown (Some now) e),
                     [Swipe (if Rgtb (lm_x tip - lm_x mcp) 0
                             then RIGHT else LEFT)]))
       else Some (Some (e, []))
     else Some None).
Proof. reflexivity. Qed.

(** The fields no handler writes, and the events a handler cannot emit. *)
Lemma rotateStep_frame (e e' : GestureEngine) (now : Z) (tip : Point)
  (evs : list Event) :
  rotateStep e now tip = (e', evs) ->
  swipeCooldownTimestamp e' = swipeCooldownTimestamp e
  /\ switchCooldown e' = switchCooldown e
  /\ palmStartTime e' = palmStartTime e
  /\ (pinchStartDistance e' = pinchStartDistance e
      \/ pinchStartDistance e' = None)
  /\ countEvents isSwipe evs = 0%nat
  /\ countEvents isReset evs = 0%nat
  /\ countEvents isZoom evs = 0%nat.
Proof.
  unfold rotateStep, resetState. intros H.
  crush_cases; cbn; auto 10.
Qed.

Lemma resetState_frame (e e' : GestureEngine) (evs : list Event) :
  resetState e = (e', evs) ->
  swipeCooldownTimestamp e' = swipeCooldownTimestamp e
  /\ switchCooldown e' = switchCooldown e
  /\ palmStartTime e' = palmStartTime e
  /\ pinchStartDistance e' = None
  /\ countEvents isSwipe evs = 0%nat
  /\ countEvents isReset evs = 0%nat
  /\ countEvents isZoom evs = 0%nat.
Proof.
  unfold resetState. intros H. crush_cases; cbn; auto 10.
Qed.

Lemma handleTwoHandGestures_frame (e e' : GestureEngine)
  (hands : list Landmarks) (evs : list Event) :
  handleTwoHandGestures e hands = Some (e', evs) ->
  swipeCooldownTimestamp e' = swipeCooldownTimestamp e
  /\ switchCooldown e' = switchCooldown e
  /\ palmStartTime e' = palmStartTime e
  /\ countEvents isSwipe evs = 0%nat
  /\ countEvents isReset evs = 0%nat.
Proof.
  unfold handleTwoHandGestures. intros H. crush_cases; cbn; auto 10.
Qed.

Lemma palmStep_frame (e e' : GestureEngine) (now : Z) (evs : list Event) :
  palmStep e now = (e', evs) ->
  swipeCooldownTimestamp e' = swipeCooldownTimestamp e
  /\ switchCooldown e' = switchCooldown e
  /\ (pinchStartDistance e' = pinchStartDistance e
      \/ pinchStartDistance e' = None)
  /\ countEvents isSwipe evs = 0%nat
  /\ countEvents isZoom evs = 0%nat.
Proof.
  unfold palmStep, resetState. intros H. crush_cases; cbn; auto 10.
Qed.

Lemma some_eq {A : Type} (a b : A) : Some a = Some b -> a = b.
Proof. congruence. Qed.

(** The four ways through the single-hand handler once the (never armed)
    global cooldown is out of the way. *)
Lemma handleSingleHandGestures_inv (e e' : GestureEngine) (now : Z)
  (landmarks : Landmarks) (evs : list Event) :
  swipeCooldownTimestamp e = None ->
  handleSingleHandGestures e now landmarks = Some (e', evs) ->
  exists g,
    detectGesture landmarks = Some g
    /\ ((g = palm /\ palmStep e now = (e', evs))
        \/ (g = point /\ horizontal landmarks
            /\ cooldownOver e now = true
            /\ e' = set_state switching
                      (set_switchCooldown (Some now) (set_palmStartTime None e))
            /\ exists d, evs = [Swipe d])
        \/ (g = point /\ horizontal landmarks
            /\ cooldownOver e now = false
            /\ e' = set_palmStartTime None e /\ evs = [])
        \/ (g <> palm /\ ~ (g = point /\ horizontal landmarks)
            /\ ((exists tip, rotateStep (set_palmStartTime None e) now tip
                             = (e', evs))
                \/ resetState (set_palmStartTime None e) = (e', evs)))).
Proof.
  intros Hg H. unfold handleSingleHandGestures in H.
  rewrite Hg in H. cbn [truthy andb] in H.
  destruct (detectGesture landmarks) as [g|] eqn:Eg; cbn [bind] in H;
    [|discriminate].
  exists g. split; [reflexivity|].
  destruct g.
  - left. apply some_eq in H. split; [reflexivity | assumption].
  - right; right; right. cbn [switchStep bind isFistOrPoint] in H.
    apply some_eq in H.
    split; [discriminate|]. split; [intros [? _]; discriminate|].
    right. assumption.
  - right; right; right. cbn [switchStep bind isFistOrPoint] in H.
    destruct (nth_error landmarks 8) as [tip|]; cbn [bind] in H;
      [|discriminate].
    apply some_eq in H.
    split; [discriminate|]. split; [intros [? _]; discriminate|].
    left. exists tip. assumption.
  - rewrite switchStep_fold in H.
    destruct (nth_error landmarks 5) as [mcp|] eqn:E5; cbn [bind] in H;
      [|discriminate].
    destruct (nth_error landmarks 8) as [tip|] eqn:E8; cbn [bind] in H;
      [|discriminate].
    destruct (horizontalb mcp tip) eqn:Eh.
    + apply (horizontalb_spec landmarks mcp tip E5 E8) in Eh.
      change (negb (truthy (switchCooldown (set_palmStartTime None e)))
              || (now - toNumber (switchCooldown (set_palmStartTime None e))
                  >? 1200)%Z)
        with (cooldownOver e now) in H.
      destruct (cooldownOver e now); cbn [bind] in H; injection H as <- <-.
      * right; left. repeat split; try assumption; eauto.
      * right; right; left. repeat split; assumption.
    + cbn [bind isFistOrPoint] in H. apply some_eq in H.
      right; right; right.
      split; [discriminate|]. split.
      * intros [_ Hh].
        apply (horizontalb_spec landmarks mcp tip E5 E8) in Hh. congruence.
      * left. exists tip. assumption.
  - right; right; right. cbn [switchStep bind isFistOrPoint] in H.
    apply some_eq in H.
    split; [discriminate|]. split; [intros [? _]; discriminate|].
    right. assumption.
Qed.

Lemma handleSingleHandGestures_total (e : GestureEngine) (now : Z)
  (landmarks : Landmarks) :
  List.length landmarks = 21%nat ->
  exists result, handleSingleHandGestures e now landmarks = Some result.
Proof.
  intros Hlen. unfold handleSingleHandGestures.
  destruct (_ && _); [eauto|].
  destruct (detectGesture_defined landmarks) as [g Eg]; [lia|].
  destruct (nth_error_defined landmarks 5) as [mcp E5]; [lia|].
  destruct (nth_error_defined landmarks 8) as [tip E8]; [lia|].
  rewrite Eg. cbn [bind].
  destruct g;
    try (cbn [switchStep bind isFistOrPoint]; rewrite ?E8; cbn [bind]; eauto;
         fail).
  rewrite switchStep_fold, E5, E8. cbn [bind].
  destruct (horizontalb mcp tip);
    [ destruct (_ || _); cbn [bind]; eauto
    | cbn [bind isFistOrPoint]; rewrite ?E8; cbn [bind]; eauto ].
Qed.

Lemma processFrame_total (e : GestureEngine) (now : Z) (results : Results) :
  wellFormed results ->
  exists result, processFrame e now results = Some result.
Proof.
  intros Hwf. rewrite processFrame_route.
  destruct (route results) as [|landmarks|hands] eqn:Er.
  - eauto.
  - apply handleSingleHandGestures_total.
    eapply route_SingleHand_wellFormed; eassumption.
  - destruct (route_TwoHands _ _ Er) as (h1 & h2 & rest & ->).
    destruct (handleTwoHandGestures_baseline e h1 h2 rest) as (e1 & evs & H & _).
    eauto.
Qed.

(** ** Sessions *)

Lemma run_app (frames1 frames2 : list (Z * Results)) :
  forall e : GestureEngine,
    run e (frames1 ++ frames2)
    = ('(e1, evs1) <- run e frames1 ;;
       '(e2, evs2) <- run e1 frames2 ;;
       Some (e2, evs1 ++ evs2)).
Proof.
  induction frames1 as [|[now results] rest IH]; intros e.
  - cbn [app run bind]. destruct (run e frames2) as [[e2 evs2]|]; reflexivity.
  - cbn [app run]. destruct (processFrame e now results) as [[e1 evs1]|];
      cbn [bind]; [|reflexivity].
    rewrite IH. destruct (run e1 rest) as [[e2 evs2]|]; cbn [bind];
      [|reflexivity].
    destruct (run e2 frames2) as [[e3 evs3]|]; cbn [bind]; [|reflexivity].
    rewrite app_assoc. reflexivity.
Qed.

Lemma run_snoc (frames : list (Z * Results)) (now : Z) (results : Results)
  (e : GestureEngine) :
  run e (frames ++ [(now, results)])
  = ('(e1, evs1) <- run e frames ;;
     '(e2, evs2) <- processFrame e1 now results ;;
     Some (e2, evs1 ++ evs2)).
Proof.
  rewrite run_app. destruct (run e frames) as [[e1 evs1]|]; cbn [bind run];
    [|reflexivity].
  destruct (processFrame e1 now results) as [[e2 evs2]|]; cbn [bind];
    [|reflexivity].
  rewrite app_nil_r. reflexivity.
Qed.

Lemma countEvents_app (p : Event -> bool) (evs1 evs2 : list Event) :
  countEvents p (evs1 ++ evs2)
  = (countEvents p evs1 + countEvents p evs2)%nat.
Proof. unfold countEvents. rewrite filter_app, length_app. reflexivity. Qed.

Lemma countEvents_zero_In (p : Event -> bool) (evs : list Event) (ev : Event) :
  countEvents p evs = 0%nat -> In ev evs -> p ev = false.
Proof.
  unfold countEvents. intros H Hin.
  destruct (p ev) eqn:E; [|reflexivity].
  assert (In ev (filter p evs)) as Hf by (apply filter_In; auto).
  destruct (filter p evs); [contradiction | discriminate].
Qed.

(** The global swipe cooldown is read but never written. *)
Lemma processFrame_swipeCooldownTimestamp (e e' : GestureEngine) (now : Z)
  (results : Results) (evs : list Event) :
  processFrame e now results = Some (e', evs) ->
  swipeCooldownTimestamp e = None ->
  swipeCooldownTimestamp e' = None.
Proof.
  rewrite processFrame_route. intros H Hg.
  destruct (route results) as [|landmarks|hands].
  - apply some_eq, resetState_frame in H. destruct H as [-> _]. assumption.
  - destruct (handleSingleHandGestures_inv _ _ _ _ _ Hg H)
      as (g & _ & [[_ Hp] | [(_ & _ & _ & -> & _) | [(_ & _ & _ & -> & _)
                  | (_ & _ & [[tip Hr] | Hr])]]]); try assumption.
    + apply palmStep_frame in Hp. destruct Hp as [-> _]. assumption.
    + apply rotateStep_frame in Hr. destruct Hr as [-> _]. assumption.
    + apply resetState_frame in Hr. destruct Hr as [-> _]. assumption.
  - apply handleTwoHandGestures_frame in H. destruct H as [-> _]. assumption.
Qed.

Lemma run_swipeCooldownTimestamp (frames : list (Z * Results)) :
  forall (e e' : GestureEngine) (evs : list Event),
    run e frames = Some (e', evs) ->
    swipeCooldownTimestamp e = None ->
    swipeCooldownTimestamp e' = None.
Proof.
  induction frames as [|[now results] rest IH]; intros e e' evs H Hg.
  - cbn in H. injection H as <- <-. assumption.
  - cbn [run] in H.
    destruct (processFrame e now results) as [[e1 evs1]|] eqn:E1;
      cbn [bind] in H; [|discriminate].
    destruct (run e1 rest) as [[e2 evs2]|] eqn:E2;
      cbn [bind] in H; [|discriminate].
    injection H as <- <-.
    eapply IH; [eassumption|].
    eapply processFrame_swipeCooldownTimestamp; eassumption.
Qed.

Lemma run_total (frames : list (Z * Results)) :
  forall e : GestureEngine,
    Forall (fun f => wellFormed (snd f)) frames ->
    exists e' evs, run e frames = Some (e', evs).
Proof.
  induction frames as [|[now results] rest IH]; intros e Hwf.
  - cbn. eauto.
  - inversion Hwf as [|? ? Hw Hrest]; subst. cbn [snd] in Hw.
    destruct (processFrame_total e now results Hw) as [[e1 evs1] E1].
    destruct (IH e1 Hrest) as (e2 & evs2 & E2).
    cbn [run]. rewrite E1. cbn [bind]. rewrite E2. cbn [bind]. eauto.
Qed.

(** ** Swipes and their cooldown *)

Lemma poseFrame_unique (g1 g2 : Gesture) (results : Results) :
  poseFrame g1 results -> poseFrame g2 results -> g1 = g2.
Proof.
  intros (l1 & R1 & D1) (l2 & R2 & D2). congruence.
Qed.

Lemma processFrame_not_swipeFrame (e e' : GestureEngine) (now : Z)
  (results : Results) (evs : list Event) :
  swipeCooldownTimestamp e = None ->
  ~ swipeFrame results ->
  processFrame e now results = Some (e', evs) ->
  switchCooldown e' = switchCooldown e /\ countEvents isSwipe evs = 0%nat.
Proof.
  intros Hg Hn. rewrite processFrame_route.
  destruct (route results) as [|landmarks|hands] eqn:Er; intros H.
  - apply some_eq, resetState_frame in H. tauto.
  - destruct (handleSingleHandGestures_inv _ _ _ _ _ Hg H)
      as (g & Eg & [[_ Hp] | [(-> & Hh & _) | [(-> & Hh & _)
                  | (_ & _ & [[tip Hr] | Hr])]]]).
    + apply palmStep_frame in Hp. tauto.
    + exfalso. apply Hn. exists landmarks. auto.
    + exfalso. apply Hn. exists landmarks. auto.
    + apply rotateStep_frame in Hr. cbn in Hr. tauto.
    + apply resetState_frame in Hr. cbn in Hr. tauto.
  - apply handleTwoHandGestures_frame in H. tauto.
Qed.

Lemma processFrame_swipeFrame (e e' : GestureEngine) (now : Z)
  (results : Results) (evs : list Event) :
  swipeCooldownTimestamp e = None ->
  swipeFrame results ->
  processFrame e now results = Some (e', evs) ->
  (cooldownOver e now = true /\ switchCooldown e' = Some now
   /\ countEvents isSwipe evs = 1%nat)
  \/ (cooldownOver e now = false /\ switchCooldown e' = switchCooldown e
      /\ countEvents isSwipe evs = 0%nat).
Proof.
  intros Hg (landmarks & Er & Ep & Hh). rewrite processFrame_route, Er.
  intros H.
  destruct (handleSingleHandGestures_inv _ _ _ _ _ Hg H)
    as (g & Eg & [[-> _] | [(_ & _ & Hc & -> & d & ->) | [(_ & _ & Hc & -> & ->)
                | (_ & Hno & _)]]]).
  - congruence.
  - left. auto.
  - right. auto.
  - exfalso. apply Hno. split; [congruence | assumption].
Qed.

Lemma run_no_swipeFrame (frames : list (Z * Results)) :
  forall e : GestureEngine,
    swipeCooldownTimestamp e = None ->
    Forall (fun f => wellFormed (snd f)) frames ->
    Forall (fun f => ~ swipeFrame (snd f)) frames ->
    exists e' evs,
      run e frames = Some (e', evs)
      /\ swipeCooldownTimestamp e' = None
      /\ switchCooldown e' = switchCooldown e
      /\ countEvents isSwipe evs = 0%nat.
Proof.
  induction frames as [|[now results] rest IH]; intros e Hg Hwf Hns.
  - exists e, []. cbn. auto.
  - inversion Hwf as [|? ? Hw Hrest]; subst.
    inversion Hns as [|? ? Hn Hnrest]; subst. cbn [snd] in *.
    destruct (processFrame_total e now results Hw) as [[e1 evs1] E1].
    pose proof (processFrame_swipeCooldownTimestamp _ _ _ _ _ E1 Hg) as Hg1.
    destruct (processFrame_not_swipeFrame _ _ _ _ _ Hg Hn E1) as [Hc1 Hn1].
    destruct (IH e1 Hg1 Hrest Hnrest) as (e2 & evs2 & E2 & Hg2 & Hc2 & Hn2).
    exists e2, (evs1 ++ evs2). cbn [run]. rewrite E1. cbn [bind].
    rewrite E2. cbn [bind]. repeat split; try assumption.
    + congruence.
    + rewrite countEvents_app. lia.
Qed.

Lemma cooldownOver_fresh (e : GestureEngine) (now : Z) :
  switchCooldown e = None -> cooldownOver e now = true.
Proof. intros H. unfold cooldownOver. rewrite H. reflexivity. Qed.

Lemma cooldownOver_recent (e : GestureEngine) (now t1 : Z) :
  switchCooldown e = Some t1 -> (0 < t1)%Z -> (now - t1 < 1200)%Z ->
  cooldownOver e now = false.
Proof.
  intros H Hpos Hlt. unfold cooldownOver. rewrite H. cbn [truthy toNumber].
  apply orb_false_iff. split.
  - apply negb_false_iff, negb_true_iff, Z.eqb_neq. lia.
  - rewrite Z.gtb_ltb. apply Z.ltb_ge. lia.
Qed.

(** C7: in a session with two qualifying horizontal-point frames less than
    1200 ms apart (and no other qualifying frame), exactly one Swipe event is
    emitted.  Clock readings are positive, as those of Date.now() are. *)
Theorem C7_swipe_cooldown (pre mid post : list (Z * Results)) (t1 t2 : Z)
  (q1 q2 : Results) :
  Forall (fun f => wellFormed (snd f)) pre ->
  Forall (fun f => wellFormed (snd f)) mid ->
  Forall (fun f => wellFormed (snd f)) post ->
  wellFormed q1 -> wellFormed q2 ->
  swipeFrame q1 -> swipeFrame q2 ->
  Forall (fun f => ~ swipeFrame (snd f)) pre ->
  Forall (fun f => ~ swipeFrame (snd f)) mid ->
  Forall (fun f => ~ swipeFrame (snd f)) post ->
  (0 < t1)%Z -> (t2 - t1 < 1200)%Z ->
  exists e evs,
    run constructor (pre ++ (t1, q1) :: mid ++ (t2, q2) :: post)
    = Some (e, evs)
    /\ countEvents isSwipe evs = 1%nat.
Proof.
  intros Wpre Wmid Wpost W1 W2 S1 S2 Npre Nmid Npost Hpos Hlt.
  destruct (run_no_swipeFrame pre constructor eq_refl Wpre Npre)
    as (e0 & evs0 & E0 & G0 & C0 & N0).
  cbn [switchCooldown constructor] in C0.
  destruct (processFrame_total e0 t1 q1 W1) as [[e1 evs1] E1].
  pose proof (processFrame_swipeCooldownTimestamp _ _ _ _ _ E1 G0) as G1.
  destruct (processFrame_swipeFrame _ _ _ _ _ G0 S1 E1)
    as [(_ & C1 & N1) | (Hc & _)];
    [| rewrite cooldownOver_fresh in Hc by assumption; discriminate].
  destruct (run_no_swipeFrame mid e1 G1 Wmid Nmid)
    as (e2 & evs2 & E2 & G2 & C2 & N2).
  rewrite C1 in C2.
  destruct (processFrame_total e2 t2 q2 W2) as [[e3 evs3] E3].
  pose proof (processFrame_swipeCooldownTimestamp _ _ _ _ _ E3 G2) as G3.
  destruct (processFrame_swipeFrame _ _ _ _ _ G2 S2 E3)
    as [(Hc & _) | (_ & C3 & N3)];
    [rewrite (cooldownOver_recent e2 t2 t1) in Hc by assumption; discriminate|].
  destruct (run_no_swipeFrame post e3 G3 Wpost Npost)
    as (e4 & evs4 & E4 & G4 & C4 & N4).
  exists e4, (evs0 ++ evs1 ++ evs2 ++ evs3 ++ evs4).
  split.
  - rewrite run_app, E0. cbn [bind run]. rewrite E1. cbn [bind].
    rewrite run_app, E2. cbn [bind run]. rewrite E3. cbn [bind].
    rewrite E4. cbn [bind]. reflexivity.
  - rewrite !countEvents_app. lia.
Qed.

(** ** Sample frames *)

Lemma wellFormed_oneHand (x y dx : R) (thumb index middle ring pinky : bool) :
  wellFormed (oneHand (poseHand x y dx thumb index middle ring pinky)).
Proof. repeat constructor. Qed.

Lemma wellFormed_twoHands (x1 y1 dx1 x2 y2 dx2 : R)
  (t1 i1 m1 r1 p1 t2 i2 m2 r2 p2 : bool) :
  wellFormed (twoHands (poseHand x1 y1 dx1 t1 i1 m1 r1 p1)
                       (poseHand x2 y2 dx2 t2 i2 m2 r2 p2)).
Proof. repeat constructor. Qed.

Lemma poseFrame_oneHand (x y dx : R) (thumb index middle ring pinky : bool) :
  poseFrame (classify [thumb; index; middle; ring; pinky])
            (oneHand (poseHand x y dx thumb index middle ring pinky)).
Proof.
  eexists. split; [reflexivity | apply detectGesture_poseHand].
Qed.

Lemma swipeFrame_oneHand (x y dx : R) :
  Rabs dx > 0.08 ->
  swipeFrame (oneHand (poseHand x y dx false true false false false)).
Proof.
  intros H. eexists. split; [reflexivity|].
  split; [apply detectGesture_poseHand|].
  do 2 eexists. split; [reflexivity|]. split; [reflexivity|].
  cbn [lm_x lm_y].
  replace (x + dx - x) with dx by lra.
  replace (y - 0.1 - y) with (- 0.1) by lra.
  rewrite (Rabs_left (- 0.1)) by lra. lra.
Qed.

Lemma not_swipeFrame_oneHand (x y dx : R) (thumb index middle ring pinky : bool) :
  classify [thumb; index; middle; ring; pinky] <> point ->
  ~ swipeFrame (oneHand (poseHand x y dx thumb index middle ring pinky)).
Proof.
  intros Hc (landmarks & Er & Ep & _).
  cbn in Er. injection Er as <-.
  rewrite detectGesture_poseHand in Ep. congruence.
Qed.

(** A swipe at 1000 ms, a fist at 1300 ms, a second swipe at 1800 ms. *)
Lemma C7_swipe_cooldown_witness :
  exists e evs,
    run constructor
      [ (1000%Z, oneHand (poseHand 0.5 0.5 0.2 false true false false false));
        (1300%Z, oneHand (poseHand 0.5 0.5 0 false false false false false));
        (1800%Z, oneHand (poseHand 0.5 0.5 0.2 false true false false false)) ]
    = Some (e, evs)
    /\ countEvents isSwipe evs = 1%nat.
Proof.
  apply (C7_swipe_cooldown []
           [(1300%Z, oneHand (poseHand 0.5 0.5 0 false false false false false))]
           [] 1000 1800
           (oneHand (poseHand 0.5 0.5 0.2 false true false false false))
           (oneHand (poseHand 0.5 0.5 0.2 false true false false false))).
  - constructor.
  - repeat constructor.
  - constructor.
  - apply wellFormed_oneHand.
  - apply wellFormed_oneHand.
  - apply swipeFrame_oneHand. rewrite Rabs_pos_eq by lra. lra.
  - apply swipeFrame_oneHand. rewrite Rabs_pos_eq by lra. lra.
  - constructor.
  - constructor; [|constructor]. apply not_swipeFrame_oneHand. discriminate.
  - constructor.
  - lia.
  - lia.
Defined.

(** ** Ghost suppression *)

Lemma switchStep_frame (e e' : GestureEngine) (now : Z) (g : Gesture)
  (landmarks : Landmarks) (evs : list Event) :
  switchStep e now g landmarks = Some (Some (e', evs)) ->
  pinchStartDistance e' = pinchStartDistance e
  /\ countEvents isZoom evs = 0%nat.
Proof.
  unfold switchStep. intros H.
  crush_cases; try discriminate; cbn; auto.
Qed.

(** The single-hand handler never emits Zoom and never records a pinch
    baseline, whatever the engine state. *)
Lemma handleSingleHandGestures_no_zoom (e e' : GestureEngine) (now : Z)
  (landmarks : Landmarks) (evs : list Event) :
  handleSingleHandGestures e now landmarks = Some (e', evs) ->
  countEvents isZoom evs = 0%nat
  /\ (pinchStartDistance e' = pinchStartDistance e
      \/ pinchStartDistance e' = None).
Proof.
  unfold handleSingleHandGestures. intros H.
  destruct (_ && _).
  { injection H as <- <-. auto. }
  destruct (detectGesture landmarks) as [g|]; cbn [bind] in H; [|discriminate].
  assert (forall r : GestureEngine * list Event,
             (let e1 := set_palmStartTime None e in
              switched <- switchStep e1 now g landmarks ;;
              match switched with
              | Some result => Some result
              | None =>
                  if isFistOrPoint g then
                    indexTip <- nth_error landmarks 8 ;;
                    Some (rotateStep e1 now indexTip)
                  else Some (resetState e1)
              end) = Some r ->
             countEvents isZoom (snd r) = 0%nat
             /\ (pinchStartDistance (fst r) = pinchStartDistance e
                 \/ pinchStartDistance (fst r) = None)) as Hrest.
  { intros [e2 evs2] Hr. cbn zeta in Hr. cbn [fst snd].
    destruct (switchStep _ _ _ _) as [[[e3 evs3]|]|] eqn:Esw;
      cbn [bind] in Hr; try discriminate.
    - injection Hr as <- <-. apply switchStep_frame in Esw. cbn in Esw. tauto.
    - destruct (isFistOrPoint g).
      + destruct (nth_error landmarks 8); cbn [bind] in Hr; [|discriminate].
        apply some_eq, rotateStep_frame in Hr. cbn in Hr. tauto.
      + apply some_eq, resetState_frame in Hr. tauto. }
  destruct g; try (apply (Hrest (e', evs)); exact H).
  apply some_eq, palmStep_frame in H. tauto.
Qed.

(** C8: a frame with two or more detected hands whose centroids are less
    than 0.12 apart goes to the single-hand handler with the first detection
    only; the two-hand zoom path is not entered: no Zoom event, no pinch
    baseline recorded. *)
Theorem C8_ghost_suppression (e : GestureEngine) (now : Z) (results : Results)
  (hand1 hand2 : Landmarks) (rest : list Landmarks) :
  multiHandLandmarks results = hand1 :: hand2 :: rest ->
  hand1 <> [] -> hand2 <> [] ->
  centerDistance hand1 hand2 < 0.12 ->
  route results = SingleHand hand1
  /\ processFrame e now results = handleSingleHandGestures e now hand1
  /\ forall e' evs,
      processFrame e now results = Some (e', evs) ->
      countEvents isZoom evs = 0%nat
      /\ (pinchStartDistance e' = pinchStartDistance e
          \/ pinchStartDistance e' = None).
Proof.
  intros Hh _ _ Hd.
  assert (route results = SingleHand hand1) as Hr.
  { unfold route. rewrite Hh. rewrite Rltb_true by assumption. reflexivity. }
  assert (processFrame e now results = handleSingleHandGestures e now hand1)
    as Hp by (rewrite processFrame_route, Hr; reflexivity).
  split; [assumption|]. split; [assumption|].
  intros e' evs H. rewrite Hp in H.
  eapply handleSingleHandGestures_no_zoom; eassumption.
Qed.

(** Two detections 0.05 apart, labelled Left and Right. *)
Lemma C8_ghost_suppression_witness :
  route (twoHands (poseHand 0.5 0.5 0 false false false false false)
                  (poseHand 0.55 0.5 0 false false false false false))
  = SingleHand (poseHand 0.5 0.5 0 false false false false false).
Proof.
  apply (C8_ghost_suppression constructor 1000
           (twoHands (poseHand 0.5 0.5 0 false false false false false)
                     (poseHand 0.55 0.5 0 false false false false false))
           (poseHand 0.5 0.5 0 false false false false false)
           (poseHand 0.55 0.5 0 false false false false false) []).
  - reflexivity.
  - discriminate.
  - discriminate.
  - rewrite centerDistance_poseHand. rewrite Rabs_left by lra. lra.
Defined.

(** ** The palm-hold timer *)

Lemma palmStep_timer (e e' : GestureEngine) (now : Z) (evs : list Event) :
  palmStep e now = (e', evs) ->
  palmStartTime e' = None
  \/ palmStartTime e' = palmStartTime e
  \/ palmStartTime e' = Some now.
Proof.
  unfold palmStep, resetState. intros H. crush_cases; cbn; auto.
Qed.

Lemma palmStep_Reset (e e' : GestureEngine) (now : Z) (evs : list Event) :
  palmStep e now = (e', evs) -> In Reset evs ->
  exists t0,
    palmStartTime e = Some t0 /\ (now - t0 > 1200)%Z /\ state e <> idle.
Proof.
  unfold palmStep. intros H Hin.
  destruct (truthy (palmStartTime e)) eqn:Et; cbn [negb] in H.
  - destruct (palmStartTime e) as [t0|] eqn:Ep; [|discriminate].
    cbn [toNumber] in H.
    destruct (now - t0 >? 1200)%Z eqn:Egt;
      [| injection H as <- <-; contradiction].
    destruct (State_eqb (state e) idle) eqn:Es; cbn [negb] in H;
      [injection H as <- <-; contradiction|].
    exists t0. split; [reflexivity|]. split.
    + apply Z.gtb_gt in Egt. lia.
    + apply State_eqb_neq. assumption.
  - cbn [palmStartTime set_palmStartTime toNumber] in H.
    replace (now - now >? 1200)%Z with false in H
      by (symmetry; rewrite Z.gtb_ltb; apply Z.ltb_ge; lia).
    injection H as <- <-. contradiction.
Qed.

Lemma not_In_of_count (p : Event -> bool) (evs : list Event) (ev : Event) :
  countEvents p evs = 0%nat -> p ev = true -> ~ In ev evs.
Proof.
  intros H Hp Hin. rewrite (countEvents_zero_In p evs ev H Hin) in Hp.
  discriminate.
Qed.

Lemma nonPalmFrame_route (results : Results) :
  nonPalmFrame results -> exists landmarks, route results = SingleHand landmarks.
Proof. intros (g & (landmarks & Er & _) & _). eauto. Qed.

(** What one frame does to the palm-hold timer, and when it emits Reset. *)
Lemma processFrame_palm_timer (e e' : GestureEngine) (now : Z)
  (results : Results) (evs : list Event) :
  swipeCooldownTimestamp e = None ->
  processFrame e now results = Some (e', evs) ->
  (nonPalmFrame results -> palmStartTime e' = None)
  /\ (palmStartTime e' = None
      \/ (palmStartTime e' = palmStartTime e /\ ~ nonPalmFrame results)
      \/ (palmStartTime e' = Some now /\ palmFrame results))
  /\ (In Reset evs ->
      palmFrame results
      /\ exists t0, palmStartTime e = Some t0 /\ (now - t0 > 1200)%Z).
Proof.
  intros Hg. rewrite processFrame_route.
  destruct (route results) as [|landmarks|hands] eqn:Er; intros H.
  - apply some_eq, resetState_frame in H.
    destruct H as (_ & _ & Hp & _ & _ & Hr & _).
    assert (~ nonPalmFrame results) as Hn.
    { intros Hn. apply nonPalmFrame_route in Hn as [l El]. congruence. }
    split; [intros Hc; contradiction|]. split; [auto|].
    intros Hin. exfalso. revert Hin. apply (not_In_of_count isReset); auto.
  - destruct (handleSingleHandGestures_inv _ _ _ _ _ Hg H)
      as (g & Eg & Hcases).
    assert (poseFrame g results) as Hpose by (exists landmarks; auto).
    destruct Hcases as [[-> Hp] | [(-> & _ & _ & -> & d & ->)
                      | [(-> & _ & _ & -> & ->) | (Hnp & _ & Hr)]]].
    + assert (~ nonPalmFrame results) as Hn.
      { intros (g' & Hg' & Hne). apply Hne.
        eapply poseFrame_unique; eassumption. }
      split; [intros Hc; contradiction|]. split.
      * destruct (palmStep_timer _ _ _ _ Hp) as [Ht | [Ht | Ht]]; auto.
      * intros Hin. split; [assumption|].
        destruct (palmStep_Reset _ _ _ _ Hp Hin) as (t0 & Ht & Hgt & _).
        eauto.
    + split; [reflexivity|]. split; [left; reflexivity|].
      intros [Hin | []]. discriminate Hin.
    + split; [reflexivity|]. split; [left; reflexivity|].
      intros [].
    + assert (palmStartTime e' = None /\ countEvents isReset evs = 0%nat)
        as [Hp Hc].
      { destruct Hr as [[tip Hr] | Hr].
        - apply rotateStep_frame in Hr. cbn in Hr. tauto.
        - apply resetState_frame in Hr. cbn in Hr. tauto. }
      split; [auto|]. split; [auto|].
      intros Hin. exfalso. revert Hin. apply (not_In_of_count isReset); auto.
  - apply handleTwoHandGestures_frame in H.
    destruct H as (_ & _ & Hp & _ & Hr).
    assert (~ nonPalmFrame results) as Hn.
    { intros Hn. apply nonPalmFrame_route in Hn as [l El]. congruence. }
    split; [intros Hc; contradiction|]. split; [auto|].
    intros Hin. exfalso. revert Hin. apply (not_In_of_count isReset); auto.
Qed.

Lemma noOtherPoseSince_snoc (t0 now : Z) (results : Results)
  (frames : list (Z * Results)) :
  noOtherPoseSince t0 frames -> ~ nonPalmFrame results ->
  noOtherPoseSince t0 (frames ++ [(now, results)]).
Proof.
  intros (pre & r0 & later & -> & Hp & Hl) Hn.
  exists pre, r0, (later ++ [(now, results)]).
  split; [rewrite <- app_assoc; reflexivity|]. split; [assumption|].
  apply Forall_app. split; [assumption|]. repeat constructor. assumption.
Qed.

(** While the timer holds [t0], a Palm frame was processed at [t0] and no
    single-hand frame of another pose has been processed since. *)
Lemma run_palm_timer (frames : list (Z * Results)) :
  forall (e : GestureEngine) (evs : list Event) (t0 : Z),
    run constructor frames = Some (e, evs) ->
    palmStartTime e = Some t0 ->
    noOtherPoseSince t0 frames.
Proof.
  induction frames as [|[now results] frames IH] using rev_ind;
    intros e evs t0 H Ht.
  - cbn in H. injection H as <- <-. discriminate Ht.
  - rewrite run_snoc in H.
    destruct (run constructor frames) as [[e1 evs1]|] eqn:E1;
      cbn [bind] in H; [|discriminate].
    destruct (processFrame e1 now results) as [[e2 evs2]|] eqn:E2;
      cbn [bind] in H; [|discriminate].
    injection H as <- <-.
    pose proof (run_swipeCooldownTimestamp _ _ _ _ E1 eq_refl) as Hg.
    destruct (processFrame_palm_timer _ _ _ _ _ Hg E2)
      as (_ & [Hn | [[Hsame Hnp] | [Hnow Hpalm]]] & _).
    + congruence.
    + apply noOtherPoseSince_snoc; [|assumption].
      eapply IH; [reflexivity | congruence].
    + assert (t0 = now) as -> by congruence.
      exists frames, results, []. auto.
Qed.

(** What the code guarantees about Reset: every single-hand frame whose
    classified pose is not Palm clears the palm-hold timer, and a Reset
    event is emitted only on a Palm frame processed more than 1200 ms after
    an earlier Palm frame, with no single-hand frame of another pose in
    between.  Frames without a hand and two-hand frames in between are not
    excluded: they leave the timer running. *)
Theorem reset_needs_palm_timer (frames : list (Z * Results)) (now : Z)
  (results : Results) (e e' : GestureEngine) (evs evs' : list Event) :
  run constructor frames = Some (e, evs) ->
  processFrame e now results = Some (e', evs') ->
  (nonPalmFrame results -> palmStartTime e' = None)
  /\ (In Reset evs' ->
      palmFrame results
      /\ exists t0, (now - t0 > 1200)%Z /\ noOtherPoseSince t0 frames).
Proof.
  intros Hrun Hstep.
  pose proof (run_swipeCooldownTimestamp _ _ _ _ Hrun eq_refl) as Hg.
  destruct (processFrame_palm_timer _ _ _ _ _ Hg Hstep) as (Hclear & _ & Hreset).
  split; [assumption|].
  intros Hin. destruct (Hreset Hin) as (Hpalm & t0 & Ht & Hgt).
  split; [assumption|]. exists t0. split; [assumption|].
  eapply run_palm_timer; eassumption.
Qed.

(** A Palm frame, a two-hand frame half a second later, and a second Palm
    frame 1300 ms after the first: the second Palm frame emits Reset. *)
Lemma interrupted_palm_run :
  exists e evs e',
    run constructor
      [ (1000%Z, oneHand (palmAt 0.5 0.5));
        (1500%Z, twoHands (fistAt 0.3 0.5) (fistAt 0.7 0.5)) ]
    = Some (e, evs)
    /\ processFrame e 2300 (oneHand (palmAt 0.5 0.5)) = Some (e', [Reset]).
Proof.
  unfold palmAt, fistAt. do 3 eexists. split.
  - eval_run. reflexivity.
  - eval_frame.
Qed.

Lemma route_twoHands_apart (x1 x2 y : R) :
  0.12 <= Rabs (x1 - x2) ->
  route (twoHands (fistAt x1 y) (fistAt x2 y))
  = TwoHands [fistAt x1 y; fistAt x2 y].
Proof.
  intros H. unfold route, twoHands, fistAt.
  cbv [multiHandLandmarks multiHandedness map label].
  rewrite centerDistance_poseHand. rewrite Rltb_false by assumption.
  eval_includes. reflexivity.
Qed.

Lemma not_poseFrame_twoHands (g : Gesture) (x1 x2 y : R) :
  0.12 <= Rabs (x1 - x2) ->
  ~ poseFrame g (twoHands (fistAt x1 y) (fistAt x2 y)).
Proof.
  intros H (landmarks & Er & _).
  rewrite route_twoHands_apart in Er by assumption. discriminate Er.
Qed.

(** C4 fails on the code: a Palm frame at 1000 ms starts the palm-hold
    timer, the two-hand frame at 1500 ms does not clear it, and the Palm
    frame at 2300 ms emits Reset, although no 1200 ms of Palm
    classifications uninterrupted by a two-hand frame precede it. *)
Theorem C4_reset_after_interruption :
  exists e evs e',
    run constructor
      [ (1000%Z, oneHand (palmAt 0.5 0.5));
        (1500%Z, twoHands (fistAt 0.3 0.5) (fistAt 0.7 0.5)) ]
    = Some (e, evs)
    /\ processFrame e 2300 (oneHand (palmAt 0.5 0.5)) = Some (e', [Reset])
    /\ ~ (exists t0,
             (2300 - t0 >= 1200)%Z
             /\ palmOnlySince t0
                  ([ (1000%Z, oneHand (palmAt 0.5 0.5));
                     (1500%Z, twoHands (fistAt 0.3 0.5) (fistAt 0.7 0.5)) ]
                   ++ [(2300%Z, oneHand (palmAt 0.5 0.5))])).
Proof.
  destruct interrupted_palm_run as (e & evs & e' & Hrun & Hstep).
  exists e, evs, e'. split; [assumption|]. split; [assumption|].
  assert (0.12 <= Rabs (0.3 - 0.7)) as Hfar
      by (rewrite Rabs_left by lra; lra).
  intros (t0 & Hge & pre & r0 & held & Heq & Hp & Hh).
  destruct pre as [|a [|b [|c pre]]]; cbn [app] in Heq.
  - inversion Heq; subst.
    inversion Hh as [|? ? Htwo _]; subst. cbn [snd] in Htwo.
    exact (not_poseFrame_twoHands palm 0.3 0.7 0.5 Hfar Htwo).
  - inversion Heq; subst.
    exact (not_poseFrame_twoHands palm 0.3 0.7 0.5 Hfar Hp).
  - inversion Heq; subst. lia.
  - inversion Heq as [[Ha Hb Hc Hnil]]. destruct pre; discriminate Hnil.
Qed.

(** The same session against [reset_needs_palm_timer]: the timer started at
    1000 ms, and the two-hand frame did not end it. *)
Lemma reset_needs_palm_timer_example :
  exists t0,
    (2300 - t0 > 1200)%Z
    /\ noOtherPoseSince t0
         [ (1000%Z, oneHand (palmAt 0.5 0.5));
           (1500%Z, twoHands (fistAt 0.3 0.5) (fistAt 0.7 0.5)) ].
Proof.
  destruct interrupted_palm_run as (e & evs & e' & Hrun & Hstep).
  destruct (reset_needs_palm_timer _ _ _ _ _ _ _ Hrun Hstep) as [_ Hreset].
  destruct Hreset as (_ & t0 & Hgt & Hsince); [left; reflexivity|].
  exists t0. split; assumption.
Defined.

(** ** The palm hold *)

Lemma processFrame_palmFrame (e : GestureEngine) (now : Z) (results : Results) :
  swipeCooldownTimestamp e = None -> palmFrame results ->
  processFrame e now results = Some (palmStep e now).
Proof.
  intros Hg (landmarks & Er & Ep).
  rewrite processFrame_route, Er. unfold handleSingleHandGestures.
  rewrite Hg, Ep. reflexivity.
Qed.

Lemma palmStep_start (e : GestureEngine) (now : Z) :
  truthy (palmStartTime e) = false ->
  palmStep e now = (set_palmStartTime (Some now) e, []).
Proof.
  intros H. unfold palmStep. rewrite H.
  cbn [negb palmStartTime set_palmStartTime toNumber].
  replace (now - now >? 1200)%Z with false
    by (symmetry; rewrite Z.gtb_ltb; apply Z.ltb_ge; lia).
  reflexivity.
Qed.

Lemma palmStep_wait (e : GestureEngine) (now t0 : Z) :
  palmStartTime e = Some t0 -> (0 < t0)%Z -> (now - t0 <= 1200)%Z ->
  palmStep e now = (e, []).
Proof.
  intros H Hpos Hle. unfold palmStep. rewrite H. cbn [truthy].
  replace (t0 =? 0)%Z with false by (symmetry; apply Z.eqb_neq; lia).
  cbn [negb]. rewrite H. cbn [toNumber].
  replace (now - t0 >? 1200)%Z with false
    by (symmetry; rewrite Z.gtb_ltb; apply Z.ltb_ge; lia).
  reflexivity.
Qed.

Lemma palmStep_fire (e : GestureEngine) (now t0 : Z) :
  palmStartTime e = Some t0 -> (0 < t0)%Z -> (now - t0 > 1200)%Z ->
  state e <> idle -> state e <> locked ->
  palmStep e now
  = (set_palmStartTime None
       (set_gestureStartTime None
          (set_pinchStartDistance None
             (set_lastHandPosition None (set_state idle e)))),
     [Reset]).
Proof.
  intros H Hpos Hgt Hidle Hlocked. unfold palmStep. rewrite H. cbn [truthy].
  replace (t0 =? 0)%Z with false by (symmetry; apply Z.eqb_neq; lia).
  cbn [negb]. rewrite H. cbn [toNumber].
  replace (now - t0 >? 1200)%Z with true
    by (symmetry; apply Z.gtb_gt; lia).
  apply State_eqb_neq in Hidle. rewrite Hidle. cbn [negb].
  rewrite resetState_unlocked by assumption. reflexivity.
Qed.

(** Palm frames that arrive while the hold is at most 1200 ms old change
    nothing. *)
Lemma run_palm_waiting (t0 bound : Z) (held : list (Z * Results)) :
  forall e : GestureEngine,
    swipeCooldownTimestamp e = None ->
    palmStartTime e = Some t0 -> (0 < t0)%Z -> (bound <= 1200)%Z ->
    Forall (fun f : Z * Results =>
              palmFrame (snd f) /\ (t0 <= fst f <= t0 + bound)%Z) held ->
    run e held = Some (e, []).
Proof.
  induction held as [|[now results] rest IH]; intros e Hg Ht Hpos Hb Hall.
  - reflexivity.
  - inversion Hall as [|? ? [Hp Hn] Hrest]; subst. cbn [fst snd] in *.
    cbn [run]. rewrite (processFrame_palmFrame e now results Hg Hp).
    rewrite (palmStep_wait e now t0 Ht Hpos) by lia.
    cbn [bind]. rewrite (IH e Hg Ht Hpos Hb Hrest). reflexivity.
Qed.

(** C6, amended: starting with the palm-hold timer clear and the state not
    Idle, a continuous Palm classification lasting exactly 1199 ms emits no
    Reset event; one lasting 1201 ms emits exactly one Reset event, clears
    the palm-hold timer and what resetState clears (anchor position, pinch
    baseline, gesture-start time), and returns the state to Idle.  The swipe
    cooldown and the last-move time are left as they were. *)
Theorem C6_palm_hold (history : list (Z * Results)) (e : GestureEngine)
  (evs0 : list Event) (t0 : Z) (first last : Results)
  (held : list (Z * Results)) :
  run constructor history = Some (e, evs0) ->
  state e <> idle ->
  truthy (palmStartTime e) = false ->
  (0 < t0)%Z ->
  palmFrame first -> palmFrame last ->
  Forall (fun f : Z * Results =>
            palmFrame (snd f) /\ (t0 <= fst f <= t0 + 1199)%Z) held ->
  (exists e1,
      run e ((t0, first) :: held ++ [((t0 + 1199)%Z, last)]) = Some (e1, []))
  /\ (exists e2,
         run e ((t0, first) :: held ++ [((t0 + 1201)%Z, last)])
         = Some (e2, [Reset])
         /\ state e2 = idle
         /\ palmStartTime e2 = None
         /\ gestureStartTime e2 = None
         /\ lastHandPosition e2 = None
         /\ pinchStartDistance e2 = None
         /\ switchCooldown e2 = switchCooldown e
         /\ lastMoveTime e2 = lastMoveTime e).
Proof.
  intros Hrun Hidle Hclear Hpos Hfirst Hlast Hheld.
  pose proof (run_swipeCooldownTimestamp _ _ _ _ Hrun eq_refl) as Hg.
  destruct (run_unlocked _ _ _ _ Hrun) as [Hlocked _]; [discriminate|].
  set (e1 := set_palmStartTime (Some t0) e).
  assert (processFrame e t0 first = Some (e1, [])) as Hstart.
  { rewrite (processFrame_palmFrame e t0 first Hg Hfirst).
    rewrite palmStep_start by assumption. reflexivity. }
  assert (run e1 held = Some (e1, [])) as Hwait.
  { apply (run_palm_waiting t0 1199); try assumption; try reflexivity. lia. }
  split.
  - exists e1. cbn [run]. rewrite Hstart. cbn [bind].
    rewrite run_snoc, Hwait. cbn [bind].
    rewrite (processFrame_palmFrame e1 _ last Hg Hlast).
    rewrite (palmStep_wait e1 _ t0) by (try reflexivity; lia).
    reflexivity.
  - eexists. split.
    + cbn [run]. rewrite Hstart. cbn [bind].
      rewrite run_snoc, Hwait. cbn [bind].
      rewrite (processFrame_palmFrame e1 _ last Hg Hlast).
      rewrite (palmStep_fire e1 _ t0) by (try assumption; try reflexivity; lia).
      reflexivity.
    + repeat split.
Qed.

Lemma palmFrame_oneHand (x y : R) : palmFrame (oneHand (palmAt x y)).
Proof. exact (poseFrame_oneHand x y 0 true true true true true). Qed.

Lemma fist_then_tracking :
  exists e,
    run constructor [(500%Z, oneHand (fistAt 0.5 0.5))] = Some (e, [])
    /\ state e = tracking
    /\ palmStartTime e = None.
Proof.
  unfold fistAt. eexists. split; [eval_run; reflexivity|]. split; reflexivity.
Qed.

(** After a fist at 500 ms: palm frames at 1000, 1600 and 2199 ms emit
    nothing; with the last one at 2201 ms it emits Reset. *)
Lemma C6_palm_hold_witness :
  exists e,
    run constructor [(500%Z, oneHand (fistAt 0.5 0.5))] = Some (e, [])
    /\ (exists e1,
           run e [ (1000%Z, oneHand (palmAt 0.5 0.5));
                   (1600%Z, oneHand (palmAt 0.5 0.5));
                   (2199%Z, oneHand (palmAt 0.5 0.5)) ] = Some (e1, []))
    /\ (exists e2,
           run e [ (1000%Z, oneHand (palmAt 0.5 0.5));
                   (1600%Z, oneHand (palmAt 0.5 0.5));
                   (2201%Z, oneHand (palmAt 0.5 0.5)) ] = Some (e2, [Reset])
           /\ state e2 = idle).
Proof.
  destruct fist_then_tracking as (e & Hrun & Hstate & Htimer).
  exists e. split; [assumption|].
  destruct (C6_palm_hold _ e [] 1000 (oneHand (palmAt 0.5 0.5))
              (oneHand (palmAt 0.5 0.5))
              [(1600%Z, oneHand (palmAt 0.5 0.5))] Hrun)
    as [[e1 H1] (e2 & H2 & Hs2 & _)].
  - rewrite Hstate. discriminate.
  - rewrite Htimer. reflexivity.
  - lia.
  - apply palmFrame_oneHand.
  - apply palmFrame_oneHand.
  - constructor; [|constructor]. cbn [fst snd].
    split; [apply palmFrame_oneHand | lia].
  - split; [exists e1; exact H1 | exists e2; split; assumption].
Defined.

(** C6, as stated, fails: from the initial (Idle) state a continuous Palm
    classification lasting 1201 ms emits no Reset event at all. *)
Lemma C6_idle_palm_hold_is_silent :
  exists e,
    run constructor
      [ (1000%Z, oneHand (palmAt 0.5 0.5));
        (1600%Z, oneHand (palmAt 0.5 0.5));
        (2201%Z, oneHand (palmAt 0.5 0.5)) ]
    = Some (e, [])
    /\ state e = idle
    /\ palmStartTime e = Some 1000%Z.
Proof.
  unfold palmAt. eexists. split; [eval_run; reflexivity|]. split; reflexivity.
Qed.

(** ** The global swipe cooldown *)

(** No session ever arms the global cooldown: the field it reads stays
    [undefined]. *)
Lemma swipeCooldownTimestamp_never_set (frames : list (Z * Results))
  (e : GestureEngine) (evs : list Event) :
  run constructor frames = Some (e, evs) -> swipeCooldownTimestamp e = None.
Proof.
  intros H. eapply run_swipeCooldownTimestamp; [eassumption | reflexivity].
Qed.

(** C2 fails on the code: a Swipe fires at 1000 ms; the fist frame at
    1100 ms is processed all the same (it latches the anchor and the
    gesture-start time), and the fist frame at 1200 ms emits Rotate. *)
Theorem C2_frames_processed_during_cooldown :
  exists e1 e2 dx dy,
    run constructor
      [ (1000%Z, oneHand (pointAt 0.5 0.5 0.2));
        (1100%Z, oneHand (fistAt 0.5 0.5)) ]
    = Some (e1, [Swipe RIGHT])
    /\ state e1 = tracking
    /\ gestureStartTime e1 = Some 1100%Z
    /\ processFrame e1 1200 (oneHand (fistAt 0.55 0.5))
       = Some (e2, [Rotate dx dy])
    /\ dx = 0.125 /\ dy = 0
    /\ state e2 = rotating
    /\ lastMoveTime e2 = Some 1200%Z.
Proof.
  unfold pointAt, fistAt. do 4 eexists.
  split; [eval_run; reflexivity|].
  split; [reflexivity|]. split; [reflexivity|].
  split; [eval_frame|].
  split; [lra|]. split; [lra|]. split; reflexivity.
Qed.

(** ** Stillness *)

(** C9 fails on the code: a fist that never moves is latched at 1000 ms,
    is Rotating from 1100 ms on, and is still Rotating at 2000 ms, after
    900 ms without any movement: the last-move time was never recorded. *)
Theorem C9_still_hand_stays_rotating :
  exists e evs,
    run constructor
      [ (1000%Z, oneHand (fistAt 0.5 0.5));
        (1100%Z, oneHand (fistAt 0.5 0.5));
        (1500%Z, oneHand (fistAt 0.5 0.5));
        (2000%Z, oneHand (fistAt 0.5 0.5)) ]
    = Some (e, evs)
    /\ state e = rotating
    /\ lastMoveTime e = None
    /\ lastHandPosition e <> None
    /\ countEvents isReset evs = 0%nat.
Proof.
  unfold fistAt. do 2 eexists.
  split; [eval_run; reflexivity|].
  split; [reflexivity|]. split; [reflexivity|].
  split; [discriminate | reflexivity].
Qed.

Section StillFist.

(** A fist at [(x, y)], latched at time [t] with session start [(sx, sy)],
    that does not move afterwards. *)
Variables (x y sx sy : R) (t : Z).

(** One more frame of that fist: the engine is Rotating afterwards, and
    still has no last-move time. *)
Lemma still_fist_step (now : Z) (e : GestureEngine) :
  unmoved x y sx sy t e -> (now - t > 50)%Z ->
  exists e' evs,
    processFrame e now (oneHand (fistAt x y)) = Some (e', evs)
    /\ state e' = rotating
    /\ unmoved x y sx sy t e'.
Proof.
  intros (Hg & Hm & Hs & Hl) Hnow.
  rewrite processFrame_route. cbv [route oneHand multiHandLandmarks fistAt].
  rewrite handleSingleHandGestures_poseHand by assumption.
  cbn [classify filter List.length nth Nat.leb Nat.eqb andb orb negb
       switchStep bind isFistOrPoint].
  unfold rotateStep.
  cbn [lastHandPosition set_palmStartTime gestureStartTime lastMoveTime].
  rewrite Hl, Hs. cbn [toNumber pos_x pos_y lm_x lm_y].
  replace (now - t >? 50)%Z with true by (symmetry; apply Z.gtb_gt; lia).
  rewrite hypot_same. rewrite Rgtb_false by lra.
  cbn [lastMoveTime set_state set_palmStartTime]. rewrite Hm.
  cbn [truthy andb].
  do 2 eexists. split; [reflexivity|]. split; [reflexivity|].
  unfold unmoved. cbn. auto.
Qed.

(** However long the fist stays still, the engine stays Rotating. *)
Lemma still_fist_never_idles (times : list Z) :
  forall e : GestureEngine,
    unmoved x y sx sy t e ->
    Forall (fun now => (now - t > 50)%Z) times ->
    exists e' evs,
      run e (map (fun now => (now, oneHand (fistAt x y))) times)
      = Some (e', evs)
      /\ state e' = match times with [] => state e | _ :: _ => rotating end.
Proof.
  induction times as [|now rest IH]; intros e He Hall.
  - exists e, []. split; reflexivity.
  - inversion Hall as [|? ? Hnow Hrest]; subst.
    destruct (still_fist_step now e He Hnow) as (e1 & evs1 & E1 & St1 & He1).
    destruct (IH e1 He1 Hrest) as (e2 & evs2 & E2 & St2).
    exists e2, (evs1 ++ evs2). cbn [map run]. rewrite E1. cbn [bind].
    rewrite E2. cbn [bind]. split; [reflexivity|].
    rewrite St2. destruct rest; [assumption | reflexivity].
Qed.

End StillFist.

(** Where the last-move time is recorded, the stillness rule works: a
    frame without movement, more than 300 ms after the last movement,
    returns the engine to Idle and clears the anchors. *)
Lemma rotateStep_auto_idle (e : GestureEngine) (now t : Z) (tip : Point)
  (last : HandPosition) :
  lastHandPosition e = Some last ->
  hypot (lm_x tip - pos_x last) (lm_y tip - pos_y last) <= 0.002 ->
  lastMoveTime e = Some t -> (0 < t)%Z -> (now - t > 300)%Z ->
  exists e' evs,
    rotateStep e now tip = (e', evs)
    /\ state e' = idle
    /\ lastHandPosition e' = None
    /\ gestureStartTime e' = None
    /\ lastMoveTime e' = None.
Proof.
  intros Hl Hstill Ht Hpos Hgt. unfold rotateStep. rewrite Hl.
  rewrite Rgtb_false by assumption.
  assert (forall e1 : GestureEngine,
             lastMoveTime e1 = Some t ->
             truthy (lastMoveTime e1)
             && (now - toNumber (lastMoveTime e1) >? 300)%Z = true) as Hcond.
  { intros e1 H1. rewrite H1. cbn [truthy toNumber].
    apply andb_true_iff. split.
    - apply negb_true_iff, Z.eqb_neq. lia.
    - apply Z.gtb_gt. lia. }
  destruct (now - toNumber (gestureStartTime e) >? 50)%Z.
  - rewrite Hcond by exact Ht. unfold resetState. cbn.
    do 2 eexists. repeat split.
  - rewrite Hcond by exact Ht. unfold resetState. cbn.
    do 2 eexists. repeat split.
Qed.

(** The engine never leaves the unlocked states: a one-frame session. *)
Lemma C10_never_locked_witness :
  exists e evs,
    run constructor [(500%Z, oneHand (fistAt 0.5 0.5))] = Some (e, evs)
    /\ state e <> locked /\ ~ In Lock evs /\ ~ In Unlock evs.
Proof.
  destruct fist_then_tracking as (e & Hrun & _).
  exists e, []. split; [assumption|].
  exact (C10_never_locked _ e [] Hrun).
Defined.

(** ** Landmark smoothing *)

Lemma getHistory_setHistory_other (h : list (list Landmarks)) (i k : nat)
  (buf : list Landmarks) :
  k <> i -> getHistory (setHistory h i buf) k = getHistory h k.
Proof.
  unfold getHistory. revert h k.
  induction i as [|i IH]; intros h k Hne.
  - destruct k as [|k]; [contradiction|].
    destruct h as [|b rest]; cbn; [destruct k|]; reflexivity.
  - destruct h as [|b rest]; destruct k as [|k]; cbn [setHistory nth];
      try reflexivity.
    + rewrite IH by lia. destruct k; reflexivity.
    + apply IH. lia.
Qed.

Lemma getHistory_setHistory_same (h : list (list Landmarks)) (i : nat)
  (buf : list Landmarks) :
  getHistory (setHistory h i buf) i = buf.
Proof.
  unfold getHistory. revert h.
  induction i as [|i IH]; intros [|b rest]; cbn [setHistory nth];
    try reflexivity; apply IH.
Qed.

Lemma smoothLandmarks_other (t t' : HandTracker) (landmarks smoothed : Landmarks)
  (i k : nat) :
  smoothLandmarks t landmarks i = Some (t', smoothed) -> k <> i ->
  getHistory (landmarkHistory t') k = getHistory (landmarkHistory t) k
  /\ smoothingWindow t' = smoothingWindow t.
Proof.
  unfold smoothLandmarks. intros H Hne.
  destruct (average _ _); cbn [bind] in H; [|discriminate].
  injection H as <- <-. cbn [landmarkHistory smoothingWindow].
  split; [apply getHistory_setHistory_other; assumption | reflexivity].
Qed.

(** [handleResults] writes the buffers of the hand indices of the frame and
    no other. *)
Lemma smoothAll_above (hands : list Landmarks) :
  forall (t t' : HandTracker) (out : list Landmarks) (i k : nat),
    smoothAll t hands i = Some (t', out) ->
    (i + List.length hands <= k)%nat ->
    getHistory (landmarkHistory t') k = getHistory (landmarkHistory t) k
    /\ smoothingWindow t' = smoothingWindow t.
Proof.
  induction hands as [|landmarks rest IH]; intros t t' out i k H Hk.
  - cbn in H. injection H as <- <-. auto.
  - cbn [smoothAll] in H. cbn [List.length] in Hk.
    destruct (smoothLandmarks t landmarks i) as [[t1 s1]|] eqn:E1;
      cbn [bind] in H; [|discriminate].
    destruct (smoothAll t1 rest (S i)) as [[t2 others]|] eqn:E2;
      cbn [bind] in H; [|discriminate].
    injection H as <- <-.
    destruct (smoothLandmarks_other _ _ _ _ i k E1) as [H1 W1]; [lia|].
    destruct (IH _ _ _ _ k E2) as [H2 W2]; [lia|].
    split; congruence.
Qed.

Lemma handleResults_vacant (t t' : HandTracker) (results : Results)
  (out : option Results) (k : nat) :
  handleResults t results = Some (t', out) ->
  (List.length (multiHandLandmarks results) <= k)%nat ->
  getHistory (landmarkHistory t') k = getHistory (landmarkHistory t) k
  /\ smoothingWindow t' = smoothingWindow t.
Proof.
  unfold handleResults. intros H Hk.
  destruct (hasCallback t); cbn [negb] in H.
  - destruct (smoothAll t (multiHandLandmarks results) 0)
      as [[t1 smoothed]|] eqn:E; cbn [bind] in H; [|discriminate].
    injection H as <- <-. eapply smoothAll_above; [eassumption | lia].
  - injection H as <- <-. auto.
Qed.

Lemma Point_eta (p : Point) :
  mkPoint ((0 + lm_x p) / INR 1) ((0 + lm_y p) / INR 1) ((0 + lm_z p) / INR 1)
  = p.
Proof. destruct p as [x y z]. cbn [lm_x lm_y lm_z INR]. f_equal; field. Qed.

(** The average over the frame alone is the frame. *)
Lemma average_single_from (done rest : Landmarks) :
  imapM_from
    (fun (_ : Point) i =>
       '(sumX, sumY, sumZ) <- sumAt [done ++ rest] i (0, 0, 0) ;;
       let count := INR (List.length [done ++ rest]) in
       Some (mkPoint (sumX / count) (sumY / count) (sumZ / count)))
    (List.length done) rest
  = Some rest.
Proof.
  revert done. induction rest as [|p rest IH]; intros done; [reflexivity|].
  cbn [imapM_from sumAt].
  rewrite nth_error_app2 by lia. rewrite Nat.sub_diag. cbn [nth_error bind].
  cbn [List.length]. rewrite Point_eta.
  specialize (IH (done ++ [p])).
  rewrite <- app_assoc in IH. cbn [app] in IH.
  rewrite length_app in IH. cbn [List.length] in IH.
  rewrite Nat.add_1_r in IH. cbn [sumAt] in IH. rewrite IH. reflexivity.
Qed.

Lemma average_single (landmarks : Landmarks) :
  average [landmarks] landmarks = Some landmarks.
Proof. exact (average_single_from [] landmarks). Qed.

(** C5, amended: a frame on which a hand slot is vacant leaves the slot's
    smoothing buffer as it was (nothing clears it), so on the hand's
    re-appearance the first smoothed output is the mean over the buffer
    kept from before the vacancy with the new frame pushed; it equals the
    raw landmark set alone when that buffer was empty. *)
Theorem C5_vacancy_keeps_buffer (t t1 : HandTracker) (results : Results)
  (out : option Results) (k : nat) (landmarks : Landmarks) :
  handleResults t results = Some (t1, out) ->
  (List.length (multiHandLandmarks results) <= k)%nat ->
  getHistory (landmarkHistory t1) k = getHistory (landmarkHistory t) k
  /\ (forall t2 smoothed,
         smoothLandmarks t1 landmarks k = Some (t2, smoothed) ->
         average (pushFrame (smoothingWindow t)
                    (getHistory (landmarkHistory t) k) landmarks) landmarks
         = Some smoothed)
  /\ (getHistory (landmarkHistory t) k = [] ->
      (1 <= smoothingWindow t)%nat ->
      exists t2, smoothLandmarks t1 landmarks k = Some (t2, landmarks)).
Proof.
  intros H Hk.
  destruct (handleResults_vacant _ _ _ _ k H Hk) as [Hbuf Hwin].
  split; [assumption|]. split.
  - intros t2 smoothed Hs. unfold smoothLandmarks in Hs.
    rewrite Hbuf, Hwin in Hs.
    destruct (average _ _); cbn [bind] in Hs; [|discriminate].
    injection Hs as _ <-. reflexivity.
  - intros Hempty Hw. unfold smoothLandmarks.
    rewrite Hbuf, Hwin, Hempty. unfold pushFrame. cbn [app List.length].
    replace (smoothingWindow t <? 1)%nat with false
      by (symmetry; apply Nat.ltb_ge; assumption).
    rewrite average_single. cbn [bind]. eauto.
Qed.

Ltac eval_tracker :=
  cbv -[Rplus Rminus Rmult Rdiv Rinv Ropp IZR Rltb Rgtb Rabs Rmax Rmin
        hypot centerDistance sqrt INR].

(** A hand at x = 0.2, then a frame without hands: the buffer of slot 0
    still holds the hand. *)
Lemma vacancy_run :
  exists t1 out1 t2,
    handleResults newHandTracker (oneHand (fistAt 0.2 0.5)) = Some (t1, out1)
    /\ handleResults t1 noHands = Some (t2, Some noHands)
    /\ getHistory (landmarkHistory t1) 0 = [fistAt 0.2 0.5].
Proof.
  do 3 eexists. split; [eval_tracker; reflexivity|]. split; reflexivity.
Qed.

(** C5, as stated, fails: a hand at x = 0.2, a frame without hands, then a
    hand at x = 0.8.  The first smoothed output after the vacancy differs
    from the raw landmark set: its first landmark lies at x = 0.5, the mean
    of the frames before and after the vacancy. *)
Lemma C5_stale_frame_after_vacancy :
  exists t1 out1 t2 t3 out3,
    handleResults newHandTracker (oneHand (fistAt 0.2 0.5)) = Some (t1, out1)
    /\ handleResults t1 noHands = Some (t2, Some noHands)
    /\ handleResults t2 (oneHand (fistAt 0.8 0.5)) = Some (t3, Some out3)
    /\ multiHandLandmarks out3 <> [fistAt 0.8 0.5]
    /\ exists p rest others,
        multiHandLandmarks out3 = (p :: rest) :: others /\ lm_x p = 0.5.
Proof.
  do 5 eexists.
  split; [eval_tracker; reflexivity|].
  split; [reflexivity|].
  split; [eval_tracker; reflexivity|].
  split.
  - intros H.
    apply (f_equal (fun hands : list Landmarks =>
                      match hands with
                      | (p :: _) :: _ => lm_x p
                      | _ => 0
                      end)) in H.
    cbn [multiHandLandmarks lm_x fistAt poseHand INR] in H. lra.
  - do 3 eexists. split; [reflexivity|]. cbn [lm_x INR]. lra.
Qed.

(** The same vacancy against the amended statement. *)
Lemma C5_vacancy_keeps_buffer_witness :
  exists t1 out1 t2,
    handleResults newHandTracker (oneHand (fistAt 0.2 0.5)) = Some (t1, out1)
    /\ handleResults t1 noHands = Some (t2, Some noHands)
    /\ getHistory (landmarkHistory t2) 0 = [fistAt 0.2 0.5].
Proof.
  destruct vacancy_run as (t1 & out1 & t2 & H1 & H2 & Hbuf).
  exists t1, out1, t2. split; [assumption|]. split; [assumption|].
  destruct (C5_vacancy_keeps_buffer t1 t2 noHands (Some noHands) 0
              (fistAt 0.8 0.5) H2) as [Hkeep _].
  - cbn. lia.
  - rewrite Hkeep. assumption.
Defined.

(** * Further properties of the gesture engine *)

(** ** Frames without hands *)

Lemma run_no_hands (frames : list (Z * Results)) :
  forall e : GestureEngine,
    state e <> locked ->
    frames <> [] ->
    Forall (fun f : Z * Results => multiHandLandmarks (snd f) = []) frames ->
    exists e',
      run e frames = Some (e', [])
      /\ state e' = idle
      /\ lastHandPosition e' = None
      /\ pinchStartDistance e' = None
      /\ gestureStartTime e' = None
      /\ palmStartTime e' = palmStartTime e
      /\ switchCooldown e' = switchCooldown e
      /\ lastMoveTime e' = lastMoveTime e.
Proof.
  induction frames as [|[now results] rest IH]; intros e Hs Hne Hall;
    [contradiction|].
  inversion Hall as [|? ? Hempty Hrest]; subst. cbn [snd] in Hempty.
  assert (processFrame e now results = Some (resetState e)) as Hstep
      by (unfold processFrame; rewrite Hempty; reflexivity).
  rewrite resetState_unlocked in Hstep by assumption.
  cbn [run]. rewrite Hstep. cbn [bind].
  destruct rest as [|f rest'].
  - cbn [run bind app]. eexists. split; [reflexivity|]. cbn. auto 10.
  - destruct (IH (set_gestureStartTime None
                    (set_pinchStartDistance None
                       (set_lastHandPosition None (set_state idle e)))))
      as (e' & Hrun & Hfields); [discriminate | discriminate | assumption |].
    rewrite Hrun. cbn [bind app]. exists e'. split; [reflexivity|].
    exact Hfields.
Qed.

(** X1: whenever the hands leave the view, the engine goes Idle without
    emitting anything and drops the anchor, the pinch baseline and the
    gesture-start time, while the palm-hold timer, the swipe cooldown and
    the last-move time survive the absence. *)
Theorem no_hands_resets_quietly (history frames : list (Z * Results))
  (e : GestureEngine) (evs0 : list Event) :
  run constructor history = Some (e, evs0) ->
  frames <> [] ->
  Forall (fun f : Z * Results => multiHandLandmarks (snd f) = []) frames ->
  exists e',
    run e frames = Some (e', [])
    /\ state e' = idle
    /\ lastHandPosition e' = None
    /\ pinchStartDistance e' = None
    /\ gestureStartTime e' = None
    /\ palmStartTime e' = palmStartTime e
    /\ switchCooldown e' = switchCooldown e
    /\ lastMoveTime e' = lastMoveTime e.
Proof.
  intros Hrun Hne Hall.
  destruct (run_unlocked _ _ _ _ Hrun) as [Hs _]; [discriminate|].
  apply run_no_hands; assumption.
Qed.

(** A swipe at 1000 ms, then two frames without hands: the cooldown of the
    swipe is still recorded. *)
Lemma no_hands_resets_quietly_witness :
  exists e e',
    run constructor [(1000%Z, oneHand (pointAt 0.5 0.5 0.2))]
    = Some (e, [Swipe RIGHT])
    /\ run e [(1100%Z, noHands); (1200%Z, noHands)] = Some (e', [])
    /\ state e' = idle
    /\ switchCooldown e' = Some 1000%Z.
Proof.
  assert (exists e,
             run constructor [(1000%Z, oneHand (pointAt 0.5 0.5 0.2))]
             = Some (e, [Swipe RIGHT])
             /\ switchCooldown e = Some 1000%Z) as (e & Hrun & Hc).
  { unfold pointAt. eexists. split; [eval_run; reflexivity | reflexivity]. }
  destruct (no_hands_resets_quietly _ [(1100%Z, noHands); (1200%Z, noHands)]
              e _ Hrun) as (e' & Hrun' & Hs & _ & _ & _ & _ & Hc' & _).
  - discriminate.
  - repeat constructor.
  - exists e, e'. split; [assumption|]. split; [assumption|].
    split; [assumption | congruence].
Defined.

(** ** Zoom factors *)

Lemma handleTwoHandGestures_Zoom (e e' : GestureEngine)
  (hands : list Landmarks) (evs : list Event) (sf : R) :
  handleTwoHandGestures e hands = Some (e', evs) ->
  In (Zoom sf) evs ->
  0.775 <= sf <= 1.225 /\ Rabs (sf - 1) > 0.0005.
Proof.
  unfold handleTwoHandGestures. intros H Hin.
  destruct hands as [|hand1 [|hand2 rest]]; try discriminate.
  destruct (pinchStartDistance e) as [prev|];
    [| injection H as <- <-; contradiction].
  injection H as <- <-.
  destruct (Rgtb prev 0); [|contradiction].
  set (raw := Rmax 0.85 (Rmin 1.15 (centerDistance hand1 hand2 / prev))) in *.
  destruct (Rgtb_spec (Rabs (1 + (raw - 1) * 1.5 - 1.0)) 0.0005) as [Hgt|];
    [|contradiction].
  destruct Hin as [Heq | []]. injection Heq as <-.
  assert (0.85 <= raw <= 1.15) as Hraw.
  { unfold raw. split; [apply Rmax_l|].
    apply Rmax_lub; [lra | apply Rmin_l]. }
  split; [lra|].
  replace (1 + (raw - 1) * 1.5 - 1) with (1 + (raw - 1) * 1.5 - 1.0) by lra.
  assumption.
Qed.

Lemma In_count_pos (p : Event -> bool) (evs : list Event) (ev : Event) :
  In ev evs -> p ev = true -> countEvents p evs <> 0%nat.
Proof.
  intros Hin Hp Hz. rewrite (countEvents_zero_In p evs ev Hz Hin) in Hp.
  discriminate.
Qed.

Lemma processFrame_Zoom (e e' : GestureEngine) (now : Z) (results : Results)
  (evs : list Event) (sf : R) :
  processFrame e now results = Some (e', evs) ->
  In (Zoom sf) evs ->
  0.775 <= sf <= 1.225 /\ Rabs (sf - 1) > 0.0005.
Proof.
  rewrite processFrame_route. intros H Hin.
  destruct (route results) as [|landmarks|hands].
  - apply some_eq, resetState_frame in H.
    destruct H as (_ & _ & _ & _ & _ & _ & Hz).
    exfalso. exact (In_count_pos isZoom evs (Zoom sf) Hin eq_refl Hz).
  - apply handleSingleHandGestures_no_zoom in H. destruct H as [Hz _].
    exfalso. exact (In_count_pos isZoom evs (Zoom sf) Hin eq_refl Hz).
  - eapply handleTwoHandGestures_Zoom; eassumption.
Qed.

(** X2: every Zoom event of every session carries a scale factor between
    0.775 and 1.225 that is more than 0.0005 away from 1: one frame never
    scales by more than 22.5 percent, whatever the tracker reports. *)
Theorem zoom_factor_bounded (frames : list (Z * Results)) :
  forall (e e' : GestureEngine) (evs : list Event) (sf : R),
    run e frames = Some (e', evs) ->
    In (Zoom sf) evs ->
    0.775 <= sf <= 1.225 /\ Rabs (sf - 1) > 0.0005.
Proof.
  induction frames as [|[now results] rest IH]; intros e e' evs sf H Hin.
  - cbn in H. injection H as <- <-. contradiction.
  - cbn [run] in H.
    destruct (processFrame e now results) as [[e1 evs1]|] eqn:E1;
      cbn [bind] in H; [|discriminate].
    destruct (run e1 rest) as [[e2 evs2]|] eqn:E2;
      cbn [bind] in H; [|discriminate].
    injection H as <- <-.
    apply in_app_or in Hin as [Hin | Hin].
    + eapply processFrame_Zoom; eassumption.
    + eapply IH; eassumption.
Qed.

(** Two hands 0.4 apart, then 0.8 apart: the factor is capped at 1.225. *)
Lemma zoom_factor_bounded_witness :
  exists e sf,
    run constructor
      [ (1000%Z, twoHands (fistAt 0.3 0.5) (fistAt 0.7 0.5));
        (1033%Z, twoHands (fistAt 0.1 0.5) (fistAt 0.9 0.5)) ]
    = Some (e, [Zoom sf])
    /\ 0.775 <= sf <= 1.225.
Proof.
  assert (exists e sf,
             run constructor
               [ (1000%Z, twoHands (fistAt 0.3 0.5) (fistAt 0.7 0.5));
                 (1033%Z, twoHands (fistAt 0.1 0.5) (fistAt 0.9 0.5)) ]
             = Some (e, [Zoom sf])) as (e & sf & Hrun).
  { unfold fistAt. do 2 eexists.
    erewrite run_cons; [| eval_frame].
    erewrite run_cons.
    2:{ rewrite processFrame_route.
        cbv [route twoHands multiHandLandmarks multiHandedness map label].
        rewrite ?centerDistance_poseHand; rcompare.
        eval_includes; cbv [orb andb handleTwoHandGestures].
        rewrite ?centerDistance_poseHand.
        cbn [pinchStartDistance set_state set_pinchStartDistance constructor].
        rcompare.
        match goal with
        | |- context [Rmin 1.15 (?a / ?b)] =>
            replace a with 0.8 by lra; replace b with 0.4 by lra
        end.
        rewrite (Rmin_left 1.15) by lra. rewrite (Rmax_right 0.85) by lra.
        rcompare. reflexivity. }
    cbn [run bind app]. reflexivity. }
  exists e, sf. split; [assumption|].
  apply (zoom_factor_bounded _ constructor e [Zoom sf] sf Hrun).
  left. reflexivity.
Defined.

(** ** One frame, at most one event *)

Lemma processFrame_one_event (e e' : GestureEngine) (now : Z)
  (results : Results) (evs : list Event) :
  state e <> locked ->
  processFrame e now results = Some (e', evs) ->
  (List.length evs <= 1)%nat.
Proof.
  intros Hs. rewrite processFrame_route.
  destruct (route results) as [|landmarks|hands]; intros H.
  - rewrite resetState_unlocked in H by assumption.
    injection H as <- <-. cbn. lia.
  - unfold handleSingleHandGestures in H.
    destruct (_ && _); [injection H as <- <-; cbn; lia|].
    destruct (detectGesture landmarks) as [g|]; cbn [bind] in H;
      [|discriminate].
    assert (forall r : GestureEngine * list Event,
               (let e1 := set_palmStartTime None e in
                switched <- switchStep e1 now g landmarks ;;
                match switched with
                | Some result => Some result
                | None =>
                    if isFistOrPoint g then
                      indexTip <- nth_error landmarks 8 ;;
                      Some (rotateStep e1 now indexTip)
                    else Some (resetState e1)
                end) = Some r ->
               (List.length (snd r) <= 1)%nat) as Hrest.
    { intros [e2 evs2] Hr. cbn zeta in Hr. cbn [snd].
      unfold switchStep, rotateStep, resetState in Hr.
      crush_cases; cbn -[nth_error] in *; try locked_contra; try lia. }
    destruct g; try (apply (Hrest (e', evs)); exact H).
    apply some_eq in H. unfold palmStep, resetState in H.
    crush_cases; cbn in *; try locked_contra; try lia.
    all: exfalso; destruct (truthy (palmStartTime e)); cbn in *;
      locked_contra.
  - unfold handleTwoHandGestures in H. crush_cases; cbn; lia.
Qed.

Lemma run_length (frames : list (Z * Results)) :
  forall (e0 e : GestureEngine) (evs : list Event),
    state e0 <> locked ->
    run e0 frames = Some (e, evs) ->
    (List.length evs <= List.length frames)%nat.
Proof.
  induction frames as [|[now results] rest IH]; intros e0 e evs Hs H.
  - cbn in H. injection H as <- <-. cbn. lia.
  - cbn [run] in H.
    destruct (processFrame e0 now results) as [[e1 evs1]|] eqn:E1;
      cbn [bind] in H; [|discriminate].
    destruct (run e1 rest) as [[e2 evs2]|] eqn:E2;
      cbn [bind] in H; [|discriminate].
    injection H as <- <-.
    pose proof (processFrame_one_event _ _ _ _ _ Hs E1) as H1.
    destruct (processFrame_unlocked _ _ _ _ _ E1 Hs) as [Hs1 _].
    pose proof (IH _ _ _ Hs1 E2) as H2.
    rewrite length_app. cbn [List.length]. lia.
Qed.

(** X3: from the initial state every frame emits at most one event,
    whatever frames came before it, so that no two interactions fire on
    the same frame; hence a session never emits more events than it has
    frames. *)
Theorem one_event_per_frame (before : list (Z * Results)) (now : Z)
  (results : Results) (e e' : GestureEngine) (evs evs' : list Event) :
  run constructor before = Some (e, evs) ->
  processFrame e now results = Some (e', evs') ->
  (List.length evs' <= 1)%nat
  /\ (List.length (evs ++ evs')
      <= List.length (before ++ [(now, results)]))%nat.
Proof.
  intros Hrun Hstep.
  assert (Hs0 : state constructor <> locked) by discriminate.
  destruct (run_unlocked _ _ _ _ Hrun Hs0) as [Hs _].
  pose proof (processFrame_one_event _ _ _ _ _ Hs Hstep) as H1.
  pose proof (run_length _ _ _ _ Hs0 Hrun) as H2.
  split; [exact H1|]. rewrite !length_app. cbn [List.length]. lia.
Qed.

Lemma one_event_per_frame_witness :
  exists e e' evs evs',
    run constructor [(1000%Z, oneHand (fistAt 0.5 0.5))] = Some (e, evs)
    /\ processFrame e 1100 (oneHand (fistAt 0.55 0.5)) = Some (e', evs')
    /\ (List.length evs' <= 1)%nat
    /\ (List.length (evs ++ evs') <= 2)%nat.
Proof.
  assert (exists e e' dx dy,
             run constructor [(1000%Z, oneHand (fistAt 0.5 0.5))]
             = Some (e, [])
             /\ processFrame e 1100 (oneHand (fistAt 0.55 0.5))
                = Some (e', [Rotate dx dy]))
    as (e & e' & dx & dy & Hrun & Hstep).
  { unfold fistAt. do 4 eexists. split; [eval_run; reflexivity | eval_frame]. }
  exists e, e', [], [Rotate dx dy].
  split; [exact Hrun|]. split; [exact Hstep|].
  exact (one_event_per_frame _ _ _ _ _ _ _ Hrun Hstep).
Defined.

(** ** The handedness gate *)

Lemma includes_In (s : string) (l : list string) :
  includes s l = true <-> In s l.
Proof.
  unfold includes. rewrite existsb_exists. split.
  - intros (x & Hin & Heq). apply String.eqb_eq in Heq. subst. assumption.
  - intros Hin. exists s. split; [assumption | apply String.eqb_refl].
Qed.

(** X4: a frame zooms only when one detection is labelled Left (or left)
    and another Right (or right): without both labels, however many hands
    are seen and however far apart, the frame emits no Zoom event and
    records no pinch baseline. *)
Theorem zoom_needs_left_and_right (e e' : GestureEngine) (now : Z)
  (results : Results) (evs : list Event) :
  let labels := map label (multiHandedness results) in
  ~ ((In "Left"%string labels \/ In "left"%string labels)
     /\ (In "Right"%string labels \/ In "right"%string labels)) ->
  processFrame e now results = Some (e', evs) ->
  countEvents isZoom evs = 0%nat
  /\ (pinchStartDistance e' = pinchStartDistance e
      \/ pinchStartDistance e' = None).
Proof.
  intros labels Hno. rewrite processFrame_route.
  destruct (route results) as [|landmarks|hands] eqn:Er; intros H.
  - apply some_eq, resetState_frame in H. tauto.
  - eapply handleSingleHandGestures_no_zoom; eassumption.
  - exfalso. apply Hno. unfold route in Er.
    destruct (multiHandLandmarks results) as [|h1 [|h2 rest]];
      try discriminate.
    destruct (Rltb _ _); [discriminate|].
    fold labels in Er.
    destruct ((includes "Left" labels || includes "left" labels)
              && (includes "Right" labels || includes "right" labels))
      eqn:Eb; [|discriminate].
    apply andb_true_iff in Eb as [Hl Hr].
    apply orb_true_iff in Hl. apply orb_true_iff in Hr.
    rewrite !includes_In in Hl, Hr. tauto.
Qed.

(** Two hands 0.4 apart, both labelled Right. *)
Lemma zoom_needs_left_and_right_witness :
  exists e,
    processFrame constructor 1000
      (mkResults [fistAt 0.3 0.5; fistAt 0.7 0.5]
                 [mkHandedness "Right"; mkHandedness "Right"])
    = Some (e, [])
    /\ pinchStartDistance e = None.
Proof.
  assert (exists e,
             processFrame constructor 1000
               (mkResults [fistAt 0.3 0.5; fistAt 0.7 0.5]
                          [mkHandedness "Right"; mkHandedness "Right"])
             = Some (e, [])) as [e Hstep].
  { unfold fistAt. eexists. eval_frame. }
  exists e. split; [assumption|].
  destruct (zoom_needs_left_and_right constructor e 1000
              (mkResults [fistAt 0.3 0.5; fistAt 0.7 0.5]
                         [mkHandedness "Right"; mkHandedness "Right"]) [])
    as [_ Hp]; [| exact Hstep |].
  - cbn. intros [[Hl | Hl] _];
      repeat (destruct Hl as [Hl | Hl]; [discriminate Hl|]); contradiction.
  - destruct Hp as [Hp | Hp]; exact Hp.
Defined.

(** ** Rotation *)





Lemma handleSingleHandGestures_drag (e : GestureEngine) (now : Z)
  (landmarks : Landmarks) (g : Gesture) (tip : Point) :
  swipeCooldownTimestamp e = None ->
  detectGesture landmarks = Some g ->
  isFistOrPoint g = true ->
  ~ (g = point /\ horizontal landmarks) ->
  nth_error landmarks 8 = Some tip ->
  handleSingleHandGestures e now landmarks
  = Some (rotateStep (set_palmStartTime None e) now tip).
Proof.
  intros Hg Eg Hfp Hnh E8. unfold handleSingleHandGestures.
  rewrite Hg, Eg. cbn [truthy andb bind].
  destruct g; try discriminate Hfp.
  - cbn [switchStep bind isFistOrPoint]. rewrite E8. reflexivity.
  - rewrite switchStep_fold.
    destruct (nth_error_defined landmarks 5) as [mcp E5].
    { pose proof (detectGesture_length _ _ Eg). lia. }
    rewrite E5, E8. cbn [bind].
    destruct (horizontalb mcp tip) eqn:Eh.
    + exfalso. apply Hnh. split; [reflexivity|].
      apply (horizontalb_spec landmarks mcp tip E5 E8). assumption.
    + cbn [bind isFistOrPoint]. rewrite ?E8. reflexivity.
Qed.

Lemma rotateStep_moving (e : GestureEngine) (now : Z) (tip : Point)
  (last : HandPosition) :
  lastHandPosition e = Some last ->
  (now - toNumber (gestureStartTime e) > 50)%Z ->
  hypot (lm_x tip - pos_x last) (lm_y tip - pos_y last) > 0.002 ->
  rotateStep e now tip
  = (set_lastHandPosition
       (Some (mkHandPosition (lm_x tip) (lm_y tip) (startX last)
                (startY last)))
       (set_lastMoveTime (Some now) (set_state rotating e)),
     [Rotate ((lm_x tip - pos_x last) * 2.5)
             ((lm_y tip - pos_y last) * 2.5)]).
Proof.
  intros Hl Hgt Hmove. unfold rotateStep. rewrite Hl.
  replace (now - toNumber (gestureStartTime e) >? 50)%Z with true
    by (symmetry; apply Z.gtb_gt; lia).
  rewrite Rgtb_true by lra. reflexivity.
Qed.

(** X6: over frames that all come more than 50 ms after the gesture
    start, each showing a single hand in a rotating pose whose index tip
    is more than 0.002 away from the anchor the frame before left, every
    frame emits one Rotate and the rotations add up to 2.5 times the net
    displacement of the index tip from the first anchor, however the
    movement is cut into frames; the anchor follows the tip and keeps the
    session start.  (Frames within the first 50 ms are not covered: they
    move the anchor without emitting.) *)
Theorem drag_rotation_telescopes (t : Z) (from to : R * R)
  (frames : list (Z * Results)) :
  dragPath t from frames to ->
  forall (e : GestureEngine) (sx sy : R),
    swipeCooldownTimestamp e = None ->
    gestureStartTime e = Some t ->
    lastHandPosition e = Some (mkHandPosition (fst from) (snd from) sx sy) ->
    exists e' evs,
      run e frames = Some (e', evs)
      /\ fst (totalRotation evs) = (fst to - fst from) * 2.5
      /\ snd (totalRotation evs) = (snd to - snd from) * 2.5
      /\ lastHandPosition e'
         = Some (mkHandPosition (fst to) (snd to) sx sy)
      /\ (List.length evs = List.length frames)%nat.
Proof.
  induction 1 as [from | from to now tip results rest Hdrag Hnow Hmove Hpath IH];
    intros e sx sy Hg Ht Hl.
  - exists e, []. cbn. repeat split; try lra. destruct from; assumption.
  - destruct Hdrag as (landmarks & g & Er & Eg & Hfp & Hnh & E8).
    assert (processFrame e now results
            = Some (set_lastHandPosition
                      (Some (mkHandPosition (lm_x tip) (lm_y tip) sx sy))
                      (set_lastMoveTime (Some now)
                         (set_state rotating (set_palmStartTime None e))),
                    [Rotate ((lm_x tip - fst from) * 2.5)
                            ((lm_y tip - snd from) * 2.5)])) as Hstep.
    { rewrite processFrame_route, Er.
      rewrite (handleSingleHandGestures_drag e now landmarks g tip)
        by assumption.
      rewrite (rotateStep_moving _ now tip
                 (mkHandPosition (fst from) (snd from) sx sy));
        [reflexivity | exact Hl | cbn; rewrite Ht; cbn; lia | exact Hmove]. }
    destruct (IH (set_lastHandPosition
                    (Some (mkHandPosition (lm_x tip) (lm_y tip) sx sy))
                    (set_lastMoveTime (Some now)
                       (set_state rotating (set_palmStartTime None e))))
                sx sy Hg Ht eq_refl)
      as (e' & evs & Hrun & Hx & Hy & Hl' & Hlen).
    exists e', (Rotate ((lm_x tip - fst from) * 2.5)
                       ((lm_y tip - snd from) * 2.5) :: evs).
    cbn [run]. rewrite Hstep. cbn [bind]. rewrite Hrun. cbn [bind app].
    split; [reflexivity|].
    cbn [totalRotation fold_right fst snd] in *.
    fold (totalRotation evs). rewrite Hx, Hy. cbn [fst snd].
    repeat split; try lra; try assumption. cbn. lia.
Qed.

Lemma hypot_gt (a b c : R) :
  0 <= c -> c * c < a * a + b * b -> hypot a b > c.
Proof.
  intros Hc H. pose proof (Rgtb_hypot_true a b c Hc H) as Hb.
  destruct (Rgtb_spec (hypot a b) c); [assumption | discriminate].
Qed.

Lemma dragFrame_oneHand_fist (x y : R) :
  dragFrame (mkPoint (x + 0) (y + 0.1) 0) (oneHand (fistAt x y)).
Proof.
  exists (fistAt x y), fist.
  split; [reflexivity|].
  split; [apply detectGesture_poseHand|].
  split; [reflexivity|].
  split; [intros [Hp _]; discriminate Hp | reflexivity].
Qed.

Lemma fist_latched :
  exists e,
    run constructor [(1000%Z, oneHand (fistAt 0.5 0.5))] = Some (e, [])
    /\ swipeCooldownTimestamp e = None
    /\ gestureStartTime e = Some 1000%Z
    /\ lastHandPosition e
       = Some (mkHandPosition (0.5 + 0) (0.5 + 0.1) (0.5 + 0) (0.5 + 0.1)).
Proof.
  unfold fistAt. eexists. split; [eval_run; reflexivity|].
  repeat split.
Qed.

(** A fist latched at x = 0.5 moves to 0.55 and then to 0.6: the two
    Rotate events add up to 2.5 times 0.1. *)
Lemma drag_rotation_telescopes_witness :
  exists e e' evs,
    run constructor [(1000%Z, oneHand (fistAt 0.5 0.5))] = Some (e, [])
    /\ run e [ (1100%Z, oneHand (fistAt 0.55 0.5));
               (1200%Z, oneHand (fistAt 0.6 0.5)) ] = Some (e', evs)
    /\ fst (totalRotation evs) = 0.25.
Proof.
  destruct fist_latched as (e & Hrun & Hg & Ht & Hl).
  destruct (drag_rotation_telescopes 1000 (0.5 + 0, 0.5 + 0.1)
              (0.6 + 0, 0.5 + 0.1)
              [ (1100%Z, oneHand (fistAt 0.55 0.5));
                (1200%Z, oneHand (fistAt 0.6 0.5)) ])
    with (e := e) (sx := 0.5 + 0) (sy := 0.5 + 0.1)
    as (e' & evs & Hrun' & Hx & _).
  - apply (drag_move 1000 _ _ 1100 (mkPoint (0.55 + 0) (0.5 + 0.1) 0)).
    + apply dragFrame_oneHand_fist.
    + lia.
    + cbn [lm_x lm_y fst snd]. apply hypot_gt; lra.
    + apply (drag_move 1000 _ _ 1200 (mkPoint (0.6 + 0) (0.5 + 0.1) 0)).
      * apply dragFrame_oneHand_fist.
      * lia.
      * cbn [lm_x lm_y fst snd]. apply hypot_gt; lra.
      * apply drag_done.
  - exact Hg.
  - exact Ht.
  - exact Hl.
  - exists e, e', evs. split; [assumption|]. split; [assumption|].
    rewrite Hx. cbn [fst]. lra.
Defined.

(** ** Swipes *)

Lemma processFrame_switchCooldown (e e' : GestureEngine) (now : Z)
  (results : Results) (evs : list Event) :
  swipeCooldownTimestamp e = None ->
  processFrame e now results = Some (e', evs) ->
  (switchCooldown e' = switchCooldown e /\ countEvents isSwipe evs = 0%nat)
  \/ (switchCooldown e' = Some now /\ cooldownOver e now = true
      /\ state e' = switching).
Proof.
  intros Hg. rewrite processFrame_route.
  destruct (route results) as [|landmarks|hands]; intros H.
  - apply some_eq, resetState_frame in H. left. tauto.
  - destruct (handleSingleHandGestures_inv _ _ _ _ _ Hg H)
      as (g & _ & [[_ Hp] | [(_ & _ & Hc & -> & _) | [(_ & _ & _ & -> & ->)
                  | (_ & _ & [[tip Hr] | Hr])]]]).
    + apply palmStep_frame in Hp. left. tauto.
    + right. auto.
    + left. auto.
    + apply rotateStep_frame in Hr. cbn in Hr. left. tauto.
    + apply resetState_frame in Hr. cbn in Hr. left. tauto.
  - apply handleTwoHandGestures_frame in H. left. tauto.
Qed.

(** After a swipe at a positive time [t1], the cooldown field holds the
    time of the latest swipe, which is not before [t1]. *)
Lemma run_switchCooldown_after (t1 : Z) (frames : list (Z * Results)) :
  forall (e e' : GestureEngine) (evs : list Event) (t : Z),
    swipeCooldownTimestamp e = None ->
    switchCooldown e = Some t -> (0 < t1 <= t)%Z ->
    run e frames = Some (e', evs) ->
    exists t', switchCooldown e' = Some t' /\ (t1 <= t')%Z.
Proof.
  induction frames as [|[now results] rest IH]; intros e e' evs t Hg Hc Ht H.
  - cbn in H. injection H as <- <-. exists t. split; [assumption | lia].
  - cbn [run] in H.
    destruct (processFrame e now results) as [[e1 evs1]|] eqn:E1;
      cbn [bind] in H; [|discriminate].
    destruct (run e1 rest) as [[e2 evs2]|] eqn:E2;
      cbn [bind] in H; [|discriminate].
    injection H as <- <-.
    pose proof (processFrame_swipeCooldownTimestamp _ _ _ _ _ E1 Hg) as Hg1.
    destruct (processFrame_switchCooldown _ _ _ _ _ Hg E1)
      as [[Hsame _] | (Hnew & Hover & _)].
    + eapply (IH e1 _ _ t); [assumption | congruence | assumption | eassumption].
    + unfold cooldownOver in Hover. rewrite Hc in Hover.
      cbn [truthy toNumber] in Hover.
      replace (t =? 0)%Z with false in Hover
        by (symmetry; apply Z.eqb_neq; lia).
      cbn [negb orb] in Hover. apply Z.gtb_gt in Hover.
      eapply (IH e1 _ _ now); [assumption | assumption | lia | eassumption].
Qed.

(** X7: any two Swipe events of a session are more than 1200 ms apart,
    whatever happens in between (frames without hands, resets, two-hand
    frames): the cooldown survives every state reset.  The clock reading of
    the earlier swipe is positive, as those of Date.now() are. *)
Theorem swipes_more_than_1200_apart (pre mid : list (Z * Results))
  (t1 t2 : Z) (r1 r2 : Results) (e0 e1 e2 e3 : GestureEngine)
  (evs0 evs1 evs2 evs3 : list Event) (d1 d2 : Direction) :
  run constructor pre = Some (e0, evs0) ->
  processFrame e0 t1 r1 = Some (e1, evs1) ->
  run e1 mid = Some (e2, evs2) ->
  processFrame e2 t2 r2 = Some (e3, evs3) ->
  In (Swipe d1) evs1 -> In (Swipe d2) evs3 ->
  (0 < t1)%Z ->
  (t2 - t1 > 1200)%Z.
Proof.
  intros Hpre H1 Hmid H2 Hin1 Hin2 Hpos.
  pose proof (swipeCooldownTimestamp_never_set _ _ _ Hpre) as Hg0.
  pose proof (processFrame_swipeCooldownTimestamp _ _ _ _ _ H1 Hg0) as Hg1.
  pose proof (run_swipeCooldownTimestamp _ _ _ _ Hmid Hg1) as Hg2.
  destruct (processFrame_switchCooldown _ _ _ _ _ Hg0 H1)
    as [[_ Hz] | (Hc1 & _)].
  { exfalso. exact (In_count_pos isSwipe evs1 _ Hin1 eq_refl Hz). }
  destruct (run_switchCooldown_after t1 mid e1 e2 evs2 t1 Hg1 Hc1)
    as (t' & Hc2 & Hle); [lia | assumption |].
  destruct (processFrame_switchCooldown _ _ _ _ _ Hg2 H2)
    as [[_ Hz] | (_ & Hover & _)].
  { exfalso. exact (In_count_pos isSwipe evs3 _ Hin2 eq_refl Hz). }
  unfold cooldownOver in Hover. rewrite Hc2 in Hover.
  cbn [truthy toNumber] in Hover.
  replace (t' =? 0)%Z with false in Hover
    by (symmetry; apply Z.eqb_neq; lia).
  cbn [negb orb] in Hover. apply Z.gtb_gt in Hover. lia.
Qed.

(** Swipes at 1000 ms and at 2300 ms, with the hands gone in between. *)
Lemma swipes_more_than_1200_apart_witness :
  exists e1 e2 e3,
    processFrame constructor 1000 (oneHand (pointAt 0.5 0.5 0.2))
    = Some (e1, [Swipe RIGHT])
    /\ run e1 [(1500%Z, noHands)] = Some (e2, [])
    /\ processFrame e2 2300 (oneHand (pointAt 0.5 0.5 (- 0.2)))
       = Some (e3, [Swipe LEFT])
    /\ (2300 - 1000 > 1200)%Z.
Proof.
  assert (exists e1 e2 e3,
             processFrame constructor 1000 (oneHand (pointAt 0.5 0.5 0.2))
             = Some (e1, [Swipe RIGHT])
             /\ run e1 [(1500%Z, noHands)] = Some (e2, [])
             /\ processFrame e2 2300 (oneHand (pointAt 0.5 0.5 (- 0.2)))
                = Some (e3, [Swipe LEFT]))
    as (e1 & e2 & e3 & H1 & Hmid & H2).
  { unfold pointAt. do 3 eexists.
    split; [eval_frame|]. split; [eval_run; reflexivity | eval_frame]. }
  exists e1, e2, e3. split; [assumption|]. split; [assumption|].
  split; [assumption|].
  apply (swipes_more_than_1200_apart [] [(1500%Z, noHands)] 1000 2300
           _ _ constructor e1 e2 e3 [] _ _ _ RIGHT LEFT eq_refl H1 Hmid H2).
  - left. reflexivity.
  - left. reflexivity.
  - lia.
Defined.

(** ** Centroids *)

Lemma fold_left_sum_bounds (f : Point -> R) (a b : R) (landmarks : Landmarks) :
  forall acc : R,
    Forall (fun p => a <= f p <= b) landmarks ->
    acc + INR (List.length landmarks) * a
    <= fold_left (fun s p => s + f p) landmarks acc
    <= acc + INR (List.length landmarks) * b.
Proof.
  induction landmarks as [|p rest IH]; intros acc Hall.
  - cbn. lra.
  - inversion Hall as [|? ? Hp Hrest]; subst.
    cbn [fold_left]. specialize (IH (acc + f p) Hrest).
    change (List.length (p :: rest)) with (S (List.length rest)).
    rewrite S_INR. lra.
Qed.

(** X8: the centre of a hand lies inside the bounding box of its
    landmarks: with every landmark in [xmin, xmax] x [ymin, ymax], so is
    the centre (for normalised landmarks it stays within the unit square). *)
Theorem getHandCenter_in_bounding_box (landmarks : Landmarks)
  (xmin xmax ymin ymax : R) :
  landmarks <> [] ->
  Forall (fun p => xmin <= lm_x p <= xmax /\ ymin <= lm_y p <= ymax)
         landmarks ->
  xmin <= fst (getHandCenter landmarks) <= xmax
  /\ ymin <= snd (getHandCenter landmarks) <= ymax.
Proof.
  intros Hne Hall. unfold getHandCenter. cbn [fst snd].
  assert (0 < INR (List.length landmarks)) as Hn.
  { apply lt_0_INR. destruct landmarks; [contradiction | cbn; lia]. }
  assert (Forall (fun p => xmin <= lm_x p <= xmax) landmarks) as Hx
      by (eapply Forall_impl; [|exact Hall]; cbn; tauto).
  assert (Forall (fun p => ymin <= lm_y p <= ymax) landmarks) as Hy
      by (eapply Forall_impl; [|exact Hall]; cbn; tauto).
  pose proof (fold_left_sum_bounds lm_x xmin xmax landmarks 0 Hx) as Bx.
  pose proof (fold_left_sum_bounds lm_y ymin ymax landmarks 0 Hy) as By.
  set (n := INR (List.length landmarks)) in *.
  set (sx := fold_left (fun s p => s + lm_x p) landmarks 0) in *.
  set (sy := fold_left (fun s p => s + lm_y p) landmarks 0) in *.
  assert (/ n > 0) as Hinv by (apply Rinv_0_lt_compat; assumption).
  unfold Rdiv.
  assert (forall lo s hi : R, 0 + n * lo <= s <= 0 + n * hi ->
                              lo <= s * / n <= hi) as Hdiv.
  { intros lo s hi [Hlo Hhi]. split.
    - apply Rmult_le_reg_r with n; [assumption|].
      rewrite Rmult_assoc, Rinv_l by lra. lra.
    - apply Rmult_le_reg_r with n; [assumption|].
      rewrite Rmult_assoc, Rinv_l by lra. lra. }
  split; apply Hdiv; assumption.
Qed.

Lemma getHandCenter_in_bounding_box_witness :
  0 <= fst (getHandCenter (fistAt 0.5 0.5)) <= 1
  /\ 0 <= snd (getHandCenter (fistAt 0.5 0.5)) <= 1.
Proof.
  apply getHandCenter_in_bounding_box.
  - discriminate.
  - unfold fistAt, poseHand. repeat constructor; cbn [lm_x lm_y]; lra.
Defined.

(** * The event bus and the application handlers *)

Lemma callbackFor_on_same {H : Type} (event : string) (callback : H)
  (cbs : Callbacks H) :
  callbackFor (on event callback cbs) event = Some callback.
Proof.
  unfold callbackFor, on. cbn [find fst]. rewrite String.eqb_refl. reflexivity.
Qed.

Lemma find_filter_other {H : Type} (event other : string) (cbs : Callbacks H) :
  other <> event ->
  find (fun entry => String.eqb (fst entry) other)
       (filter (fun entry => negb (String.eqb (fst entry) event)) cbs)
  = find (fun entry => String.eqb (fst entry) other) cbs.
Proof.
  intros Hne. induction cbs as [|[name h] rest IH]; [reflexivity|].
  cbn [filter find fst].
  destruct (String.eqb_spec name event) as [-> | Hn]; cbn [negb].
  - replace (String.eqb event other) with false
      by (symmetry; apply String.eqb_neq; congruence).
    exact IH.
  - cbn [find fst]. destruct (String.eqb name other); [reflexivity | exact IH].
Qed.

Lemma callbackFor_on_other {H : Type} (event other : string) (callback : H)
  (cbs : Callbacks H) :
  other <> event ->
  callbackFor (on event callback cbs) other = callbackFor cbs other.
Proof.
  intros Hne. unfold callbackFor, on. cbn [find fst].
  replace (String.eqb event other) with false
    by (symmetry; apply String.eqb_neq; congruence).
  rewrite find_filter_other by assumption. reflexivity.
Qed.

(** The names under which a registry holds a callback. *)
Lemma on_names {H : Type} (event : string) (callback : H) (cbs : Callbacks H) :
  NoDup (map fst cbs) -> NoDup (map fst (on event callback cbs)).
Proof.
  intros Hnd. unfold on. cbn [map fst]. constructor.
  - intros Hin. apply in_map_iff in Hin as ([name h] & Heq & Hin).
    cbn [fst] in Heq. subst name.
    apply filter_In in Hin as [_ Hneq]. cbn [fst] in Hneq.
    rewrite String.eqb_refl in Hneq. discriminate Hneq.
  - induction cbs as [|[name h] rest IH]; [constructor|].
    cbn [map fst] in Hnd. inversion Hnd as [|? ? Hnotin Hrest]; subst.
    cbn [filter fst]. destruct (negb (String.eqb name event)).
    + cbn [map fst]. constructor; [|apply IH; assumption].
      intros Hin. apply Hnotin.
      apply in_map_iff in Hin as (entry & Heq & Hin).
      apply filter_In in Hin as [Hin _].
      apply in_map_iff. exists entry. auto.
    + apply IH. assumption.
Qed.

(** X9: the event bus keeps one callback per event name and the last
    registration wins: after [on], [emit] of that name reaches the new
    callback, every other name reaches what it reached before, and no name
    is held twice. *)
Theorem on_replaces_callback {H : Type} (event : string) (callback : H)
  (cbs : Callbacks H) (ev : Event) :
  NoDup (map fst cbs) ->
  emit (on event callback cbs) ev
  = (if String.eqb (eventName ev) event then Some callback else emit cbs ev)
  /\ NoDup (map fst (on event callback cbs)).
Proof.
  intros Hnd. split; [|apply on_names; assumption].
  unfold emit. destruct (String.eqb_spec (eventName ev) event) as [-> | Hne].
  - apply callbackFor_on_same.
  - apply callbackFor_on_other. assumption.
Qed.

Lemma on_replaces_callback_witness :
  emit (on "zoom" 2%nat (on "zoom" 1%nat [])) (Zoom 1.1) = Some 2%nat
  /\ List.length (on "zoom" 2%nat (on "zoom" 1%nat [])) = 1%nat.
Proof.
  destruct (on_replaces_callback "zoom" 2%nat (on "zoom" 1%nat []) (Zoom 1.1))
    as [Hemit _].
  - apply on_names. constructor.
  - split; [exact Hemit | reflexivity].
Defined.

(** Setting the handlers up again (as the application does when its
    mode changes) replaces them: every event is handled once, by the
    handlers of the latest mode, exactly as if they had been registered on
    an empty engine; Lock and Unlock have no handler at all. *)
Theorem setupGestureHandlers_again (mode1 mode2 : App.AppMode) (ev : Event)
  (s : App.State) :
  App.step (App.setupGestureHandlers mode2
              (App.setupGestureHandlers mode1 [])) s (App.Emitted ev)
  = App.step (App.setupGestureHandlers mode2 []) s (App.Emitted ev)
  /\ List.length (App.setupGestureHandlers mode2
                    (App.setupGestureHandlers mode1 [])) = 4%nat
  /\ App.step (App.setupGestureHandlers mode2 []) s (App.Emitted Lock) = s
  /\ App.step (App.setupGestureHandlers mode2 []) s (App.Emitted Unlock) = s.
Proof.
  repeat split; destruct ev; reflexivity.
Qed.

(** ** The zoom scale *)

Lemma onZoom_scale (ev : Event) (s : App.State) :
  0.3 <= App.scale (App.transform s) <= 3 ->
  0.3 <= App.scale (App.transform (App.onZoom ev s)) <= 3.
Proof.
  intros H. unfold App.onZoom. destruct ev; try assumption.
  destruct (App.isLocked (App.transform s)); [assumption|].
  cbn [App.transform App.scale]. split; [apply Rmax_l|].
  apply Rmax_lub; [lra | apply Rmin_l].
Qed.

Lemma emit_setupGestureHandlers (mode : App.AppMode) (ev : Event) :
  emit (App.setupGestureHandlers mode []) ev
  = match ev with
    | Zoom _ => Some App.onZoom
    | Rotate _ _ => Some (App.onRotate mode)
    | Swipe _ => Some (App.onSwipe mode)
    | Reset => Some App.onReset
    | Lock | Unlock => None
    end.
Proof. destruct ev; reflexivity. Qed.

Lemma step_scale (mode : App.AppMode) (s : App.State) (a : App.Action) :
  0.3 <= App.scale (App.transform s) <= 3 ->
  0.3 <= App.scale
           (App.transform (App.step (App.setupGestureHandlers mode []) s a))
      <= 3.
Proof.
  intros H. destruct a as [ev|]; cbn [App.step].
  - rewrite emit_setupGestureHandlers.
    destruct ev; try assumption.
    + apply onZoom_scale. assumption.
    + unfold App.onRotate.
      destruct (App.isLocked (App.transform s)); assumption.
    + unfold App.onSwipe. destruct mode; [destruct direction|]; assumption.
    + cbn. lra.
  - cbn. lra.
Qed.

(** X11: whatever the engine emits and whenever model data arrive, the
    zoom scale of the application stays between 0.3 and 3. *)
Theorem app_scale_bounded (mode : App.AppMode) (actions : list App.Action) :
  forall s : App.State,
    0.3 <= App.scale (App.transform s) <= 3 ->
    0.3 <= App.scale
             (App.transform
                (App.steps (App.setupGestureHandlers mode []) s actions))
        <= 3.
Proof.
  induction actions as [|a rest IH]; intros s H; [exact H|].
  unfold App.steps. cbn [fold_left]. apply IH. apply step_scale. assumption.
Qed.

Lemma app_scale_bounded_witness :
  0.3 <= App.scale
           (App.transform
              (App.steps (App.setupGestureHandlers App.showcase []) App.initial
                 [App.Emitted (Zoom 1.225); App.Emitted (Swipe RIGHT);
                  App.ModelLoaded; App.Emitted (Zoom 0.775)]))
      <= 3.
Proof.
  apply app_scale_bounded. cbn. lra.
Defined.

(** * The model index *)

Lemma rem_small (a n : Z) : (0 <= a < n)%Z -> Z.rem a n = a.
Proof. intros H. apply Z.rem_small. assumption. Qed.

Lemma nextModel_index (m : ModelManager.t) :
  (0 <= ModelManager.currentIndex m < ModelManager.getModelCount m)%Z ->
  ModelManager.currentIndex (ModelManager.nextModel m)
  = (if (ModelManager.currentIndex m + 1 =? ModelManager.getModelCount m)%Z
     then 0 else ModelManager.currentIndex m + 1)%Z.
Proof.
  intros H. cbn [ModelManager.nextModel ModelManager.currentIndex].
  destruct (Z.eqb_spec (ModelManager.currentIndex m + 1)
              (ModelManager.getModelCount m)) as [-> | Hne].
  - apply Z.rem_same. lia.
  - apply rem_small. lia.
Qed.

Lemma prevModel_index (m : ModelManager.t) :
  (0 <= ModelManager.currentIndex m < ModelManager.getModelCount m)%Z ->
  ModelManager.currentIndex (ModelManager.prevModel m)
  = (if (ModelManager.currentIndex m =? 0)%Z
     then ModelManager.getModelCount m - 1
     else ModelManager.currentIndex m - 1)%Z.
Proof.
  intros H. cbn [ModelManager.prevModel ModelManager.currentIndex].
  set (n := ModelManager.getModelCount m) in *.
  set (i := ModelManager.currentIndex m) in *.
  destruct (Z.eqb_spec i 0) as [-> | Hne].
  - replace (0 - 1 + n)%Z with (n - 1)%Z by lia. apply rem_small. lia.
  - rewrite Z.rem_mod_nonneg by lia.
    replace (i - 1 + n)%Z with (i - 1 + 1 * n)%Z by lia.
    rewrite Z.mod_add by lia. apply Z.mod_small. lia.
Qed.

Lemma ModelManager_eta (m : ModelManager.t) (i : Z) :
  i = ModelManager.currentIndex m ->
  ModelManager.mk (ModelManager.models m) i = m.
Proof. intros ->. destruct m; reflexivity. Qed.

(** X12: with the index inside the model list, [nextModel] and [prevModel]
    keep it inside (wrapping at both ends) and undo each other: going to
    the next model and back shows the model one started from. *)
Theorem nextModel_prevModel_inverse (m : ModelManager.t) :
  (0 <= ModelManager.currentIndex m < ModelManager.getModelCount m)%Z ->
  (0 <= ModelManager.currentIndex (ModelManager.nextModel m)
   < ModelManager.getModelCount m)%Z
  /\ (0 <= ModelManager.currentIndex (ModelManager.prevModel m)
      < ModelManager.getModelCount m)%Z
  /\ ModelManager.prevModel (ModelManager.nextModel m) = m
  /\ ModelManager.nextModel (ModelManager.prevModel m) = m.
Proof.
  intros H.
  pose proof (nextModel_index m H) as Hn.
  pose proof (prevModel_index m H) as Hp.
  assert (0 <= ModelManager.currentIndex (ModelManager.nextModel m)
          < ModelManager.getModelCount m)%Z as Rn.
  { rewrite Hn. destruct (Z.eqb_spec (ModelManager.currentIndex m + 1)
                            (ModelManager.getModelCount m)); lia. }
  assert (0 <= ModelManager.currentIndex (ModelManager.prevModel m)
          < ModelManager.getModelCount m)%Z as Rp.
  { rewrite Hp. destruct (Z.eqb_spec (ModelManager.currentIndex m) 0); lia. }
  split; [exact Rn|]. split; [exact Rp|]. split.
  - pose proof (prevModel_index (ModelManager.nextModel m) Rn) as Hpn.
    unfold ModelManager.prevModel at 1.
    change (ModelManager.models (ModelManager.nextModel m))
      with (ModelManager.models m).
    apply ModelManager_eta.
    change (Z.rem _ _)
      with (ModelManager.currentIndex
              (ModelManager.prevModel (ModelManager.nextModel m))).
    rewrite Hpn, Hn.
    change (ModelManager.getModelCount (ModelManager.nextModel m))
      with (ModelManager.getModelCount m).
    destruct (Z.eqb_spec (ModelManager.currentIndex m + 1)
                (ModelManager.getModelCount m)) as [E | E].
    + cbn [Z.eqb]. lia.
    + destruct (Z.eqb_spec (ModelManager.currentIndex m + 1) 0); lia.
  - pose proof (nextModel_index (ModelManager.prevModel m) Rp) as Hnp.
    unfold ModelManager.nextModel at 1.
    change (ModelManager.models (ModelManager.prevModel m))
      with (ModelManager.models m).
    apply ModelManager_eta.
    change (Z.rem _ _)
      with (ModelManager.currentIndex
              (ModelManager.nextModel (ModelManager.prevModel m))).
    rewrite Hnp, Hp.
    change (ModelManager.getModelCount (ModelManager.prevModel m))
      with (ModelManager.getModelCount m).
    destruct (Z.eqb_spec (ModelManager.currentIndex m) 0) as [E | E].
    + replace (ModelManager.getModelCount m - 1 + 1
               =? ModelManager.getModelCount m)%Z with true
        by (symmetry; apply Z.eqb_eq; lia).
      lia.
    + destruct (Z.eqb_spec (ModelManager.currentIndex m - 1 + 1)
                  (ModelManager.getModelCount m)); lia.
Qed.

Lemma nextModel_prevModel_inverse_witness :
  ModelManager.prevModel (ModelManager.nextModel ModelManager.init)
  = ModelManager.init.
Proof.
  apply (nextModel_prevModel_inverse ModelManager.init). cbn. lia.
Defined.

Lemma iter_nextModel_index (k : nat) (m : ModelManager.t) :
  (0 <= ModelManager.currentIndex m < ModelManager.getModelCount m)%Z ->
  ModelManager.models (Nat.iter k ModelManager.nextModel m)
  = ModelManager.models m
  /\ ModelManager.currentIndex (Nat.iter k ModelManager.nextModel m)
     = ((ModelManager.currentIndex m + Z.of_nat k)
        mod ModelManager.getModelCount m)%Z.
Proof.
  intros H. induction k as [|k [IHm IHi]].
  - cbn [Nat.iter]. split; [reflexivity|].
    rewrite Z.add_0_r. symmetry. apply Z.mod_small. assumption.
  - cbn [Nat.iter]. split; [exact IHm|].
    set (mk := Nat.iter k ModelManager.nextModel m) in *.
    assert (ModelManager.getModelCount mk = ModelManager.getModelCount m)
      as Hc by (unfold ModelManager.getModelCount; rewrite IHm; reflexivity).
    change (Nat.iter (S k) ModelManager.nextModel m)
      with (ModelManager.nextModel mk).
    cbn [ModelManager.nextModel ModelManager.currentIndex].
    rewrite Hc, IHi.
    rewrite Z.rem_mod_nonneg.
    + rewrite Zplus_mod_idemp_l. f_equal. lia.
    + pose proof (Z.mod_pos_bound
                    (ModelManager.currentIndex m + Z.of_nat k)
                    (ModelManager.getModelCount m)). lia.
    + lia.
Qed.

(** X13: going to the next model as many times as there are models comes
    back to the model one started from: the index runs through the whole
    list, and the list itself is never changed. *)
Theorem nextModel_full_cycle (m : ModelManager.t) :
  (0 <= ModelManager.currentIndex m < ModelManager.getModelCount m)%Z ->
  Nat.iter (List.length (ModelManager.models m)) ModelManager.nextModel m = m.
Proof.
  intros H.
  destruct (iter_nextModel_index (List.length (ModelManager.models m)) m H)
    as [Hm Hi].
  set (r := Nat.iter _ _ _) in *.
  destruct r as [ms i]. cbn [ModelManager.models ModelManager.currentIndex] in *.
  subst ms. apply ModelManager_eta. rewrite Hi.
  change (Z.of_nat (List.length (ModelManager.models m)))
    with (ModelManager.getModelCount m).
  replace (ModelManager.currentIndex m + ModelManager.getModelCount m)%Z
    with (ModelManager.currentIndex m + 1 * ModelManager.getModelCount m)%Z
    by lia.
  rewrite Z.mod_add by lia. apply Z.mod_small. assumption.
Qed.

Lemma nextModel_full_cycle_witness :
  Nat.iter 4 ModelManager.nextModel ModelManager.init = ModelManager.init.
Proof.
  apply (nextModel_full_cycle ModelManager.init). cbn. lia.
Defined.

(** X14: in showcase mode a swipe to the right followed by a swipe to the
    left (or the other way round) leaves the application on the model it
    showed before; in user mode swipes do not change the model at all. *)
Theorem swipe_right_then_left (s : App.State) (d : Direction) :
  (0 <= ModelManager.currentIndex (App.manager s)
   < ModelManager.getModelCount (App.manager s))%Z ->
  let opposite := match d with RIGHT => LEFT | LEFT => RIGHT end in
  App.manager
    (App.steps (App.setupGestureHandlers App.showcase []) s
       [App.Emitted (Swipe d); App.Emitted (Swipe opposite)])
  = App.manager s
  /\ App.manager
       (App.steps (App.setupGestureHandlers App.user []) s
          [App.Emitted (Swipe d)])
     = App.manager s.
Proof.
  intros H opposite.
  destruct (nextModel_prevModel_inverse (App.manager s) H)
    as (_ & _ & Hpn & Hnp).
  split; [|reflexivity].
  destruct d; cbn; assumption.
Qed.

Lemma swipe_right_then_left_witness :
  App.manager
    (App.steps (App.setupGestureHandlers App.showcase []) App.initial
       [App.Emitted (Swipe RIGHT); App.Emitted (Swipe LEFT)])
  = ModelManager.init.
Proof.
  apply (swipe_right_then_left App.initial RIGHT). cbn. lia.
Defined.

(** * Further properties of the landmark smoother *)

(** ** Bounded memory *)

Lemma pushFrame_length (w : nat) (buf : list Landmarks) (landmarks : Landmarks) :
  (List.length buf <= w)%nat ->
  (List.length (pushFrame w buf landmarks) <= w)%nat.
Proof.
  intros H. unfold pushFrame.
  destruct (Nat.ltb_spec w (List.length (buf ++ [landmarks]))) as [Hlt | Hge].
  - rewrite length_app in Hlt. cbn [List.length] in Hlt.
    destruct buf as [|f rest]; cbn [app tl List.length] in *; [lia|].
    rewrite length_app. cbn [List.length]. lia.
  - assumption.
Qed.

Lemma setHistory_Forall (P : list Landmarks -> Prop) (h : list (list Landmarks))
  (i : nat) (buf : list Landmarks) :
  P [] -> P buf -> Forall P h -> Forall P (setHistory h i buf).
Proof.
  intros Hnil Hbuf. revert h.
  induction i as [|i IH]; intros [|b rest] Hall; cbn [setHistory].
  - repeat constructor; assumption.
  - inversion Hall; subst. constructor; assumption.
  - constructor; [assumption | apply IH; constructor].
  - inversion Hall; subst. constructor; [assumption | apply IH; assumption].
Qed.

Lemma getHistory_Forall (P : list Landmarks -> Prop) (h : list (list Landmarks))
  (i : nat) :
  P [] -> Forall P h -> P (getHistory h i).
Proof.
  intros Hnil Hall. unfold getHistory.
  destruct (Nat.lt_ge_cases i (List.length h)) as [Hlt | Hge].
  - rewrite Forall_forall in Hall. apply Hall. apply nth_In. assumption.
  - rewrite nth_overflow by assumption. assumption.
Qed.

Lemma smoothLandmarks_withinWindow (t t' : HandTracker)
  (landmarks smoothed : Landmarks) (i : nat) :
  smoothLandmarks t landmarks i = Some (t', smoothed) ->
  withinWindow t -> withinWindow t'.
Proof.
  unfold smoothLandmarks, withinWindow. intros H Hw.
  destruct (average _ _); cbn [bind] in H; [|discriminate].
  injection H as <- <-. cbn [landmarkHistory smoothingWindow].
  apply setHistory_Forall; [cbn; lia | | assumption].
  apply pushFrame_length.
  apply (getHistory_Forall
           (fun buf => (List.length buf <= smoothingWindow t)%nat));
    [cbn; lia | assumption].
Qed.

Lemma smoothAll_withinWindow (hands : list Landmarks) :
  forall (t t' : HandTracker) (out : list Landmarks) (i : nat),
    smoothAll t hands i = Some (t', out) ->
    withinWindow t -> withinWindow t'.
Proof.
  induction hands as [|landmarks rest IH]; intros t t' out i H Hw.
  - cbn in H. injection H as <- <-. assumption.
  - cbn [smoothAll] in H.
    destruct (smoothLandmarks t landmarks i) as [[t1 s1]|] eqn:E1;
      cbn [bind] in H; [|discriminate].
    destruct (smoothAll t1 rest (S i)) as [[t2 others]|] eqn:E2;
      cbn [bind] in H; [|discriminate].
    injection H as <- <-.
    eapply IH; [eassumption|].
    eapply smoothLandmarks_withinWindow; eassumption.
Qed.

(** X15: the smoother's memory is bounded: if no slot buffers more frames
    than the smoothing window, this is still so after any frame, however
    many hands it shows. *)
Theorem handleResults_withinWindow (t t' : HandTracker) (results : Results)
  (out : option Results) :
  handleResults t results = Some (t', out) ->
  withinWindow t -> withinWindow t'.
Proof.
  unfold handleResults. intros H Hw.
  destruct (hasCallback t); cbn [negb] in H.
  - destruct (smoothAll t (multiHandLandmarks results) 0)
      as [[t1 smoothed]|] eqn:E; cbn [bind] in H; [|discriminate].
    injection H as <- <-. eapply smoothAll_withinWindow; eassumption.
  - injection H as <- <-. assumption.
Qed.

Lemma handleResults_withinWindow_witness :
  exists t out,
    handleResults newHandTracker (oneHand (fistAt 0.2 0.5)) = Some (t, out)
    /\ withinWindow t.
Proof.
  destruct vacancy_run as (t1 & out1 & _ & H1 & _).
  exists t1, out1. split; [assumption|].
  apply (handleResults_withinWindow newHandTracker t1 _ out1 H1).
  constructor.
Defined.

(** ** The window forgets *)

Lemma lastn_all {A : Type} (n : nat) (l : list A) :
  (List.length l <= n)%nat -> lastn n l = l.
Proof.
  intros H. unfold lastn.
  replace (List.length l - n)%nat with 0%nat by lia. reflexivity.
Qed.

Lemma pushFrame_lastn (w : nat) (buf : list Landmarks) (landmarks : Landmarks) :
  (List.length buf <= w)%nat ->
  pushFrame w buf landmarks = lastn w (buf ++ [landmarks]).
Proof.
  intros H. unfold pushFrame, lastn. rewrite length_app. cbn [List.length].
  destruct (Nat.ltb_spec w (List.length buf + 1)) as [Hlt | Hge].
  - replace (List.length buf + 1 - w)%nat with 1%nat by lia.
    destruct buf; reflexivity.
  - replace (List.length buf + 1 - w)%nat with 0%nat by lia. reflexivity.
Qed.

Lemma lastn_lastn_app {A : Type} (n : nat) (l r : list A) :
  lastn n (lastn n l ++ r) = lastn n (l ++ r).
Proof.
  unfold lastn. set (k := (List.length l - n)%nat).
  replace (skipn k l ++ r) with (skipn k (l ++ r)).
  - rewrite skipn_skipn. f_equal.
    rewrite length_skipn, !length_app. subst k. lia.
  - rewrite skipn_app.
    replace (k - List.length l)%nat with 0%nat by (subst k; lia).
    reflexivity.
Qed.

Lemma smoothLandmarks_buffer (t t' : HandTracker)
  (landmarks smoothed : Landmarks) (i : nat) :
  smoothLandmarks t landmarks i = Some (t', smoothed) ->
  getHistory (landmarkHistory t') i
  = pushFrame (smoothingWindow t) (getHistory (landmarkHistory t) i) landmarks
  /\ smoothingWindow t' = smoothingWindow t.
Proof.
  unfold smoothLandmarks. intros H.
  destruct (average _ _); cbn [bind] in H; [|discriminate].
  injection H as <- <-. cbn [landmarkHistory smoothingWindow].
  split; [apply getHistory_setHistory_same | reflexivity].
Qed.

Lemma smoothEach_buffer (frames : list Landmarks) :
  forall (t t' : HandTracker) (outs : list Landmarks) (i : nat),
    smoothEach t frames i = Some (t', outs) ->
    (List.length (getHistory (landmarkHistory t) i) <= smoothingWindow t)%nat ->
    getHistory (landmarkHistory t') i
    = lastn (smoothingWindow t) (getHistory (landmarkHistory t) i ++ frames)
    /\ smoothingWindow t' = smoothingWindow t.
Proof.
  induction frames as [|landmarks rest IH]; intros t t' outs i H Hw.
  - cbn in H. injection H as <- <-. rewrite app_nil_r.
    split; [symmetry; apply lastn_all; assumption | reflexivity].
  - cbn [smoothEach] in H.
    destruct (smoothLandmarks t landmarks i) as [[t1 s1]|] eqn:E1;
      cbn [bind] in H; [|discriminate].
    destruct (smoothEach t1 rest i) as [[t2 others]|] eqn:E2;
      cbn [bind] in H; [|discriminate].
    injection H as <- <-.
    destruct (smoothLandmarks_buffer _ _ _ _ _ E1) as [Hb1 Hw1].
    assert (List.length (getHistory (landmarkHistory t1) i)
            <= smoothingWindow t1)%nat as Hlen1.
    { rewrite Hb1, Hw1. apply pushFrame_length. assumption. }
    destruct (IH _ _ _ _ E2 Hlen1) as [Hb2 Hw2].
    split; [|congruence].
    rewrite Hb2, Hw1, Hb1. rewrite pushFrame_lastn by assumption.
    rewrite lastn_lastn_app. rewrite <- app_assoc. reflexivity.
Qed.

Lemma lastn_app_long {A : Type} (n : nat) (l1 l2 : list A) :
  (n <= List.length l2)%nat -> lastn n (l1 ++ l2) = lastn n l2.
Proof.
  intros H. unfold lastn. rewrite length_app, skipn_app.
  rewrite skipn_all2 by lia. cbn [app]. f_equal. lia.
Qed.

(** X16: the window forgets: once a slot has been fed at least as many
    frames as the smoothing window is long, its buffer holds exactly the
    last window-many of them, whatever it held before, so that the next
    smoothed output depends on those frames alone. *)
Theorem smoothing_window_forgets (t t' : HandTracker)
  (frames outs : list Landmarks) (i : nat) :
  smoothEach t frames i = Some (t', outs) ->
  (List.length (getHistory (landmarkHistory t) i) <= smoothingWindow t)%nat ->
  (smoothingWindow t <= List.length frames)%nat ->
  getHistory (landmarkHistory t') i = lastn (smoothingWindow t) frames.
Proof.
  intros H Hw Hlen.
  destruct (smoothEach_buffer _ _ _ _ _ H Hw) as [Hb _].
  rewrite Hb. apply lastn_app_long. assumption.
Qed.

Lemma smoothing_window_forgets_witness :
  exists t outs,
    smoothEach newHandTracker
      [fistAt 0.1 0.5; fistAt 0.2 0.5; fistAt 0.3 0.5; fistAt 0.4 0.5] 0
    = Some (t, outs)
    /\ getHistory (landmarkHistory t) 0
       = [fistAt 0.2 0.5; fistAt 0.3 0.5; fistAt 0.4 0.5].
Proof.
  assert (exists t outs,
             smoothEach newHandTracker
               [fistAt 0.1 0.5; fistAt 0.2 0.5; fistAt 0.3 0.5; fistAt 0.4 0.5]
               0 = Some (t, outs)) as (t & outs & Hrun).
  { do 2 eexists. eval_tracker. reflexivity. }
  exists t, outs. split; [assumption|].
  rewrite (smoothing_window_forgets newHandTracker t _ outs 0 Hrun).
  - reflexivity.
  - cbn. lia.
  - cbn. lia.
Defined.

(** ** Shape and totality of the smoother *)

Lemma imapM_from_length {A B : Type} (f : A -> nat -> option B) (xs : list A) :
  forall (i : nat) (ys : list B),
    imapM_from f i xs = Some ys -> List.length ys = List.length xs.
Proof.
  induction xs as [|x rest IH]; intros i ys H.
  - cbn in H. injection H as <-. reflexivity.
  - cbn [imapM_from] in H.
    destruct (f x i); cbn [bind] in H; [|discriminate].
    destruct (imapM_from f (S i) rest) as [ys'|] eqn:E; cbn [bind] in H;
      [|discriminate].
    injection H as <-. cbn [List.length]. f_equal. eapply IH. eassumption.
Qed.

Lemma imapM_from_total {A B : Type} (f : A -> nat -> option B) (xs : list A) :
  forall i : nat,
    (forall x j, (i <= j < i + List.length xs)%nat ->
                 exists y, f x j = Some y) ->
    exists ys, imapM_from f i xs = Some ys.
Proof.
  induction xs as [|x rest IH]; intros i Hf.
  - cbn. eauto.
  - cbn [imapM_from List.length] in *.
    destruct (Hf x i) as [y Ey]; [lia|]. rewrite Ey. cbn [bind].
    destruct (IH (S i)) as [ys Eys].
    { intros x' j Hj. apply Hf. lia. }
    rewrite Eys. cbn [bind]. eauto.
Qed.

Lemma imapM_from_Forall {A B : Type} (f : A -> nat -> option B) (P : B -> Prop)
  (xs : list A) :
  forall (i : nat) (ys : list B),
    (forall x j y, f x j = Some y -> P y) ->
    imapM_from f i xs = Some ys -> Forall P ys.
Proof.
  induction xs as [|x rest IH]; intros i ys Hf H.
  - cbn in H. injection H as <-. constructor.
  - cbn [imapM_from] in H.
    destruct (f x i) as [y|] eqn:Ey; cbn [bind] in H; [|discriminate].
    destruct (imapM_from f (S i) rest) as [ys'|] eqn:E; cbn [bind] in H;
      [|discriminate].
    injection H as <-. constructor; [eapply Hf; eassumption|].
    eapply IH; eassumption.
Qed.

Lemma sumAt_total (frames : list Landmarks) (j : nat) :
  forall acc : R * R * R,
    Forall (fun frame : Landmarks => (j < List.length frame)%nat) frames ->
    exists sums, sumAt frames j acc = Some sums.
Proof.
  induction frames as [|frame rest IH]; intros acc Hall.
  - cbn. eauto.
  - inversion Hall as [|? ? Hj Hrest]; subst. cbn [sumAt].
    destruct (nth_error_defined frame j Hj) as [p Ep]. rewrite Ep.
    cbn [bind]. destruct acc as [[sx sy] sz]. apply IH. assumption.
Qed.

Lemma average_total (frames : list Landmarks) (landmarks : Landmarks) :
  Forall (fun frame : Landmarks => List.length frame = List.length landmarks)
         frames ->
  exists smoothed,
    average frames landmarks = Some smoothed
    /\ List.length smoothed = List.length landmarks.
Proof.
  intros Hall. unfold average, imapM.
  destruct (imapM_from_total
              (fun (_ : Point) i =>
                 '(sumX, sumY, sumZ) <- sumAt frames i (0, 0, 0) ;;
                 let count := INR (List.length frames) in
                 Some (mkPoint (sumX / count) (sumY / count) (sumZ / count)))
              landmarks 0) as [smoothed E].
  { intros _ j Hj.
    destruct (sumAt_total frames j (0, 0, 0)) as [[[sx sy] sz] Es].
    - eapply Forall_impl; [|exact Hall]. cbn. intros frame ->. lia.
    - rewrite Es. cbn [bind]. eauto. }
  exists smoothed. split; [assumption|].
  eapply imapM_from_length. eassumption.
Qed.

Lemma pushFrame_Forall (P : Landmarks -> Prop) (w : nat)
  (buf : list Landmarks) (landmarks : Landmarks) :
  Forall P buf -> P landmarks -> Forall P (pushFrame w buf landmarks).
Proof.
  intros Hbuf Hl. unfold pushFrame.
  assert (Forall P (buf ++ [landmarks])) as Hall
      by (apply Forall_app; split; [assumption | repeat constructor; assumption]).
  destruct (_ <? _)%nat; [|assumption].
  destruct (buf ++ [landmarks]); [constructor|].
  inversion Hall; assumption.
Qed.

Lemma smoothLandmarks_ready (t : HandTracker) (landmarks : Landmarks) (i : nat) :
  trackerReady t -> List.length landmarks = 21%nat ->
  exists t' smoothed,
    smoothLandmarks t landmarks i = Some (t', smoothed)
    /\ trackerReady t'
    /\ List.length smoothed = 21%nat.
Proof.
  intros [Hcb Hall] Hlen. unfold smoothLandmarks.
  set (buf := pushFrame _ _ _).
  assert (Forall (fun frame : Landmarks => List.length frame = 21%nat) buf)
    as Hbuf.
  { apply pushFrame_Forall; [|assumption].
    apply (getHistory_Forall
             (Forall (fun frame : Landmarks => List.length frame = 21%nat)));
      [constructor | assumption]. }
  destruct (average_total buf landmarks) as (smoothed & E & Hs).
  { eapply Forall_impl; [|exact Hbuf]. cbn. intros frame ->. congruence. }
  rewrite E. cbn [bind]. do 2 eexists. split; [reflexivity|].
  split; [|congruence].
  split; [exact Hcb|]. cbn [landmarkHistory].
  apply setHistory_Forall; [constructor | assumption | assumption].
Qed.

Lemma smoothAll_ready (hands : list Landmarks) :
  forall (t : HandTracker) (i : nat),
    trackerReady t ->
    Forall (fun hand : Landmarks => List.length hand = 21%nat) hands ->
    exists t' out,
      smoothAll t hands i = Some (t', out)
      /\ trackerReady t'
      /\ List.length out = List.length hands
      /\ Forall (fun hand : Landmarks => List.length hand = 21%nat) out.
Proof.
  induction hands as [|landmarks rest IH]; intros t i Hr Hall.
  - exists t, []. cbn. auto.
  - inversion Hall as [|? ? Hl Hrest]; subst.
    destruct (smoothLandmarks_ready t landmarks i Hr Hl)
      as (t1 & s1 & E1 & Hr1 & Hs1).
    destruct (IH t1 (S i) Hr1 Hrest) as (t2 & others & E2 & Hr2 & Hlen & Ho).
    exists t2, (s1 :: others). cbn [smoothAll]. rewrite E1. cbn [bind].
    rewrite E2. cbn [bind]. split; [reflexivity|]. split; [assumption|].
    split; [cbn; congruence | constructor; assumption].
Qed.

(** X17: on well-formed input the smoother always answers: with the
    callback set and 21 landmarks in every buffered and every incoming
    hand, [handleResults] hands the callback as many smoothed hands as were
    detected, each of 21 landmarks, with the handedness list untouched,
    and is ready for the next frame. *)
Theorem handleResults_ready (t : HandTracker) (results : Results) :
  trackerReady t -> wellFormed results ->
  exists t' out,
    handleResults t results = Some (t', Some out)
    /\ trackerReady t'
    /\ wellFormed out
    /\ List.length (multiHandLandmarks out)
       = List.length (multiHandLandmarks results)
    /\ multiHandedness out = multiHandedness results.
Proof.
  intros Hr Hwf. unfold handleResults.
  destruct Hr as [Hcb Hall]. rewrite Hcb. cbn [negb].
  destruct (smoothAll_ready (multiHandLandmarks results) t 0)
    as (t' & out & E & Hr' & Hlen & Ho); [split; assumption | exact Hwf |].
  rewrite E. cbn [bind]. do 2 eexists. split; [reflexivity|].
  split; [assumption|]. split; [exact Ho|]. split; [exact Hlen | reflexivity].
Qed.

Lemma handleResults_ready_witness :
  exists t out,
    handleResults newHandTracker
      (twoHands (fistAt 0.3 0.5) (palmAt 0.7 0.5)) = Some (t, Some out)
    /\ List.length (multiHandLandmarks out) = 2%nat.
Proof.
  destruct (handleResults_ready newHandTracker
              (twoHands (fistAt 0.3 0.5) (palmAt 0.7 0.5)))
    as (t & out & H & _ & _ & Hlen & _).
  - split; [reflexivity | constructor].
  - apply wellFormed_twoHands.
  - exists t, out. split; [assumption | exact Hlen].
Defined.

(** ** Smoothed landmarks stay inside the raw ones *)

Lemma sumAt_bounds (lo hi : Point) (frames : list Landmarks) (j : nat) :
  forall (acc sums : R * R * R),
    Forall (Forall (inBox lo hi)) frames ->
    sumAt frames j acc = Some sums ->
    let n := INR (List.length frames) in
    (fst (fst acc) + n * lm_x lo <= fst (fst sums)
     <= fst (fst acc) + n * lm_x hi)
    /\ (snd (fst acc) + n * lm_y lo <= snd (fst sums)
        <= snd (fst acc) + n * lm_y hi)
    /\ (snd acc + n * lm_z lo <= snd sums <= snd acc + n * lm_z hi).
Proof.
  induction frames as [|frame rest IH]; intros acc sums Hall H.
  - cbn in H. injection H as <-. cbn. lra.
  - inversion Hall as [|? ? Hframe Hrest]; subst. cbn [sumAt] in H.
    destruct (nth_error frame j) as [p|] eqn:Ep; cbn [bind] in H;
      [|discriminate].
    destruct acc as [[sx sy] sz].
    assert (inBox lo hi p) as (Hx & Hy & Hz).
    { rewrite Forall_forall in Hframe. apply Hframe.
      eapply nth_error_In. eassumption. }
    specialize (IH _ _ Hrest H). cbn [fst snd] in IH.
    change (List.length (frame :: rest)) with (S (List.length rest)).
    rewrite S_INR. cbn [fst snd]. cbn zeta in IH. lra.
Qed.

Lemma div_between (lo hi s n : R) :
  0 < n -> 0 + n * lo <= s <= 0 + n * hi -> lo <= s / n <= hi.
Proof.
  intros Hn [Hlo Hhi]. unfold Rdiv.
  assert (/ n > 0) as Hinv by (apply Rinv_0_lt_compat; assumption).
  split.
  - apply Rmult_le_reg_r with n; [assumption|].
    rewrite Rmult_assoc, Rinv_l by lra. lra.
  - apply Rmult_le_reg_r with n; [assumption|].
    rewrite Rmult_assoc, Rinv_l by lra. lra.
Qed.

Lemma average_inBox (lo hi : Point) (frames : list Landmarks)
  (landmarks smoothed : Landmarks) :
  frames <> [] ->
  Forall (Forall (inBox lo hi)) frames ->
  average frames landmarks = Some smoothed ->
  Forall (inBox lo hi) smoothed.
Proof.
  intros Hne Hall H. unfold average, imapM in H.
  eapply imapM_from_Forall; [|exact H].
  intros x j y Hy. cbn beta in Hy.
  destruct (sumAt frames j (0, 0, 0)) as [[[sx sy] sz]|] eqn:Es;
    cbn [bind] in Hy; [|discriminate].
  injection Hy as <-.
  pose proof (sumAt_bounds lo hi frames j _ _ Hall Es) as (Bx & By & Bz).
  cbn [fst snd] in Bx, By, Bz. cbn zeta in Bx, By, Bz.
  assert (0 < INR (List.length frames)) as Hn.
  { apply lt_0_INR. destruct frames; [contradiction | cbn; lia]. }
  unfold inBox. cbn [lm_x lm_y lm_z].
  split; [|split]; apply div_between; assumption.
Qed.

(** X18: smoothing never leaves the box of the raw data: if every landmark
    of every frame in the buffer of a slot (the new frame included) lies in
    a box, so does every smoothed landmark of that slot; smoothed
    normalised coordinates stay normalised. *)
Theorem smoothLandmarks_inBox (lo hi : Point) (t t' : HandTracker)
  (landmarks smoothed : Landmarks) (i : nat) :
  (1 <= smoothingWindow t)%nat ->
  smoothLandmarks t landmarks i = Some (t', smoothed) ->
  Forall (Forall (inBox lo hi)) (getHistory (landmarkHistory t') i) ->
  Forall (inBox lo hi) smoothed.
Proof.
  intros Hw H Hall.
  destruct (smoothLandmarks_buffer _ _ _ _ _ H) as [Hb _].
  rewrite Hb in Hall. unfold smoothLandmarks in H.
  set (buf := pushFrame _ _ _) in *.
  destruct (average buf landmarks) as [s|] eqn:E; cbn [bind] in H;
    [|discriminate].
  injection H as _ <-.
  apply (average_inBox lo hi buf landmarks s); try assumption.
  subst buf. unfold pushFrame.
  destruct (Nat.ltb_spec (smoothingWindow t)
              (List.length (getHistory (landmarkHistory t) i ++ [landmarks])))
    as [Hlt | Hge].
  - rewrite length_app in Hlt. cbn [List.length] in Hlt.
    destruct (getHistory (landmarkHistory t) i) as [|f [|g rest]];
      cbn [app tl List.length] in *; try discriminate. lia.
  - destruct (getHistory (landmarkHistory t) i); discriminate.
Qed.

Lemma smoothLandmarks_inBox_witness :
  exists t smoothed,
    smoothLandmarks newHandTracker (fistAt 0.5 0.5) 0 = Some (t, smoothed)
    /\ Forall (inBox (mkPoint 0 0 0) (mkPoint 1 1 0)) smoothed.
Proof.
  destruct (smoothLandmarks_ready newHandTracker (fistAt 0.5 0.5) 0)
    as (t & smoothed & H & _ & _);
    [split; [reflexivity | constructor] | reflexivity |].
  exists t, smoothed. split; [assumption|].
  apply (smoothLandmarks_inBox _ _ newHandTracker t (fistAt 0.5 0.5) _ 0);
    [cbn; lia | assumption |].
  destruct (smoothLandmarks_buffer _ _ _ _ _ H) as [Hb _]. rewrite Hb.
  change (pushFrame (smoothingWindow newHandTracker)
            (getHistory (landmarkHistory newHandTracker) 0) (fistAt 0.5 0.5))
    with [fistAt 0.5 0.5].
  apply Forall_cons; [|apply Forall_nil].
  unfold fistAt, poseHand.
  repeat (apply Forall_cons;
          [unfold inBox; cbn [lm_x lm_y lm_z]; lra|]).
  apply Forall_nil.
Defined.

(** * The model controller *)

Lemma rem_next_range (i n : Z) :
  (0 <= i < n)%Z -> (0 <= Z.rem (i + 1) n < n)%Z.
Proof.
  intros H. rewrite Z.rem_mod_nonneg by lia. apply Z.mod_pos_bound. lia.
Qed.

Lemma rem_prev_range (i n : Z) :
  (0 <= i < n)%Z -> (0 <= Z.rem (i - 1 + n) n < n)%Z.
Proof.
  intros H. rewrite Z.rem_mod_nonneg by lia. apply Z.mod_pos_bound. lia.
Qed.

Lemma switchTo_settled (c : ModelController.t) (index : Z) :
  ModelController.settled c ->
  (0 <= index < ModelController.count c)%Z ->
  ModelController.settled (fst (ModelController.switchTo c index)).
Proof.
  intros (Hi & Hm & Hp) Hidx. unfold ModelController.switchTo.
  destruct ((index =? ModelController.currentIndex c)%Z
            || ModelController.isTransitioning c) eqn:Eg.
  - cbn [fst]. repeat split; tauto.
  - apply orb_false_iff in Eg as [_ Ht].
    replace ((0 <=? index)%Z && (index <? ModelController.count c)%Z)
      with true
      by (symmetry; apply andb_true_iff; split;
          [apply Z.leb_le | apply Z.ltb_lt]; lia).
    rewrite Hm. cbn [fst].
    unfold ModelController.settled, ModelController.count in *.
    cbn [ModelController.currentIndex ModelController.currentModel
         ModelController.pending ModelController.isTransitioning
         ModelController.models].
    auto.
Qed.

Lemma step_settled (c : ModelController.t) (call : ModelController.Call) :
  ModelController.settled c ->
  ModelController.settled (ModelController.step c call).
Proof.
  intros Hs. pose proof Hs as (Hi & Hm & Hp).
  destruct call; cbn [ModelController.step].
  - unfold ModelController.next.
    destruct (_ || _); [exact Hs|].
    apply switchTo_settled; [exact Hs | apply rem_next_range; exact Hi].
  - unfold ModelController.previous.
    destruct (_ || _); [exact Hs|].
    apply switchTo_settled; [exact Hs | apply rem_prev_range; exact Hi].
  - unfold ModelController.crossfadeDone.
    destruct (ModelController.pending c) as [index|] eqn:Ep; [|exact Hs].
    destruct Hp as [_ Hidx].
    unfold ModelController.settled, ModelController.count in *.
    cbn [ModelController.currentIndex ModelController.currentModel
         ModelController.pending ModelController.isTransitioning
         ModelController.models].
    auto.
Qed.

(** X19: however next, previous and the ends of crossfades interleave, the
    model controller stays consistent: the current index is inside the
    list and is the model shown, a transition in progress has a target
    inside the list, and there is no target without a transition. *)
Theorem ModelController_settled (calls : list ModelController.Call) :
  forall c : ModelController.t,
    ModelController.settled c ->
    ModelController.settled (fold_left ModelController.step calls c).
Proof.
  induction calls as [|call rest IH]; intros c Hs; [exact Hs|].
  cbn [fold_left]. apply IH. apply step_settled. exact Hs.
Qed.

Lemma ModelController_settled_witness :
  ModelController.settled
    (fold_left ModelController.step
       [ModelController.callNext; ModelController.callNext;
        ModelController.callCrossfadeDone; ModelController.callPrevious]
       (ModelController.loaded ["Iron Man"; "Deadpool"; "Hulk"]%string)).
Proof.
  apply ModelController_settled.
  unfold ModelController.settled. cbn. repeat split; lia.
Defined.

(** X20: calls made while a crossfade is running are dropped: between the
    start of a transition and its end, next and previous change nothing,
    so that the transition ends on the model it was started for. *)
Theorem ModelController_busy (c : ModelController.t)
  (calls : list ModelController.Call) (index : Z) :
  ModelController.isTransitioning c = true ->
  ModelController.pending c = Some index ->
  Forall (fun call => call <> ModelController.callCrossfadeDone) calls ->
  fold_left ModelController.step calls c = c
  /\ ModelController.currentIndex
       (fold_left ModelController.step
          (calls ++ [ModelController.callCrossfadeDone]) c) = index.
Proof.
  intros Ht Hp Hall.
  assert (fold_left ModelController.step calls c = c) as Hsame.
  { induction calls as [|call rest IH]; [reflexivity|].
    inversion Hall as [|? ? Hc Hrest]; subst. cbn [fold_left].
    replace (ModelController.step c call) with c; [apply IH; assumption|].
    destruct call; cbn [ModelController.step].
    - unfold ModelController.next. rewrite Ht. reflexivity.
    - unfold ModelController.previous. rewrite Ht. reflexivity.
    - contradiction. }
  split; [exact Hsame|].
  rewrite fold_left_app, Hsame. cbn [fold_left ModelController.step].
  unfold ModelController.crossfadeDone. rewrite Hp. reflexivity.
Qed.

Lemma ModelController_busy_witness :
  ModelController.currentIndex
    (fold_left ModelController.step
       ([ModelController.callNext; ModelController.callPrevious]
          ++ [ModelController.callCrossfadeDone])
       (fst (ModelController.next
               (ModelController.loaded ["Iron Man"; "Deadpool"; "Hulk"]%string))))
  = 1%Z.
Proof.
  apply (ModelController_busy
           (fst (ModelController.next
                   (ModelController.loaded
                      ["Iron Man"; "Deadpool"; "Hulk"]%string)))
           [ModelController.callNext; ModelController.callPrevious] 1).
  - reflexivity.
  - reflexivity.
  - repeat constructor; discriminate.
Defined.

(** X21: with a single model loaded, next and previous never start a
    transition: the successor of the only index is the index itself, and
    [switchTo] returns at once. *)
Theorem ModelController_single_model (c : ModelController.t) :
  ModelController.count c = 1%Z ->
  ModelController.currentIndex c = 0%Z ->
  ModelController.next c = (c, ModelController.ignored)
  /\ ModelController.previous c = (c, ModelController.ignored).
Proof.
  intros Hn Hi.
  unfold ModelController.next, ModelController.previous,
    ModelController.switchTo.
  rewrite Hn, Hi. cbn [Z.eqb orb Z.add Z.sub Z.rem Z.quotrem fst snd].
  destruct (ModelController.isTransitioning c); cbn; auto.
Qed.

Lemma ModelController_single_model_witness :
  ModelController.next (ModelController.loaded ["Iron Man"%string])
  = (ModelController.loaded ["Iron Man"%string], ModelController.ignored).
Proof.
  apply (ModelController_single_model
           (ModelController.loaded ["Iron Man"%string])); reflexivity.
Defined.

(** X22: [switchTo] with an index outside the list throws only after it
    has marked the controller as transitioning and starts no crossfade, so
    that the mark is never taken back: from then on next and previous are
    ignored, whatever the end-of-crossfade callbacks do. *)
Theorem switchTo_out_of_range_sticks (c : ModelController.t) (index : Z)
  (calls : list ModelController.Call) :
  ModelController.isTransitioning c = false ->
  ModelController.pending c = None ->
  index <> ModelController.currentIndex c ->
  ~ (0 <= index < ModelController.count c)%Z ->
  let c' := fst (ModelController.switchTo c index) in
  snd (ModelController.switchTo c index) = ModelController.threw
  /\ ModelController.isTransitioning c' = true
  /\ fold_left ModelController.step calls c' = c'.
Proof.
  intros Ht Hp Hne Hout c'.
  assert (ModelController.switchTo c index
          = (ModelController.mk (ModelController.models c)
               (ModelController.currentIndex c)
               (ModelController.currentModel c) true None,
             ModelController.threw)) as Hsw.
  { unfold ModelController.switchTo. rewrite Ht, Hp.
    replace (index =? ModelController.currentIndex c)%Z with false
      by (symmetry; apply Z.eqb_neq; assumption).
    cbn [orb].
    replace ((0 <=? index)%Z && (index <? ModelController.count c)%Z)
      with false; [reflexivity|].
    symmetry. apply andb_false_iff.
    destruct (Z.leb_spec 0 index); [right | left; reflexivity].
    apply Z.ltb_ge. lia. }
  subst c'. rewrite Hsw. cbn [fst snd].
  split; [reflexivity|]. split; [reflexivity|].
  induction calls as [|call rest IH]; [reflexivity|].
  cbn [fold_left].
  replace (ModelController.step _ call)
    with (ModelController.mk (ModelController.models c)
            (ModelController.currentIndex c)
            (ModelController.currentModel c) true None);
    [exact IH|].
  destruct call; reflexivity.
Qed.

Lemma switchTo_out_of_range_sticks_witness :
  snd (ModelController.switchTo
         (ModelController.loaded ["Iron Man"; "Deadpool"]%string) 5)
  = ModelController.threw
  /\ fst (ModelController.next
            (fst (ModelController.switchTo
                    (ModelController.loaded ["Iron Man"; "Deadpool"]%string)
                    5)))
     = fst (ModelController.switchTo
              (ModelController.loaded ["Iron Man"; "Deadpool"]%string) 5).
Proof.
  destruct (switchTo_out_of_range_sticks
              (ModelController.loaded ["Iron Man"; "Deadpool"]%string) 5
              [ModelController.callNext])
    as (Hthrew & _ & Hstuck).
  - reflexivity.
  - reflexivity.
  - discriminate.
  - cbn. lia.
  - split; [exact Hthrew | exact Hstuck].
Defined.

(** ** The crossfade *)

(** X23: while a crossfade runs, the two opacities add up to 1 and the old
    model stays shown; the opacity of the new model stays between 0 and 1,
    starts at 0 and never decreases as time passes.  The fade is over
    exactly from the end of the duration on, and the run of [animate] that
    ends it leaves the new model fully opaque and the old model hidden,
    with its opacity put back to 1. *)
Theorem crossfade_opacities (elapsed later duration : R) :
  0 < duration -> 0 <= elapsed <= later ->
  let frame := ModelController.crossfadeFrame elapsed duration in
  let frameLater := ModelController.crossfadeFrame later duration in
  0 <= ModelController.newOpacity frame <= 1
  /\ (elapsed = 0 -> ModelController.newOpacity frame = 0)
  /\ (ModelController.over frame = true <-> duration <= elapsed)
  /\ (ModelController.over frame = false ->
      ModelController.oldOpacity frame + ModelController.newOpacity frame = 1
      /\ ModelController.oldHidden frame = false)
  /\ (ModelController.over frame = true ->
      ModelController.newOpacity frame = 1
      /\ ModelController.oldOpacity frame = 1
      /\ ModelController.oldHidden frame = true)
  /\ ModelController.newOpacity frame
     <= ModelController.newOpacity frameLater.
Proof.
  intros Hd [He Hl]. cbn zeta. unfold ModelController.crossfadeFrame.
  set (p := Rmin (elapsed / duration) 1).
  set (q := Rmin (later / duration) 1).
  assert (0 <= elapsed / duration) as Hq0.
  { apply Rmult_le_pos; [assumption|].
    apply Rlt_le, Rinv_0_lt_compat. assumption. }
  assert (elapsed / duration <= later / duration) as Hmono.
  { apply Rmult_le_compat_r; [|assumption].
    apply Rlt_le, Rinv_0_lt_compat. assumption. }
  assert (0 <= p <= 1) as Hp.
  { subst p. split; [apply Rmin_glb; lra | apply Rmin_r]. }
  assert (p <= q <= 1) as Hpq.
  { subst p q. split; [|apply Rmin_r].
    apply Rmin_glb; [|apply Rmin_r].
    eapply Rle_trans; [apply Rmin_l | exact Hmono]. }
  assert (p < 1 <-> elapsed < duration) as Hlt.
  { subst p. split.
    - intros H. unfold Rmin in H.
      destruct (Rle_dec (elapsed / duration) 1) as [Hle | Hgt]; [|lra].
      apply Rmult_lt_reg_r with (/ duration);
        [apply Rinv_0_lt_compat; assumption|].
      rewrite Rinv_r by lra. exact H.
    - intros H. eapply Rle_lt_trans; [apply Rmin_l|].
      apply Rmult_lt_reg_r with duration; [assumption|].
      unfold Rdiv. rewrite Rmult_assoc, Rinv_l by lra. lra. }
  assert (forall r : R,
             0 <= r <= 1 ->
             0 <= (if Rltb r 0.5 then 2 * r * r
                   else 1 - (-2 * r + 2) * (-2 * r + 2) / 2) <= 1)
    as Hrange.
  { intros r Hr. destruct (Rltb_spec r 0.5); nra. }
  assert ((if Rltb p 0.5 then 2 * p * p
           else 1 - (-2 * p + 2) * (-2 * p + 2) / 2)
          <= (if Rltb q 0.5 then 2 * q * q
              else 1 - (-2 * q + 2) * (-2 * q + 2) / 2)) as Hinc.
  { destruct (Rltb_spec p 0.5), (Rltb_spec q 0.5); nra. }
  assert (elapsed = 0 ->
          (if Rltb p 0.5 then 2 * p * p
           else 1 - (-2 * p + 2) * (-2 * p + 2) / 2) = 0) as Hstart.
  { intros H0. assert (p = 0) as ->.
    { subst p. rewrite H0. unfold Rdiv. rewrite Rmult_0_l.
      apply Rmin_left. lra. }
    rewrite Rltb_true by lra. lra. }
  assert (ModelController.newOpacity
            (if Rltb q 1
             then ModelController.mkFade
                    (1 - (if Rltb q 0.5 then 2 * q * q
                          else 1 - (-2 * q + 2) * (-2 * q + 2) / 2))
                    (if Rltb q 0.5 then 2 * q * q
                     else 1 - (-2 * q + 2) * (-2 * q + 2) / 2) false false
             else ModelController.mkFade 1
                    (if Rltb q 0.5 then 2 * q * q
                     else 1 - (-2 * q + 2) * (-2 * q + 2) / 2) true true)
          = (if Rltb q 0.5 then 2 * q * q
             else 1 - (-2 * q + 2) * (-2 * q + 2) / 2)) as ->.
  { destruct (Rltb q 1); reflexivity. }
  destruct (Rltb_spec p 1) as [H1 | H1];
    cbn [ModelController.newOpacity ModelController.oldOpacity
         ModelController.oldHidden ModelController.over].
  - split; [apply Hrange; exact Hp|]. split; [exact Hstart|].
    split; [split; [discriminate | intros Hge; apply Hlt in H1; lra]|].
    split; [intros _; split; [lra | reflexivity]|].
    split; [discriminate | exact Hinc].
  - split; [apply Hrange; exact Hp|]. split; [exact Hstart|].
    split.
    { split; [|reflexivity]. intros _.
      destruct (Rle_or_lt duration elapsed); [assumption|].
      exfalso. apply H1. apply Hlt. assumption. }
    split; [discriminate|].
    split; [|exact Hinc].
    intros _. assert (p = 1) as Hp1 by lra.
    split; [|split; reflexivity].
    rewrite Hp1. rewrite Rltb_false by lra. lra.
Qed.

Lemma crossfade_opacities_witness :
  ModelController.oldOpacity (ModelController.crossfadeFrame 250 500)
  + ModelController.newOpacity (ModelController.crossfadeFrame 250 500) = 1
  /\ ModelController.oldOpacity (ModelController.crossfadeFrame 500 500) = 1
  /\ ModelController.oldHidden (ModelController.crossfadeFrame 500 500)
     = true.
Proof.
  assert (Hmid : ModelController.over (ModelController.crossfadeFrame 250 500)
                 = false).
  { unfold ModelController.crossfadeFrame.
    replace (250 / 500) with 0.5 by lra.
    rewrite Rmin_left by lra. rewrite (Rltb_true 0.5 1) by lra.
    reflexivity. }
  assert (Hend : ModelController.over (ModelController.crossfadeFrame 500 500)
                 = true).
  { unfold ModelController.crossfadeFrame.
    replace (500 / 500) with 1 by lra.
    rewrite Rmin_left by lra. rewrite (Rltb_false 1 1) by lra.
    reflexivity. }
  split.
  - apply (crossfade_opacities 250 500 500); [lra | lra | exact Hmid].
  - destruct (crossfade_opacities 500 500 500 ltac:(lra) ltac:(lra))
      as (_ & _ & _ & _ & Hover & _).
    destruct (Hover Hend) as (_ & Hold & Hhid). split; assumption.
Defined.

(** * The poses of the gesture detector *)

Lemma extended_not_curled (i : nat) (tip base : Point) :
  GestureDetector.isExtended i tip base = true ->
  GestureDetector.isCurled i tip base = false.
Proof.
  unfold GestureDetector.isExtended, GestureDetector.isCurled.
  destruct (Nat.eqb i 0).
  - destruct (Rgtb_spec (Rabs (lm_x tip - lm_x base)) 0.05) as [H | H];
      [intros _ | discriminate].
    apply Rltb_false. lra.
  - destruct (Rltb_spec (lm_y tip) (lm_y base - 0.05)) as [H | H];
      [intros _ | discriminate].
    apply Rgtb_false. lra.
Qed.

Lemma countFingers_disjoint (hand : Landmarks) (tips : list nat) :
  forall (bases : list nat) (i extendedCount curledCount : nat),
    GestureDetector.countFingers GestureDetector.isExtended hand i tips bases
    = Some extendedCount ->
    GestureDetector.countFingers GestureDetector.isCurled hand i tips bases
    = Some curledCount ->
    (extendedCount + curledCount <= List.length tips)%nat.
Proof.
  induction tips as [|t tips IH]; intros bases i e c He Hc.
  - cbn in He, Hc. injection He as <-. injection Hc as <-. cbn. lia.
  - destruct bases as [|b bases].
    { cbn in He, Hc. injection He as <-. injection Hc as <-. cbn. lia. }
    cbn [GestureDetector.countFingers] in He, Hc.
    destruct (nth_error hand t) as [tip|]; cbn [bind] in He, Hc;
      [|discriminate He].
    destruct (nth_error hand b) as [base|]; cbn [bind] in He, Hc;
      [|discriminate He].
    destruct (GestureDetector.countFingers GestureDetector.isExtended hand
                (S i) tips bases) as [e'|] eqn:Ee; cbn [bind] in He;
      [|discriminate He].
    destruct (GestureDetector.countFingers GestureDetector.isCurled hand
                (S i) tips bases) as [c'|] eqn:Ec; cbn [bind] in Hc;
      [|discriminate Hc].
    injection He as <-. injection Hc as <-.
    specialize (IH bases (S i) e' c' Ee Ec). cbn [List.length].
    destruct (GestureDetector.isExtended i tip base) eqn:Ex.
    + rewrite (extended_not_curled _ _ _ Ex). lia.
    + destruct (GestureDetector.isCurled i tip base); lia.
Qed.

(** X10: no hand is both an open palm and a fist: a finger counted as
    extended is never counted as curled, so when [detectOpenPalm] answers
    OPEN_PALM (always with confidence 1) [detectFist] answers NONE, and
    when [detectFist] answers FIST [detectOpenPalm] answers NONE; the
    order in which [detect] tries the two does not matter. *)
Theorem palm_and_fist_exclusive (hand : Landmarks)
  (palmGesture fistGesture : DetectedGesture) :
  GestureDetector.detectOpenPalm hand = Some palmGesture ->
  GestureDetector.detectFist hand = Some fistGesture ->
  (gestureType palmGesture = "OPEN_PALM"%string ->
   confidence palmGesture = 1 /\ fistGesture = GestureDetector.none)
  /\ (gestureType fistGesture = "FIST"%string ->
      palmGesture = GestureDetector.none).
Proof.
  unfold GestureDetector.detectOpenPalm, GestureDetector.detectFist.
  destruct (GestureDetector.countFingers GestureDetector.isExtended hand 0
              GestureDetector.fingerTips GestureDetector.fingerBases)
    as [e|] eqn:Ee; cbn [bind]; [|discriminate].
  destruct (GestureDetector.countFingers GestureDetector.isCurled hand 0
              GestureDetector.fingerTips GestureDetector.fingerBases)
    as [c|] eqn:Ec; cbn [bind]; [|discriminate].
  pose proof (countFingers_disjoint _ _ _ _ _ _ Ee Ec) as Hsum.
  cbn [GestureDetector.fingerTips List.length] in Hsum.
  destruct (Nat.leb_spec 5 e) as [He | He];
    destruct (Nat.leb_spec 4 c) as [Hc | Hc];
    intros Hp Hf; injection Hp as <-; injection Hf as <-;
    cbn [gestureType confidence]; split; intros H;
    try discriminate H; try reflexivity; try lia.
  split; [|reflexivity].
  assert (e = 5%nat) as -> by lia. cbn [INR]. field.
Qed.

Lemma palm_and_fist_exclusive_witness :
  (gestureType (mkGesture "OPEN_PALM" (INR 5 / 5) None None None)
   = "OPEN_PALM"%string ->
   confidence (mkGesture "OPEN_PALM" (INR 5 / 5) None None None) = 1
   /\ GestureDetector.none = GestureDetector.none)
  /\ (gestureType GestureDetector.none = "FIST"%string ->
      mkGesture "OPEN_PALM" (INR 5 / 5) None None None
      = GestureDetector.none).
Proof.
  apply (palm_and_fist_exclusive (GestureDetector.spreadHand 0.5 0.5)).
  - unfold GestureDetector.detectOpenPalm.
    cbn [GestureDetector.countFingers GestureDetector.fingerTips
         GestureDetector.fingerBases GestureDetector.spreadHand nth_error
         bind GestureDetector.isExtended Nat.eqb lm_x lm_y].
    rewrite Rgtb_true by (rewrite Rabs_pos_eq; lra).
    rewrite !Rltb_true by lra. reflexivity.
  - unfold GestureDetector.detectFist.
    cbn [GestureDetector.countFingers GestureDetector.fingerTips
         GestureDetector.fingerBases GestureDetector.spreadHand nth_error
         bind GestureDetector.isCurled Nat.eqb lm_x lm_y].
    rewrite Rltb_false by (rewrite Rabs_pos_eq; lra).
    rewrite !Rgtb_false by lra. reflexivity.
Defined.

(** * The gesture state machine *)

Lemma mapGestureToState_names (g : DetectedGesture) :
  In (GestureStateMachine.mapGestureToState g)
     ["IDLE"; "SWITCHING"; "ROTATING"; "ZOOMING"; "RESETTING"; "LOCKED"]%string.
Proof.
  unfold GestureStateMachine.mapGestureToState.
  repeat match goal with
         | |- context [if ?b then _ else _] => destruct b
         end; cbn; tauto.
Qed.

(** X24: [update] never makes a transition the machine forbids: from
    LOCKED it only ever stays LOCKED or goes to IDLE, it never goes from
    ROTATING to ZOOMING or back in one step, and the state it reports is
    the state it is in. *)
Theorem update_respects_transitions (m : GestureStateMachine.t) (now : Z)
  (g : DetectedGesture) :
  let m' := fst (GestureStateMachine.update m now g) in
  let info := snd (GestureStateMachine.update m now g) in
  (GestureStateMachine.currentState m = "LOCKED"%string ->
   GestureStateMachine.currentState m' = "LOCKED"%string
   \/ GestureStateMachine.currentState m' = "IDLE"%string)
  /\ ~ (GestureStateMachine.currentState m = "ROTATING"%string
        /\ GestureStateMachine.currentState m' = "ZOOMING"%string)
  /\ ~ (GestureStateMachine.currentState m = "ZOOMING"%string
        /\ GestureStateMachine.currentState m' = "ROTATING"%string)
  /\ GestureStateMachine.state info = GestureStateMachine.currentState m'.
Proof.
  cbn zeta. unfold GestureStateMachine.update.
  destruct (_ <? _)%Z.
  { cbn [fst snd GestureStateMachine.state]. repeat split.
    - auto.
    - intros [H1 H2]. rewrite H1 in H2. discriminate H2.
    - intros [H1 H2]. rewrite H1 in H2. discriminate H2. }
  set (new := GestureStateMachine.mapGestureToState g).
  destruct (GestureStateMachine.isTransitionAllowed
              (GestureStateMachine.currentState m) new) eqn:Ea.
  2:{ cbn [fst snd GestureStateMachine.state]. repeat split.
      - auto.
      - intros [H1 H2]. rewrite H1 in H2. discriminate H2.
      - intros [H1 H2]. rewrite H1 in H2. discriminate H2. }
  destruct (String.eqb_spec new (GestureStateMachine.currentState m))
    as [Heq | Hne]; cbn [negb fst snd GestureStateMachine.state
                         GestureStateMachine.currentState].
  { repeat split.
    - auto.
    - intros [H1 H2]. rewrite H1 in H2. discriminate H2.
    - intros [H1 H2]. rewrite H1 in H2. discriminate H2. }
  unfold GestureStateMachine.isTransitionAllowed in Ea.
  repeat split.
  - intros Hl. rewrite Hl in Ea. cbn [String.eqb Ascii.eqb Bool.eqb andb] in Ea.
    destruct (String.eqb_spec new "IDLE"); [auto | discriminate Ea].
  - intros [H1 H2]. rewrite H1, H2 in Ea. discriminate Ea.
  - intros [H1 H2]. rewrite H1, H2 in Ea. discriminate Ea.
Qed.

Lemma update_respects_transitions_witness :
  GestureStateMachine.currentState
    (fst (GestureStateMachine.update
            (GestureStateMachine.setState
               (GestureStateMachine.constructor 0) 0 "LOCKED")
            500 (mkGesture "ROTATE" 1 (Some 0.2) (Some 0) None)))
  = "LOCKED"%string
  \/ GestureStateMachine.currentState
       (fst (GestureStateMachine.update
               (GestureStateMachine.setState
                  (GestureStateMachine.constructor 0) 0 "LOCKED")
               500 (mkGesture "ROTATE" 1 (Some 0.2) (Some 0) None)))
     = "IDLE"%string.
Proof.
  apply (proj1 (update_respects_transitions
                  (GestureStateMachine.setState
                     (GestureStateMachine.constructor 0) 0 "LOCKED")
                  500 (mkGesture "ROTATE" 1 (Some 0.2) (Some 0) None))).
  reflexivity.
Defined.

Lemma update_step (m m' : GestureStateMachine.t) (now : Z)
  (g : DetectedGesture) (info : GestureStateMachine.StateInfo) :
  GestureStateMachine.update m now g = (m', info) ->
  GestureStateMachine.minStateDuration m'
  = GestureStateMachine.minStateDuration m
  /\ (GestureStateMachine.changed info = false -> m' = m)
  /\ (GestureStateMachine.changed info = true ->
      (now - GestureStateMachine.stateStartTime m
       >= GestureStateMachine.minStateDuration m)%Z
      /\ GestureStateMachine.stateStartTime m' = now
      /\ GestureStateMachine.previousState m'
         = GestureStateMachine.currentState m
      /\ GestureStateMachine.currentState m'
         <> GestureStateMachine.currentState m).
Proof.
  unfold GestureStateMachine.update. intros H.
  destruct (Z.ltb_spec (now - GestureStateMachine.stateStartTime m)
              (GestureStateMachine.minStateDuration m)) as [Hlt | Hge].
  { injection H as <- <-. cbn. split; [reflexivity|].
    split; [reflexivity | discriminate]. }
  destruct (GestureStateMachine.isTransitionAllowed _ _).
  2:{ injection H as <- <-. cbn. split; [reflexivity|].
      split; [reflexivity | discriminate]. }
  destruct (String.eqb_spec (GestureStateMachine.mapGestureToState g)
              (GestureStateMachine.currentState m)) as [Heq | Hne];
    cbn [negb] in H; injection H as <- <-; cbn.
  - split; [reflexivity|]. split; [reflexivity | discriminate].
  - split; [reflexivity|]. split; [discriminate|].
    intros _. repeat split; [lia | assumption].
Qed.

Lemma updates_stateStartTime (calls : list (Z * DetectedGesture)) :
  forall (m m' : GestureStateMachine.t)
         (infos : list GestureStateMachine.StateInfo),
    (0 <= GestureStateMachine.minStateDuration m)%Z ->
    GestureStateMachine.updates m calls = (m', infos) ->
    (GestureStateMachine.stateStartTime m
     <= GestureStateMachine.stateStartTime m')%Z
    /\ GestureStateMachine.minStateDuration m'
       = GestureStateMachine.minStateDuration m.
Proof.
  induction calls as [|[now g] rest IH]; intros m m' infos Hd H.
  - cbn in H. injection H as <- <-. split; [lia | reflexivity].
  - cbn [GestureStateMachine.updates] in H.
    destruct (GestureStateMachine.update m now g) as [m1 info] eqn:E1.
    destruct (GestureStateMachine.updates m1 rest) as [m2 infos2] eqn:E2.
    injection H as <- <-.
    destruct (update_step _ _ _ _ _ E1) as (Hd1 & Hsame & Hchg).
    destruct (IH _ _ _ ltac:(rewrite Hd1; exact Hd) E2) as [Hle Hd2].
    split; [|congruence].
    destruct (GestureStateMachine.changed info) eqn:Ec.
    + destruct (Hchg eq_refl) as (Hge & Hst & _). lia.
    + rewrite (Hsame eq_refl) in Hle. exact Hle.
Qed.

(** X25: state changes are debounced: between any two calls of [update]
    that change the state lies at least the minimum state duration
    (100 ms), whatever gestures arrive in between; a call that reports no
    change leaves the machine as it was. *)
Theorem state_changes_debounced (m0 m1 m2 m3 : GestureStateMachine.t)
  (t1 t2 : Z) (g1 g2 : DetectedGesture)
  (between : list (Z * DetectedGesture))
  (info1 info2 : GestureStateMachine.StateInfo)
  (infos : list GestureStateMachine.StateInfo) :
  (0 <= GestureStateMachine.minStateDuration m0)%Z ->
  GestureStateMachine.update m0 t1 g1 = (m1, info1) ->
  GestureStateMachine.updates m1 between = (m2, infos) ->
  GestureStateMachine.update m2 t2 g2 = (m3, info2) ->
  GestureStateMachine.changed info1 = true ->
  GestureStateMachine.changed info2 = true ->
  (t2 - t1 >= GestureStateMachine.minStateDuration m0)%Z.
Proof.
  intros Hd H1 Hmid H2 Hc1 Hc2.
  destruct (update_step _ _ _ _ _ H1) as (Hd1 & _ & Hchg1).
  destruct (Hchg1 Hc1) as (_ & Hst1 & _).
  destruct (updates_stateStartTime _ _ _ _ ltac:(rewrite Hd1; exact Hd) Hmid)
    as [Hle Hd2].
  destruct (update_step _ _ _ _ _ H2) as (_ & _ & Hchg2).
  destruct (Hchg2 Hc2) as (Hge & _). lia.
Qed.

Lemma state_changes_debounced_witness :
  (250 - 100 >= 100)%Z.
Proof.
  set (m0 := GestureStateMachine.constructor 0).
  set (rotate := mkGesture "ROTATE" 1 (Some 0.01) (Some 0) None).
  set (fist := mkGesture "FIST" 1 None None None).
  apply (state_changes_debounced m0
           (fst (GestureStateMachine.update m0 100 rotate))
           (fst (GestureStateMachine.update m0 100 rotate))
           (fst (GestureStateMachine.update
                   (fst (GestureStateMachine.update m0 100 rotate)) 250 fist))
           100 250 rotate fist []
           (snd (GestureStateMachine.update m0 100 rotate))
           (snd (GestureStateMachine.update
                   (fst (GestureStateMachine.update m0 100 rotate)) 250 fist))
           []).
  - cbn. lia.
  - reflexivity.
  - reflexivity.
  - reflexivity.
  - reflexivity.
  - reflexivity.
Defined.

(** * The interaction controller *)

Lemma clamp_bounds (value min max : R) :
  min <= max ->
  min <= InteractionController.clamp value min max <= max.
Proof.
  intros H. unfold InteractionController.clamp. split.
  - apply Rmax_l.
  - apply Rmax_lub; [exact H | apply Rmin_l].
Qed.

Lemma zoom_zoomInv (c : InteractionController.t) (delta : R) :
  zoomInv c -> zoomInv (InteractionController.zoom c delta).
Proof.
  intros (Hmin & Hmax & Hz). unfold InteractionController.zoom.
  destruct (InteractionController.isLocked c); [repeat split; tauto|].
  unfold zoomInv. cbn. rewrite Hmin, Hmax.
  split; [reflexivity|]. split; [reflexivity|].
  apply clamp_bounds. lra.
Qed.

Lemma processGesture_zoomInv (c c' : InteractionController.t)
  (info : GestureStateMachine.StateInfo) :
  zoomInv c ->
  InteractionController.processGesture c info = Some c' ->
  zoomInv c'.
Proof.
  intros Hinv. pose proof Hinv as (Hmin & Hmax & Hz).
  unfold InteractionController.processGesture.
  repeat match goal with
         | |- context [if String.eqb ?a ?b then _ else _] =>
             destruct (String.eqb a b)
         end.
  - destruct (gestureDeltaX _); intros H; injection H as <-; [|exact Hinv].
    unfold InteractionController.rotate.
    destruct (InteractionController.isLocked c); [exact Hinv|].
    unfold zoomInv. cbn. tauto.
  - unfold InteractionController.handlePinch.
    destruct (InteractionController.isLocked c) eqn:El.
    { intros H; injection H as <-. exact Hinv. }
    destruct (_ || _).
    + destruct (gestureDelta _); cbn [bind]; [|discriminate].
      intros H; injection H as <-. apply zoom_zoomInv, Hinv.
    + intros H; injection H as <-. exact Hinv.
  - unfold InteractionController.afterSwitch.
    destruct (snd _); intros H; try discriminate H; injection H as <-;
      unfold zoomInv; cbn; tauto.
  - unfold InteractionController.afterSwitch.
    destruct (snd _); intros H; try discriminate H; injection H as <-;
      unfold zoomInv; cbn; tauto.
  - intros H; injection H as <-. exact Hinv.
  - intros H; injection H as <-. unfold zoomInv. cbn.
    split; [exact Hmin|]. split; [exact Hmax | lra].
  - intros H; injection H as <-. unfold zoomInv. cbn. tauto.
  - intros H; injection H as <-. unfold zoomInv. cbn. tauto.
  - intros H; injection H as <-. exact Hinv.
Qed.

(** X26: whatever state infos the controller processes after its
    construction, pinches of any size included, its zoom target stays
    between 0.5 and 2.5. *)
Theorem targetZoom_bounded (mc : ModelController.t)
  (infos : list GestureStateMachine.StateInfo)
  (c : InteractionController.t) :
  InteractionController.processGestures
    (InteractionController.constructor mc) infos = Some c ->
  0.5 <= InteractionController.targetZoom c <= 2.5.
Proof.
  assert (Hgen : forall c0, zoomInv c0 ->
            InteractionController.processGestures c0 infos = Some c ->
            zoomInv c).
  { induction infos as [|info rest IH]; intros c0 H0 H.
    - cbn in H. injection H as <-. exact H0.
    - cbn [InteractionController.processGestures] in H.
      destruct (InteractionController.processGesture c0 info) as [c1|] eqn:E;
        cbn [bind] in H; [|discriminate H].
      exact (IH c1 (processGesture_zoomInv _ _ _ H0 E) H). }
  intros H. refine (proj2 (proj2 (Hgen _ _ H))).
  unfold zoomInv. cbn. repeat split; lra.
Qed.

Lemma targetZoom_bounded_witness :
  0.5 <= InteractionController.targetZoom
           (InteractionController.zoom
              (InteractionController.constructor
                 (ModelController.loaded ["a"; "b"]%string)) (40 * 2.0))
      <= 2.5.
Proof.
  apply (targetZoom_bounded (ModelController.loaded ["a"; "b"]%string)
           [GestureStateMachine.mkInfo "ZOOMING" false false
              (mkGesture "PINCH_OUT" 1 None None (Some 40))]).
  reflexivity.
Defined.

(** X27: a locked machine locks the controller: while the state machine
    is in LOCKED and no arriving gesture maps to IDLE, the pipeline changes
    neither the rotation target, nor the zoom target, nor the model
    controller, whatever rotations, pinches, swipes and open palms arrive;
    the machine stays in LOCKED and the controller is locked after the
    first of them. *)
Theorem locked_pipeline (calls : list (Z * DetectedGesture)) :
  forall (m : GestureStateMachine.t) (c : InteractionController.t),
    GestureStateMachine.currentState m = "LOCKED"%string ->
    Forall (fun call =>
              GestureStateMachine.mapGestureToState (snd call)
              <> "IDLE"%string) calls ->
    exists m' c',
      InteractionController.pipeline m c calls = Some (m', c')
      /\ m' = m
      /\ InteractionController.targetRotationY c'
         = InteractionController.targetRotationY c
      /\ InteractionController.targetZoom c'
         = InteractionController.targetZoom c
      /\ InteractionController.modelController c'
         = InteractionController.modelController c
      /\ (calls <> [] -> InteractionController.isLocked c' = true).
Proof.
  induction calls as [|[now g] rest IH]; intros m c Hl Hall.
  - exists m, c. cbn. repeat split; try reflexivity. congruence.
  - inversion Hall as [|call rest' Hg Hrest]; subst. cbn [snd] in Hg.
    assert (Hu : GestureStateMachine.update m now g
                 = (m, GestureStateMachine.mkInfo "LOCKED" false false g)
                 \/ GestureStateMachine.update m now g
                    = (m, GestureStateMachine.mkInfo "LOCKED" false true g)).
    { unfold GestureStateMachine.update.
      destruct (_ <? _)%Z; [left; rewrite Hl; reflexivity|].
      unfold GestureStateMachine.isTransitionAllowed. rewrite Hl.
      cbn [String.eqb Ascii.eqb Bool.eqb andb].
      destruct (String.eqb_spec (GestureStateMachine.mapGestureToState g)
                  "IDLE"); [contradiction|].
      right. reflexivity. }
    set (c1 := InteractionController.setLocked true c).
    assert (Hp : InteractionController.pipeline m c ((now, g) :: rest)
                 = InteractionController.pipeline m c1 rest).
    { cbn [InteractionController.pipeline].
      destruct Hu as [-> | ->]; reflexivity. }
    destruct (IH m c1 Hl Hrest) as (m' & c' & Hrun & Hm & Hr & Hz & Hmc & Hlk).
    exists m', c'. rewrite Hp. split; [exact Hrun|]. split; [exact Hm|].
    split; [exact Hr|]. split; [exact Hz|]. split; [exact Hmc|].
    intros _. destruct rest as [|call rest].
    + cbn in Hrun. injection Hrun as _ <-. reflexivity.
    + apply Hlk. discriminate.
Qed.

Lemma locked_pipeline_witness :
  exists m' c',
    InteractionController.pipeline
      (GestureStateMachine.setState (GestureStateMachine.constructor 0) 0
         "LOCKED")
      (InteractionController.constructor (ModelController.loaded ["a"]%string))
      [(500%Z, mkGesture "ROTATE" 1 (Some 0.2) (Some 0) None);
       (900%Z, mkGesture "OPEN_PALM" 1 None None None)]
    = Some (m', c')
    /\ m' = GestureStateMachine.setState (GestureStateMachine.constructor 0) 0
              "LOCKED"
    /\ InteractionController.targetRotationY c'
       = InteractionController.targetRotationY
           (InteractionController.constructor
              (ModelController.loaded ["a"]%string))
    /\ InteractionController.targetZoom c'
       = InteractionController.targetZoom
           (InteractionController.constructor
              (ModelController.loaded ["a"]%string))
    /\ InteractionController.modelController c'
       = InteractionController.modelController
           (InteractionController.constructor
              (ModelController.loaded ["a"]%string))
    /\ ([(500%Z, mkGesture "ROTATE" 1 (Some 0.2) (Some 0) None);
         (900%Z, mkGesture "OPEN_PALM" 1 None None None)] <> [] ->
        InteractionController.isLocked c' = true).
Proof.
  apply (locked_pipeline
           [(500%Z, mkGesture "ROTATE" 1 (Some 0.2) (Some 0) None);
            (900%Z, mkGesture "OPEN_PALM" 1 None None None)]).
  - reflexivity.
  - repeat constructor; cbn; discriminate.
Defined.

Lemma lerp_gap (x y t : R) :
  y - InteractionController.lerp x y t = (1 - t) * (y - x).
Proof. unfold InteractionController.lerp. ring. Qed.

Lemma frames_S (n : nat) (sizeY : R) (c : InteractionController.t) :
  InteractionController.frames (S n) sizeY c
  = fst (InteractionController.update
           (InteractionController.frames n sizeY c) (Some sizeY)).
Proof. reflexivity. Qed.

Lemma frames_dampingFactor (n : nat) (sizeY : R)
  (c : InteractionController.t) :
  InteractionController.dampingFactor (InteractionController.frames n sizeY c)
  = InteractionController.dampingFactor c.
Proof.
  induction n as [|n IH]; [reflexivity|]. rewrite frames_S. exact IH.
Qed.

(** X28: damping is geometric: after [n] animation frames with the
    targets untouched, the distance of the shown zoom (and of the shown
    rotation) from its target is the initial distance times
    [(1 - dampingFactor) ^ n]; the targets themselves do not move. *)
Theorem damping_geometric (n : nat) (sizeY : R)
  (c : InteractionController.t) :
  let c' := InteractionController.frames n sizeY c in
  InteractionController.targetZoom c' = InteractionController.targetZoom c
  /\ InteractionController.targetRotationY c'
     = InteractionController.targetRotationY c
  /\ InteractionController.targetZoom c' - InteractionController.currentZoom c'
     = (1 - InteractionController.dampingFactor c) ^ n
       * (InteractionController.targetZoom c
          - InteractionController.currentZoom c)
  /\ InteractionController.targetRotationY c'
     - InteractionController.currentRotationY c'
     = (1 - InteractionController.dampingFactor c) ^ n
       * (InteractionController.targetRotationY c
          - InteractionController.currentRotationY c).
Proof.
  cbn zeta. induction n as [|n IH].
  - cbn. repeat split; ring.
  - destruct IH as (Hz & Hr & Hgz & Hgr).
    rewrite frames_S.
    pose proof (frames_dampingFactor n sizeY c) as Hd.
    set (cn := InteractionController.frames n sizeY c) in *.
    cbn [InteractionController.update fst
         InteractionController.set_current InteractionController.targetZoom
         InteractionController.targetRotationY
         InteractionController.currentZoom
         InteractionController.currentRotationY].
    split; [exact Hz|]. split; [exact Hr|].
    rewrite !lerp_gap, Hd, Hgz, Hgr. cbn [pow]. split; ring.
Qed.

(** * Surface sampling *)

Lemma ushr1_half (n : Z) :
  (0 <= n < 2 ^ 32)%Z -> ExtractVertices.ushr1 n = (n / 2)%Z.
Proof.
  intros H. unfold ExtractVertices.ushr1.
  rewrite Z.mod_small by exact H. rewrite Z.shiftr_div_pow2 by lia.
  reflexivity.
Qed.

Lemma cdfAt_inside (cdf : list R) (i : Z) :
  (0 <= i < Z.of_nat (List.length cdf))%Z -> exists x, cdfAt cdf i = Some x.
Proof.
  intros H. unfold cdfAt.
  destruct (nth_error cdf (Z.to_nat i)) as [x|] eqn:E; [eauto|].
  apply nth_error_None in E. lia.
Qed.

Lemma cdfAt_length (cdf : list R) (i : Z) (x : R) :
  (0 <= i)%Z -> cdfAt cdf i = Some x -> (i < Z.of_nat (List.length cdf))%Z.
Proof.
  intros Hi H. unfold cdfAt in H.
  assert (Hs : nth_error cdf (Z.to_nat i) <> None) by congruence.
  apply nth_error_Some in Hs. lia.
Qed.

Lemma searchLoop_selected (cdf : list R) (r : R) :
  nondecreasing cdf ->
  (Z.of_nat (List.length cdf) < 2 ^ 31)%Z ->
  forall (fuel : nat) (low high meshIndex : Z),
    (0 <= low <= high + 1)%Z ->
    (high <= Z.of_nat (List.length cdf) - 1)%Z ->
    (forall j x, (0 <= j < low)%Z -> cdfAt cdf j = Some x -> x < r) ->
    (0 <= meshIndex < Z.of_nat (List.length cdf))%Z ->
    (high = Z.of_nat (List.length cdf) - 1 ->
     meshIndex = Z.of_nat (List.length cdf) - 1)%Z ->
    ((high < Z.of_nat (List.length cdf) - 1)%Z ->
     meshIndex = (high + 1)%Z
     /\ exists x, cdfAt cdf meshIndex = Some x /\ r <= x) ->
    (high - low + 1 < Z.of_nat fuel)%Z ->
    exists i,
      ExtractVertices.searchLoop fuel cdf r low high meshIndex = Some i
      /\ selected cdf r i.
Proof.
  intros Hsorted Hlen.
  induction fuel as [|fuel IH];
    intros low high meshIndex Hlow Hhigh Hbelow Hmesh Hlast Hfound Hfuel.
  - lia.
  - cbn [ExtractVertices.searchLoop].
    destruct (Z.leb_spec low high) as [Hle | Hgt].
    + rewrite ushr1_half by lia.
      set (mid := ((low + high) / 2)%Z).
      assert (Hmid : (low <= mid <= high)%Z).
      { unfold mid. split.
        - apply Z.div_le_lower_bound; lia.
        - apply Z.div_le_upper_bound; lia. }
      destruct (cdfAt_inside cdf mid ltac:(lia)) as [c Hc].
      unfold ExtractVertices.cdfBelow.
      destruct (Z.ltb_spec mid 0) as [Hneg | _]; [lia|].
      unfold cdfAt in Hc. rewrite Hc.
      destruct (Rltb_spec c r) as [Hcr | Hcr].
      * apply IH; try assumption; try lia.
        intros j x Hj Hx.
        assert (Hxc : x <= c).
        { apply (Hsorted (Z.to_nat j) (Z.to_nat mid)); [lia | exact Hx | exact Hc]. }
        lra.
      * apply IH; try assumption; try lia.
        intros _. split; [lia|]. exists c. split; [exact Hc | lra].
    + exists meshIndex. split; [reflexivity|].
      assert (Hlh : low = (high + 1)%Z) by lia.
      split; [exact Hmesh|].
      destruct (Z.eq_dec high (Z.of_nat (List.length cdf) - 1)) as [He | Hne].
      * pose proof (Hlast He) as Hm. split.
        -- intros j x Hj Hx. apply (Hbelow j x); [lia | exact Hx].
        -- right. split; [exact Hm|]. intros j x Hx Hj.
           apply (Hbelow j x); [|exact Hx].
           pose proof (cdfAt_length _ _ _ Hj Hx). lia.
      * destruct (Hfound ltac:(lia)) as [Hm Hx]. split.
        -- intros j x Hj Hjx. apply (Hbelow j x); [lia | exact Hjx].
        -- left. exact Hx.
Qed.

Lemma fold_left_Rplus_pos (areas : list R) :
  Forall (fun area => 0 < area) areas ->
  forall c, c <= fold_left Rplus areas c
            /\ (areas <> [] -> c < fold_left Rplus areas c).
Proof.
  induction 1 as [|a rest Ha Hrest IH]; intros c.
  - cbn. split; [lra | congruence].
  - cbn [fold_left]. destruct (IH (c + a)) as [Hle _].
    split; [lra | intros _; lra].
Qed.

Lemma keptAreas_pos (areas : list R) :
  Forall (fun area => 0 < area) (ExtractVertices.keptAreas areas).
Proof.
  unfold ExtractVertices.keptAreas. apply Forall_forall. intros a Ha.
  apply filter_In in Ha. destruct Ha as [_ Ha].
  destruct (Rgtb_spec a 0); [lra | discriminate].
Qed.

Lemma cdfFrom_length (kept : list R) :
  forall c total,
    List.length (ExtractVertices.cdfFrom kept c total) = List.length kept.
Proof.
  induction kept as [|a rest IH]; intros c total; [reflexivity|].
  cbn. rewrite IH. reflexivity.
Qed.

Lemma cdfFrom_above (kept : list R) (total : R) :
  0 < total ->
  Forall (fun area => 0 < area) kept ->
  forall c j y,
    nth_error (ExtractVertices.cdfFrom kept c total) j = Some y ->
    c / total < y.
Proof.
  intros Ht. induction 1 as [|a rest Ha Hrest IH]; intros c j y Hy.
  - destruct j; discriminate Hy.
  - assert (Hstep : c / total < (c + a) / total).
    { unfold Rdiv. apply Rmult_lt_compat_r; [apply Rinv_0_lt_compat, Ht | lra]. }
    destruct j as [|j]; cbn in Hy.
    + injection Hy as <-. exact Hstep.
    + apply IH in Hy. lra.
Qed.

Lemma cdfFrom_nondecreasing (kept : list R) (total : R) :
  0 < total ->
  Forall (fun area => 0 < area) kept ->
  forall c, nondecreasing (ExtractVertices.cdfFrom kept c total).
Proof.
  intros Ht. induction 1 as [|a rest Ha Hrest IH]; intros c i j x y Hij Hx Hy.
  - destruct i; discriminate Hx.
  - destruct i as [|i], j as [|j]; cbn in Hx, Hy.
    + injection Hx as <-. injection Hy as <-. lra.
    + injection Hx as <-.
      pose proof (cdfFrom_above rest total Ht Hrest _ _ _ Hy). lra.
    + lia.
    + apply (IH (c + a) i j x y); [lia | exact Hx | exact Hy].
Qed.

Lemma cdfFrom_last (kept : list R) (total : R) :
  kept <> [] ->
  forall c,
    nth_error (ExtractVertices.cdfFrom kept c total)
      (List.length kept - 1)
    = Some (fold_left Rplus kept c / total).
Proof.
  induction kept as [|a rest IH]; intros Hne c; [congruence|].
  destruct rest as [|b rest'].
  - reflexivity.
  - specialize (IH ltac:(discriminate) (c + a)).
    cbn [List.length Nat.sub] in *. rewrite Nat.sub_0_r in *.
    exact IH.
Qed.

(** X29: the binary search of the surface sampler terminates and selects
    by area: for the distribution built from any triangle areas of which
    at least one is positive, and any random number [r] below 1, it
    answers with the first kept triangle whose cumulative share of the area
    is at least [r], so that a triangle is chosen exactly when [r] falls
    between the cumulative share before it and its own. *)
Theorem selectTriangle_by_area (areas : list R) (r : R) (fuel : nat) :
  let cdf := ExtractVertices.buildCdf areas in
  ExtractVertices.keptAreas areas <> [] ->
  (Z.of_nat (List.length areas) < 2 ^ 31)%Z ->
  r < 1 ->
  (List.length cdf < fuel)%nat ->
  exists i x,
    ExtractVertices.selectTriangle fuel cdf r = Some i
    /\ (0 <= i < Z.of_nat (List.length (ExtractVertices.keptAreas areas)))%Z
    /\ cdfAt cdf i = Some x /\ r <= x
    /\ forall j y, (0 <= j < i)%Z -> cdfAt cdf j = Some y -> y < r.
Proof.
  cbn zeta. intros Hne Hlen Hr Hfuel.
  pose proof (keptAreas_pos areas) as Hpos.
  assert (Htotal : 0 < ExtractVertices.totalArea areas).
  { unfold ExtractVertices.totalArea.
    apply (fold_left_Rplus_pos _ Hpos 0). exact Hne. }
  assert (Hcl : List.length (ExtractVertices.buildCdf areas)
                = List.length (ExtractVertices.keptAreas areas)).
  { unfold ExtractVertices.buildCdf. apply cdfFrom_length. }
  assert (Hkl : (List.length (ExtractVertices.keptAreas areas)
                 <= List.length areas)%nat).
  { unfold ExtractVertices.keptAreas. apply filter_length_le. }
  assert (Hk0 : (0 < List.length (ExtractVertices.keptAreas areas))%nat).
  { destruct (ExtractVertices.keptAreas areas); [congruence | cbn; lia]. }
  assert (Hlastv : cdfAt (ExtractVertices.buildCdf areas)
                     (Z.of_nat (List.length (ExtractVertices.buildCdf areas))
                      - 1) = Some 1).
  { unfold cdfAt. rewrite Hcl.
    replace (Z.to_nat
               (Z.of_nat (List.length (ExtractVertices.keptAreas areas)) - 1))
      with (List.length (ExtractVertices.keptAreas areas) - 1)%nat by lia.
    unfold ExtractVertices.buildCdf. rewrite (cdfFrom_last _ _ Hne 0).
    fold (ExtractVertices.totalArea areas). f_equal. field. lra. }
  destruct (searchLoop_selected (ExtractVertices.buildCdf areas) r
              (cdfFrom_nondecreasing _ _ Htotal Hpos 0) ltac:(lia)
              fuel 0
              (Z.of_nat (List.length (ExtractVertices.buildCdf areas)) - 1)
              (Z.of_nat (List.length (ExtractVertices.buildCdf areas)) - 1))
    as (i & Hrun & Hi & Hbefore & Hat); try lia.
  destruct Hat as [(x & Hx & Hrx) | (Hilast & Hall)].
  - exists i, x. split; [exact Hrun|]. rewrite <- Hcl.
    split; [exact Hi|]. split; [exact Hx|]. split; [exact Hrx | exact Hbefore].
  - specialize (Hall _ _ Hlastv ltac:(lia)). lra.
Qed.

Lemma selectTriangle_by_area_witness :
  exists i x,
    ExtractVertices.selectTriangle 4
      (ExtractVertices.buildCdf [1; 0; 3; 4]) 0.45 = Some i
    /\ (0 <= i < Z.of_nat (List.length
                             (ExtractVertices.keptAreas
                                [1%R; 0%R; 3%R; 4%R])))%Z
    /\ cdfAt (ExtractVertices.buildCdf [1; 0; 3; 4]) i = Some x
    /\ 0.45 <= x
    /\ forall j y, (0 <= j < i)%Z ->
                   cdfAt (ExtractVertices.buildCdf [1; 0; 3; 4]) j = Some y ->
                   y < 0.45.
Proof.
  assert (Hk : ExtractVertices.keptAreas [1; 0; 3; 4] = [1; 3; 4]).
  { unfold ExtractVertices.keptAreas. cbn [filter].
    rewrite (Rgtb_true 1 0), (Rgtb_false 0 0), (Rgtb_true 3 0),
      (Rgtb_true 4 0) by lra. reflexivity. }
  apply (selectTriangle_by_area [1; 0; 3; 4] 0.45 4).
  - rewrite Hk. discriminate.
  - cbn. lia.
  - lra.
  - unfold ExtractVertices.buildCdf. rewrite cdfFrom_length, Hk. cbn. lia.
Defined.

(** * Normalisation of the sampled points *)

Lemma fold_grow (points : list Point) :
  forall b,
    fold_left ExtractVertices.grow points b
    = ExtractVertices.mkBox
        (lowerAll lm_x points (ExtractVertices.minX b))
        (lowerAll lm_y points (ExtractVertices.minY b))
        (lowerAll lm_z points (ExtractVertices.minZ b))
        (upperAll lm_x points (ExtractVertices.maxX b))
        (upperAll lm_y points (ExtractVertices.maxY b))
        (upperAll lm_z points (ExtractVertices.maxZ b)).
Proof.
  induction points as [|p rest IH]; intros b.
  - destruct b. reflexivity.
  - cbn [fold_left]. rewrite IH. reflexivity.
Qed.

Lemma lowerAll_some (f : Point -> R) (points : list Point) :
  forall m0,
    exists m,
      lowerAll f points (Some m0) = Some m
      /\ m <= m0 /\ Forall (fun p => m <= f p) points.
Proof.
  induction points as [|p rest IH]; intros m0.
  - exists m0. cbn. split; [reflexivity|]. split; [lra | constructor].
  - unfold lowerAll. cbn [fold_left ExtractVertices.lower].
    destruct (Rltb_spec (f p) m0) as [Hlt | Hge].
    + destruct (IH (f p)) as (m & Hm & Hle & Hall).
      exists m. split; [exact Hm|]. split; [lra|].
      constructor; [lra | exact Hall].
    + destruct (IH m0) as (m & Hm & Hle & Hall).
      exists m. split; [exact Hm|]. split; [lra|].
      constructor; [lra | exact Hall].
Qed.

Lemma upperAll_some (f : Point -> R) (points : list Point) :
  forall m0,
    exists m,
      upperAll f points (Some m0) = Some m
      /\ m0 <= m /\ Forall (fun p => f p <= m) points.
Proof.
  induction points as [|p rest IH]; intros m0.
  - exists m0. cbn. split; [reflexivity|]. split; [lra | constructor].
  - unfold upperAll. cbn [fold_left ExtractVertices.upper].
    destruct (Rgtb_spec (f p) m0) as [Hgt | Hle].
    + destruct (IH (f p)) as (m & Hm & Hle & Hall).
      exists m. split; [exact Hm|]. split; [lra|].
      constructor; [lra | exact Hall].
    + destruct (IH m0) as (m & Hm & Hle' & Hall).
      exists m. split; [exact Hm|]. split; [lra|].
      constructor; [lra | exact Hall].
Qed.

Lemma lowerAll_none (f : Point -> R) (p : Point) (rest : list Point) :
  exists m,
    lowerAll f (p :: rest) None = Some m
    /\ Forall (fun q => m <= f q) (p :: rest).
Proof.
  destruct (lowerAll_some f rest (f p)) as (m & Hm & Hle & Hall).
  exists m. split; [exact Hm|]. constructor; assumption.
Qed.

Lemma upperAll_none (f : Point -> R) (p : Point) (rest : list Point) :
  exists m,
    upperAll f (p :: rest) None = Some m
    /\ Forall (fun q => f q <= m) (p :: rest).
Proof.
  destruct (upperAll_some f rest (f p)) as (m & Hm & Hle & Hall).
  exists m. split; [exact Hm|]. constructor; assumption.
Qed.

Lemma scaled_within (x lo hi maxDim : R) :
  lo <= x <= hi ->
  hi - lo <= maxDim ->
  -1.25 <= (x - (lo + hi) / 2) * (2.5 / ExtractVertices.orOne maxDim) <= 1.25.
Proof.
  intros Hx Hd. unfold ExtractVertices.orOne.
  destruct (Req_dec_T maxDim 0) as [H0 | Hn0].
  - assert (H : x - (lo + hi) / 2 = 0) by lra.
    rewrite H, Rmult_0_l. lra.
  - assert (Hpos : 0 < maxDim) by lra.
    assert (Hs : 0 < 2.5 / maxDim).
    { apply Rdiv_lt_0_compat; lra. }
    assert (Hhalf : (maxDim / 2) * (2.5 / maxDim) = 1.25).
    { replace 2.5 with (5 / 2) by lra. replace 1.25 with (5 / 4) by lra.
      field. lra. }
    split.
    + replace (-1.25) with (- (maxDim / 2) * (2.5 / maxDim)) by lra.
      apply Rmult_le_compat_r; lra.
    + rewrite <- Hhalf. apply Rmult_le_compat_r; lra.
Qed.

(** X30: normalisation fits the sampled points into the cube of side 2.5
    around the origin: for any non-empty list of points the result has as
    many points, and every coordinate of every one of them lies between
    -1.25 and 1.25, also when all points coincide. *)
Theorem normalize_fits (points : list Point) :
  points <> [] ->
  exists out,
    ExtractVertices.normalize points = Some out
    /\ List.length out = List.length points
    /\ Forall (inBox (mkPoint (-1.25) (-1.25) (-1.25))
                 (mkPoint 1.25 1.25 1.25)) out.
Proof.
  intros Hne. destruct points as [|p rest]; [congruence|].
  unfold ExtractVertices.normalize, ExtractVertices.boundingBox.
  rewrite fold_grow.
  cbn [ExtractVertices.emptyBox ExtractVertices.minX ExtractVertices.minY
       ExtractVertices.minZ ExtractVertices.maxX ExtractVertices.maxY
       ExtractVertices.maxZ].
  destruct (lowerAll_none lm_x p rest) as (x0 & -> & Hx0).
  destruct (lowerAll_none lm_y p rest) as (y0 & -> & Hy0).
  destruct (lowerAll_none lm_z p rest) as (z0 & -> & Hz0).
  destruct (upperAll_none lm_x p rest) as (x1 & -> & Hx1).
  destruct (upperAll_none lm_y p rest) as (y1 & -> & Hy1).
  destruct (upperAll_none lm_z p rest) as (z1 & -> & Hz1).
  cbn [bind]. eexists. split; [reflexivity|].
  split; [apply length_map|].
  apply Forall_forall. intros q Hq. apply in_map_iff in Hq.
  destruct Hq as (q0 & <- & Hq0).
  rewrite Forall_forall in Hx0, Hy0, Hz0, Hx1, Hy1, Hz1.
  specialize (Hx0 _ Hq0). specialize (Hy0 _ Hq0). specialize (Hz0 _ Hq0).
  specialize (Hx1 _ Hq0). specialize (Hy1 _ Hq0). specialize (Hz1 _ Hq0).
  cbn beta in *.
  unfold inBox. cbn [lm_x lm_y lm_z].
  split; [|split]; apply scaled_within; try lra.
  - eapply Rle_trans; [|apply Rmax_l]. apply Rmax_l.
  - eapply Rle_trans; [|apply Rmax_l]. apply Rmax_r.
  - apply Rmax_r.
Qed.

Lemma normalize_fits_witness :
  exists out,
    ExtractVertices.normalize [mkPoint 0 0 0; mkPoint 10 4 2] = Some out
    /\ List.length out = List.length [mkPoint 0 0 0; mkPoint 10 4 2]
    /\ Forall (inBox (mkPoint (-1.25) (-1.25) (-1.25))
                 (mkPoint 1.25 1.25 1.25)) out.
Proof.
  apply (normalize_fits [mkPoint 0 0 0; mkPoint 10 4 2]). discriminate.
Defined.
